(** * chatbot-react: the message-exchange lifecycle of the Chatbot component

    A shallow embedding of the two variants of the [Chatbot] React
    component:

    - [Internal]: src/Chabot/Chatbot.tsx, which owns its message list
      ([useState<ChatMessage[]>]) and accepts an [onSaveMessage] callback;
    - [Paired]: the variant with host-owned [conversation] /
      [setConversation] and one paired entry per exchange.

    The component is event driven.  A world holds the React state cells
    of one mounted instance, the suspended activations of the async
    function [handleSendMessage], and logs of what the component did to
    its environment (network calls issued, host functions called,
    console diagnostics).  Every handler is written in a small
    state-and-exception monad; an [await] splits [handleSendMessage]
    into the segments that run between two suspensions. *)

From Stdlib Require Import List String Ascii Bool ZArith NArith Lia.
From Stdlib Require Import Floats.SpecFloat Numbers.DecimalString.
From Stdlib Require Import Sorting.Sorted Numbers.DecimalZ Numbers.DecimalPos.
Import ListNotations.

Set Implicit Arguments.
Set Warnings "-register-all".

(** ** JavaScript values *)

Module Js.

(** A JS string is a sequence of UTF-16 code units. *)
Definition jsstring := list N.

(** An ASCII literal of the source as a JS string. *)
Definition lit (s : string) : jsstring :=
  map N_of_ascii (list_ascii_of_string s).

(** ECMAScript WhiteSpace and LineTerminator code points, the ones
    [String.prototype.trim] strips. *)
Definition isWhiteSpace (c : N) : bool :=
  ((9 <=? c) && (c <=? 13) ||
   (c =? 32) || (c =? 160) || (c =? 5760) ||
   (8192 <=? c) && (c <=? 8202) ||
   (c =? 8232) || (c =? 8233) || (c =? 8239) || (c =? 8287) ||
   (c =? 12288) || (c =? 65279))%N.

Fixpoint trimStart (s : jsstring) : jsstring :=
  match s with
  | [] => []
  | c :: r => if isWhiteSpace c then trimStart r else s
  end.

Definition trimEnd (s : jsstring) : jsstring := rev (trimStart (rev s)).

(** [s.trim()] *)
Definition trim (s : jsstring) : jsstring := trimEnd (trimStart s).

(** The values [await res.json()] can produce, and [undefined], which a
    property read can produce. *)
Inductive value : Type :=
| VUndefined
| VNull
| VBool (b : bool)
| VNumber (x : spec_float)
| VString (s : jsstring)
| VArray (elems : list value)
| VObject (members : list (jsstring * value)).

(** ToBoolean *)
Definition truthy (v : value) : bool :=
  match v with
  | VUndefined | VNull => false
  | VBool b => b
  | VNumber (S754_zero _) | VNumber S754_nan => false
  | VNumber _ => true
  | VString [] => false
  | VString (_ :: _) => true
  | VArray _ | VObject _ => true
  end.

(** [a || b] *)
Definition or_else (a b : value) : value := if truthy a then a else b.

Definition jsstring_eqb (a b : jsstring) : bool :=
  if list_eq_dec N.eq_dec a b then true else false.

(** Own property lookup in a parsed object; of two members with one
    key, JSON.parse keeps the later. *)
Fixpoint lookup (k : jsstring) (members : list (jsstring * value))
  : option value :=
  match members with
  | [] => None
  | (k', v) :: rest =>
      match lookup k rest with
      | Some v' => Some v'
      | None => if jsstring_eqb k k' then Some v else None
      end
  end.

(** What the runtime throws or rejects with. *)
Inductive Thrown : Type :=
| ApiError (status : Z) (statusText : jsstring)
    (* new Error(`API error: ${res.status} ${res.statusText}`) *)
| TypeError
    (* a property read on null or undefined *)
| Reason (what : jsstring)
    (* a rejection or exception raised outside the component: the
       network, the body parser, a host callback *).

(** A settled promise. *)
Inductive Settled (A : Type) : Type :=
| Fulfilled (a : A)
| Rejected (reason : Thrown).
Arguments Rejected {A} reason.

(** [data.answer]: a property that none of the built-in prototypes
    defines, so only a parsed object can have it; reading it off null
    or undefined throws. *)
Definition answer_of (data : value) : Settled value :=
  match data with
  | VUndefined | VNull => Rejected TypeError
  | VObject members =>
      match lookup (lit "answer") members with
      | Some v => Fulfilled v
      | None => Fulfilled VUndefined
      end
  | _ => Fulfilled VUndefined
  end.

(** The member [answer] of a parsed body, when it has one. *)
Definition answer_field (data : value) : option value :=
  match data with
  | VObject members => lookup (lit "answer") members
  | _ => None
  end.

(** What React accepts as a child of an element: a string or a number is
    shown, a boolean, [null] or [undefined] shows nothing, an array
    stands for its elements, and a plain object is refused ("Objects are
    not valid as a React child"). *)
Fixpoint valid_child (v : value) : bool :=
  match v with
  | VObject _ => false
  | VArray elems =>
      (fix all (l : list value) : bool :=
         match l with
         | [] => true
         | x :: r => valid_child x && all r
         end) elems
  | _ => true
  end.

(** What React throws for a child it refuses. *)
Definition invalid_child : Thrown :=
  Reason (lit "Objects are not valid as a React child").

(** [n.toString()] for an integer-valued number. *)
Definition toString (n : Z) : jsstring :=
  lit (NilZero.string_of_int (Z.to_int n)).

(** [a || b] where [a] is an optional string property. *)
Definition opt_or (a : option jsstring) (b : jsstring) : jsstring :=
  match a with
  | Some (c :: s) => c :: s
  | _ => b
  end.

(** The instant a [Date] object holds, in milliseconds since the epoch. *)
Definition Date := Z.

End Js.

Import Js.

(** ** Completions and the handler monad *)

Inductive Completion (A : Type) : Type :=
| Normal (a : A)
| Throw (e : Thrown).
Arguments Throw {A} e.

(** A computation over a world [W]. *)
Definition M (W A : Type) : Type := W -> Completion A * W.

Definition ret {W A} (a : A) : M W A := fun w => (Normal a, w).

Definition bind {W A B} (m : M W A) (k : A -> M W B) : M W B :=
  fun w =>
    match m w with
    | (Normal a, w1) => k a w1
    | (Throw e, w1) => (Throw e, w1)
    end.

Definition throw {W A} (e : Thrown) : M W A := fun w => (Throw e, w).

Definition modify {W} (f : W -> W) : M W unit := fun w => (Normal tt, f w).

Declare Scope js_scope.
Delimit Scope js_scope with js.
Notation "x <- m ;; k" := (bind m (fun x => k))
  (at level 61, m at next level, right associativity) : js_scope.
Notation "m ;; k" := (bind m (fun _ => k))
  (at level 61, right associativity) : js_scope.
Open Scope js_scope.

(** Where an activation of [handleSendMessage] is suspended. *)
Inductive Stage : Type :=
| AwaitFetch   (* await fetch(...) *)
| AwaitJson.   (* await res.json() *)

(** How a segment of the async function ends when it does not throw. *)
Inductive Progress : Type :=
| Finished
| Awaiting (st : Stage).

(** [try { body } catch (error) { handler } finally { fin }] around a
    segment of an async function: a segment that reaches an [await]
    leaves the statement suspended, and neither block runs. *)
Definition try_catch_finally {W}
    (body : M W Progress) (handler : Thrown -> M W unit) (fin : M W unit)
  : M W Progress :=
  fun w =>
    match body w with
    | (Normal (Awaiting st), w1) => (Normal (Awaiting st), w1)
    | (Normal Finished, w1) =>
        match fin w1 with
        | (Normal _, w2) => (Normal Finished, w2)
        | (Throw e, w2) => (Throw e, w2)
        end
    | (Throw e, w1) =>
        match handler e w1 with
        | (Normal _, w2) =>
            match fin w2 with
            | (Normal _, w3) => (Normal Finished, w3)
            | (Throw e', w3) => (Throw e', w3)
            end
        | (Throw e1, w2) =>
            match fin w2 with
            | (Normal _, w3) => (Throw e1, w3)
            | (Throw e', w3) => (Throw e', w3)
            end
        end
    end.

(** The two literals of the exchange. *)
Definition fallback_text : jsstring :=
  lit "Thank you for your message. How can I assist you further?".

Definition apology_text : jsstring :=
  lit "Sorry, I encountered a temporary issue. Please try again in a moment.".

(** [React.KeyboardEvent], the part the handlers read or set. *)
Record KeyboardEvent : Type := {
  key : jsstring;
  shiftKey : bool;
  ctrlKey : bool;
  altKey : bool;
  metaKey : bool;
  defaultPrevented : bool
}.

Definition preventDefault (e : KeyboardEvent) : KeyboardEvent :=
  {| key := key e; shiftKey := shiftKey e; ctrlKey := ctrlKey e;
     altKey := altKey e; metaKey := metaKey e; defaultPrevented := true |}.

(** The response object [fetch] resolves with. *)
Record Response : Type := {
  ok : bool;
  status : Z;
  statusText : jsstring
}.

(** A settlement of [fetch] that fails the exchange: a rejection, or a
    response whose [ok] is false. *)
Definition fetch_failed (r : Settled Response) : bool :=
  match r with
  | Rejected _ => true
  | Fulfilled res => negb (ok res)
  end.

(** What the catch block logs for a failed settlement of [fetch]. *)
Definition failure_of (r : Settled Response) : Thrown :=
  match r with
  | Rejected e => e
  | Fulfilled res => ApiError (status res) (statusText res)
  end.

(** The outcomes of [await res.json()] and of [data.answer] that throw
    inside the try block. *)
Definition reply_throws (r : Settled value) : option Thrown :=
  match r with
  | Rejected e => Some e
  | Fulfilled data =>
      match answer_of data with
      | Rejected e => Some e
      | Fulfilled _ => None
      end
  end.

(** The request [fetch] is called with.  The body is kept as the object
    handed to [JSON.stringify]; its [timestamp] is the instant that
    [toISOString] prints. *)
Record RequestBody : Type := {
  body_message : jsstring;
  body_userId : jsstring;
  body_timestamp : Date
}.

Record Request : Type := {
  url : jsstring;
  method : jsstring;
  authorization : jsstring;
  contentType : jsstring;
  body : RequestBody
}.

(** The events one mounted instance reacts to. *)
Inductive Event : Type :=
| ToggleClick                             (* onClick={toggleChat} *)
| InputChange (v : jsstring)              (* onChange *)
| KeyPress (e : KeyboardEvent)            (* onKeyPress *)
| SendClick                               (* onClick={handleSendMessage} *)
| FetchSettles (i : nat) (r : Settled Response)
| JsonSettles (i : nat) (r : Settled value).

(** Events of the user interface, as opposed to promise settlements. *)
Definition ui_event (e : Event) : bool :=
  match e with
  | FetchSettles _ _ | JsonSettles _ _ => false
  | _ => true
  end.

(** The triggers of the submit action. *)
Definition submit_trigger (e : Event) : bool :=
  match e with
  | SendClick | KeyPress _ => true
  | _ => false
  end.

(** What happens on the page: an event reaches the installed handlers, or
    React commits the scheduled updates and installs the handlers of the
    new render. *)
Inductive Action : Type :=
| Dispatch (ev : Event)
| Commit.

(** The argument of an [onSaveMessage] callback. *)
Record MessageData : Type := {
  question : jsstring;
  answer : value;
  userId : jsstring
}.

(** A call the component made into a function its host supplied. *)
Inductive HostCall (Entry : Type) : Type :=
| CallSetConversation (action : list Entry -> list Entry)
| CallOnSaveMessage (messageData : MessageData).
Arguments CallOnSaveMessage {Entry} messageData.

Definition is_save_call {Entry} (c : HostCall Entry) : bool :=
  match c with
  | CallOnSaveMessage _ => true
  | CallSetConversation _ => false
  end.

(** ** The internal-state variant (src/Chabot/Chatbot.tsx) *)

Module Internal.

Record User : Type := {
  id : jsstring;
  name : jsstring;
  email : option jsstring;
  avatar : option jsstring
}.

Inductive MessageType : Type := user_type | bot_type.

(** [ChatMessage].  The declared type of [message] is [string]; at run
    time a bot message holds whatever [data.answer || "..."] gave. *)
Record ChatMessage : Type := {
  msg_id : jsstring;
  msg_type : MessageType;
  message : value;
  timestamp : Date;
  msg_avatar : jsstring
}.

(** How a call into a host function comes back. *)
Inductive CallbackOutcome : Type :=
| Returns
| Throws (e : Thrown).

Inductive Position : Type :=
| center | bottom_right | bottom_left | top_right | top_left.

Record ChatbotProps : Type := {
  user : User;
  chatbotId : jsstring;
  apiKey : jsstring;
  position : option Position;
  onSaveMessage : option (MessageData -> CallbackOutcome);
  initialMessages : option (list ChatMessage);
  primaryColor : option jsstring;
  secondaryColor : option jsstring;
  botAvatar : option jsstring;
  userAvatar : option jsstring;
  title : option jsstring;
  welcomeMessage : option jsstring;
  apiEndpoint : option jsstring
}.

(** The React state of one instance, its suspended activations, and
    what it has done to its environment so far. *)
Record Activation : Type := {
  act_inputMessage : jsstring;   (* [inputMessage] of the closure *)
  act_stage : Stage
}.

Record World : Type := {
  isOpen : bool;
  messages : list ChatMessage;
  inputMessage : jsstring;
  isLoading : bool;
  inflight : list Activation;
  fetchLog : list Request;         (* calls of [fetch], oldest first *)
  hostLog : list (HostCall ChatMessage);
  consoleLog : list Thrown;        (* [console.error] *)
  clockReads : nat                 (* readings of the clock so far *)
}.

(** The state a render closes its handlers over. *)
Record Closure : Type := {
  c_isOpen : bool;
  c_inputMessage : jsstring;
  c_isLoading : bool
}.

Definition render (w : World) : Closure :=
  {| c_isOpen := isOpen w; c_inputMessage := inputMessage w;
     c_isLoading := isLoading w |}.

(** State setters and environment calls. *)
Definition setIsOpen (b : bool) : M World unit :=
  modify (fun w =>
    {| isOpen := b; messages := messages w;
       inputMessage := inputMessage w; isLoading := isLoading w;
       inflight := inflight w; fetchLog := fetchLog w;
       hostLog := hostLog w; consoleLog := consoleLog w;
       clockReads := clockReads w |}).

Definition setMessages (f : list ChatMessage -> list ChatMessage)
  : M World unit :=
  modify (fun w =>
    {| isOpen := isOpen w; messages := f (messages w);
       inputMessage := inputMessage w; isLoading := isLoading w;
       inflight := inflight w; fetchLog := fetchLog w;
       hostLog := hostLog w; consoleLog := consoleLog w;
       clockReads := clockReads w |}).

Definition setInputMessage (s : jsstring) : M World unit :=
  modify (fun w =>
    {| isOpen := isOpen w; messages := messages w;
       inputMessage := s; isLoading := isLoading w;
       inflight := inflight w; fetchLog := fetchLog w;
       hostLog := hostLog w; consoleLog := consoleLog w;
       clockReads := clockReads w |}).

Definition setIsLoading (b : bool) : M World unit :=
  modify (fun w =>
    {| isOpen := isOpen w; messages := messages w;
       inputMessage := inputMessage w; isLoading := b;
       inflight := inflight w; fetchLog := fetchLog w;
       hostLog := hostLog w; consoleLog := consoleLog w;
       clockReads := clockReads w |}).

Definition setInflight (l : list Activation) (w : World) : World :=
  {| isOpen := isOpen w; messages := messages w;
     inputMessage := inputMessage w; isLoading := isLoading w;
     inflight := l; fetchLog := fetchLog w;
     hostLog := hostLog w; consoleLog := consoleLog w;
     clockReads := clockReads w |}.

Definition fetch (r : Request) : M World unit :=
  modify (fun w =>
    {| isOpen := isOpen w; messages := messages w;
       inputMessage := inputMessage w; isLoading := isLoading w;
       inflight := inflight w; fetchLog := fetchLog w ++ [r];
       hostLog := hostLog w; consoleLog := consoleLog w;
       clockReads := clockReads w |}).

Definition console_error (e : Thrown) : M World unit :=
  modify (fun w =>
    {| isOpen := isOpen w; messages := messages w;
       inputMessage := inputMessage w; isLoading := isLoading w;
       inflight := inflight w; fetchLog := fetchLog w;
       hostLog := hostLog w; consoleLog := consoleLog w ++ [e];
       clockReads := clockReads w |}).

(** Calling the host's [onSaveMessage]: the call is recorded, and the
    host decides whether it returns or throws. *)
Definition call_onSaveMessage
    (cb : MessageData -> CallbackOutcome) (d : MessageData)
  : M World unit :=
  fun w =>
    let w' :=
      {| isOpen := isOpen w; messages := messages w;
         inputMessage := inputMessage w; isLoading := isLoading w;
         inflight := inflight w; fetchLog := fetchLog w;
         hostLog := hostLog w ++ [CallOnSaveMessage d];
         consoleLog := consoleLog w; clockReads := clockReads w |} in
    match cb d with
    | Returns => (Normal tt, w')
    | Throws e => (Throw e, w')
    end.

Section Component.

Variable props : ChatbotProps.

(** The clock of the page: its n-th reading. *)
Variable clock : nat -> Z.

(** The destructured props with their defaults. *)
Definition p_initialMessages : list ChatMessage :=
  match initialMessages props with Some l => l | None => [] end.
Definition p_botAvatar : jsstring :=
  match botAvatar props with
  | Some s => s
  | None => [55358; 56598]%N   (* U+1F916 *)
  end.
Definition p_userAvatar : jsstring :=
  match userAvatar props with
  | Some s => s
  | None => [55357; 56420]%N   (* U+1F464 *)
  end.
Definition p_apiEndpoint : jsstring :=
  match apiEndpoint props with
  | Some s => s
  | None => lit "https://chatbotly/api/v1/messages"
  end.

(** [Date.now()] and [new Date()] both read the clock. *)
Definition Date_now : M World Z :=
  fun w =>
    (Normal (clock (clockReads w)),
     {| isOpen := isOpen w; messages := messages w;
        inputMessage := inputMessage w; isLoading := isLoading w;
        inflight := inflight w; fetchLog := fetchLog w;
        hostLog := hostLog w; consoleLog := consoleLog w;
        clockReads := S (clockReads w) |}).

Definition new_Date : M World Date := Date_now.

(** The world after mounting. *)
Definition mount : World :=
  {| isOpen := false; messages := p_initialMessages;
     inputMessage := []; isLoading := false;
     inflight := []; fetchLog := []; hostLog := []; consoleLog := [];
     clockReads := 0 |}.

(** try block, up to [await fetch(...)] *)
Definition try_fetch (c : Closure) : M World Progress :=
  sent <- new_Date ;;
  fetch {| url := p_apiEndpoint ++ lit "?Botid=" ++ chatbotId props;
           method := lit "POST";
           authorization := lit "Bearer " ++ apiKey props;
           contentType := lit "application/json";
           body := {| body_message := trim (c_inputMessage c);
                      body_userId := id (user props);
                      body_timestamp := sent |} |} ;;
  ret (Awaiting AwaitFetch).

(** try block, from the settlement of [fetch] to [await res.json()] *)
Definition try_json (r : Settled Response) : M World Progress :=
  match r with
  | Rejected e => throw e
  | Fulfilled res =>
      if negb (ok res) then throw (ApiError (status res) (statusText res))
      else ret (Awaiting AwaitJson)
  end.

(** try block, from the settlement of [res.json()] to its end *)
Definition try_reply (c_input : jsstring) (r : Settled value)
  : M World Progress :=
  match r with
  | Rejected e => throw e
  | Fulfilled data =>
      match answer_of data with
      | Rejected e => throw e
      | Fulfilled a =>
          let botResponse := or_else a (VString fallback_text) in
          now <- Date_now ;;
          stamp <- new_Date ;;
          let botMessage :=
            {| msg_id := toString (now + 1); msg_type := bot_type;
               message := botResponse; timestamp := stamp;
               msg_avatar := p_botAvatar |} in
          setMessages (fun prev => prev ++ [botMessage]) ;;
          match onSaveMessage props with
          | Some cb =>
              call_onSaveMessage cb
                {| question := trim c_input; answer := botResponse;
                   userId := id (user props) |}
          | None => ret tt
          end ;;
          ret Finished
      end
  end.

Definition catch_block (error : Thrown) : M World unit :=
  console_error error ;;
  now <- Date_now ;;
  stamp <- new_Date ;;
  let errorMessage :=
    {| msg_id := toString (now + 1); msg_type := bot_type;
       message := VString apology_text; timestamp := stamp;
       msg_avatar := p_botAvatar |} in
  setMessages (fun prev => prev ++ [errorMessage]).

Definition finally_block : M World unit := setIsLoading false.

(** [handleSendMessage], from its call to its first suspension *)
Definition handleSendMessage (c : Closure) : M World Progress :=
  if negb (truthy (VString (trim (c_inputMessage c)))) || c_isLoading c
  then ret Finished
  else
    now <- Date_now ;;
    stamp <- new_Date ;;
    let userMessage :=
      {| msg_id := toString now; msg_type := user_type;
         message := VString (trim (c_inputMessage c));
         timestamp := stamp;
         msg_avatar := opt_or (avatar (user props)) p_userAvatar |} in
    setMessages (fun prev => prev ++ [userMessage]) ;;
    setInputMessage [] ;;
    setIsLoading true ;;
    try_catch_finally (try_fetch c) catch_block finally_block.

(** [handleSendMessage], resumed by a settlement *)
Definition resume (segment : M World Progress) : M World Progress :=
  try_catch_finally segment catch_block finally_block.

Definition handleKeyPress (c : Closure) (e : KeyboardEvent)
  : M World (KeyboardEvent * Progress) :=
  if jsstring_eqb (key e) (lit "Enter") && negb (shiftKey e)
  then
    let e' := preventDefault e in
    p <- handleSendMessage c ;;
    ret (e', p)
  else ret (e, Finished).

Definition toggleChat (c : Closure) : M World unit :=
  setIsOpen (negb (c_isOpen c)).

(** The activations after a segment of the [i]-th has run. *)
Definition settle (i : nat) (a : Activation) (r : Completion Progress)
    (l : list Activation) : list Activation :=
  match r with
  | Normal (Awaiting st) =>
      firstn i l
        ++ {| act_inputMessage := act_inputMessage a; act_stage := st |}
        :: skipn (S i) l
  | _ => firstn i l ++ skipn (S i) l
  end.

(** The activations after [handleSendMessage] was called. *)
Definition spawn (c : Closure) (r : Completion Progress)
    (l : list Activation) : list Activation :=
  match r with
  | Normal (Awaiting st) =>
      l ++ [{| act_inputMessage := c_inputMessage c; act_stage := st |}]
  | _ => l
  end.

(** One event, handled by handlers that closed over the render [c].  A
    state setter only schedules its update: the handlers of a render keep
    reading the state of that render until React commits the next one,
    so [c] need not be [render w].  A resumed activation keeps the
    closure of the render it was called in (its [act_inputMessage]).  A
    settlement addresses the suspended activation by its place in
    [inflight]; one that finds no activation in the matching stage is not
    an event of this instance and changes nothing. *)
Definition dispatch (c : Closure) (w : World) (ev : Event) : World :=
  match ev with
  | ToggleClick => snd (toggleChat c w)
  | InputChange v => snd (setInputMessage v w)
  | SendClick =>
      let '(r, w1) := handleSendMessage c w in
      setInflight (spawn c r (inflight w1)) w1
  | KeyPress e =>
      match handleKeyPress c e w with
      | (Normal (_, p), w1) =>
          setInflight (spawn c (Normal p) (inflight w1)) w1
      | (Throw _, w1) => w1
      end
  | FetchSettles i r =>
      match nth_error (inflight w) i with
      | Some {| act_inputMessage := s; act_stage := AwaitFetch |} =>
          let a := {| act_inputMessage := s; act_stage := AwaitFetch |} in
          let '(p, w1) := resume (try_json r) w in
          setInflight (settle i a p (inflight w1)) w1
      | _ => w
      end
  | JsonSettles i r =>
      match nth_error (inflight w) i with
      | Some {| act_inputMessage := s; act_stage := AwaitJson |} =>
          let a := {| act_inputMessage := s; act_stage := AwaitJson |} in
          let '(p, w1) := resume (try_reply s r) w in
          setInflight (settle i a p (inflight w1)) w1
      | _ => w
      end
  end.

(** One event dispatched after React has committed every earlier update:
    the handlers are those of the latest render. *)
Definition step (w : World) (ev : Event) : World := dispatch (render w) w ev.

Definition run (w : World) (evs : list Event) : World :=
  fold_left step evs w.

(** The page between two commits: the state cells with the scheduled
    updates applied, and the render whose handlers are installed. *)
Record Page : Type := {
  world : World;
  committed : Closure
}.

Definition page_step (p : Page) (a : Action) : Page :=
  match a with
  | Dispatch ev =>
      {| world := dispatch (committed p) (world p) ev;
         committed := committed p |}
  | Commit => {| world := world p; committed := render (world p) |}
  end.

Definition page_run (p : Page) (actions : list Action) : Page :=
  fold_left page_step actions p.

Definition mount_page : Page :=
  {| world := mount; committed := render mount |}.

(** The records the handlers build, by the input and the number of clock
    readings before the handler ran; the statements below name them. *)

(** The message [handleSendMessage] echoes for the input [s] when the
    clock has been read [n] times. *)
Definition userMessage_at (s : jsstring) (n : nat) : ChatMessage :=
  {| msg_id := toString (clock n); msg_type := user_type;
     message := VString (trim s); timestamp := clock (S n);
     msg_avatar := opt_or (avatar (user props)) p_userAvatar |}.

(** The bot message built when the clock has been read [n] times. *)
Definition botMessage_at (text : value) (n : nat) : ChatMessage :=
  {| msg_id := toString (clock n + 1); msg_type := bot_type;
     message := text; timestamp := clock (S n);
     msg_avatar := p_botAvatar |}.

(** The request sent for the input [s]. *)
Definition request_at (s : jsstring) (n : nat) : Request :=
  {| url := p_apiEndpoint ++ lit "?Botid=" ++ chatbotId props;
     method := lit "POST";
     authorization := lit "Bearer " ++ apiKey props;
     contentType := lit "application/json";
     body := {| body_message := trim s;
                body_userId := id (user props);
                body_timestamp := clock n |} |}.

(** What a UI event leaves alone while a request is pending: everything
    but the open flag and the input text. *)
Definition same_exchange (w w' : World) : Prop :=
  messages w' = messages w /\ isLoading w' = isLoading w /\
  inflight w' = inflight w /\ fetchLog w' = fetchLog w /\
  hostLog w' = hostLog w /\ consoleLog w' = consoleLog w /\
  clockReads w' = clockReads w.

(** The pending flag is set exactly while one activation is suspended. *)
Definition locked (w : World) : Prop :=
  (isLoading w = false /\ inflight w = []) \/
  (isLoading w = true /\ exists a, inflight w = [a]).

(** The host's callback, when there is one, returns normally. *)
Definition callback_never_throws : Prop :=
  forall cb d, onSaveMessage props = Some cb -> cb d = Returns.

(** The four kinds of step of an instance whose flag and activations
    agree ([locked]): a step that touches neither the exchange nor its
    records, an accepted submit, an [ok] response, and the settlement
    that ends the exchange with a bot message [text] (and, after it, the
    apology when the host's callback threw). *)
Inductive transition (w w' : World) : Prop :=
| t_quiet :
    messages w' = messages w -> inflight w' = inflight w ->
    isLoading w' = isLoading w -> fetchLog w' = fetchLog w ->
    hostLog w' = hostLog w -> consoleLog w' = consoleLog w ->
    clockReads w' = clockReads w ->
    transition w w'
| t_submit :
    isLoading w = false -> inflight w = [] ->
    trim (inputMessage w) <> [] ->
    w' = {| isOpen := isOpen w;
            messages :=
              messages w ++ [userMessage_at (inputMessage w) (clockReads w)];
            inputMessage := [];
            isLoading := true;
            inflight := [{| act_inputMessage := inputMessage w;
                            act_stage := AwaitFetch |}];
            fetchLog :=
              fetchLog w
                ++ [request_at (inputMessage w) (S (S (clockReads w)))];
            hostLog := hostLog w;
            consoleLog := consoleLog w;
            clockReads := S (S (S (clockReads w))) |} ->
    transition w w'
| t_response (s : jsstring) :
    inflight w = [{| act_inputMessage := s; act_stage := AwaitFetch |}] ->
    w' = setInflight
           [{| act_inputMessage := s; act_stage := AwaitJson |}] w ->
    transition w w'
| t_end (s : jsstring) (st : Stage) (text : value) (rest : list ChatMessage) :
    inflight w = [{| act_inputMessage := s; act_stage := st |}] ->
    isLoading w = true ->
    truthy text = true ->
    rest = [] \/
    rest = [botMessage_at (VString apology_text) (S (S (clockReads w)))] ->
    messages w' = messages w ++ botMessage_at text (clockReads w) :: rest ->
    clockReads w' = (2 + 2 * List.length rest + clockReads w)%nat ->
    isLoading w' = false -> inflight w' = [] ->
    fetchLog w' = fetchLog w ->
    transition w w'.

Definition is_user (m : ChatMessage) : bool :=
  match msg_type m with
  | user_type => true
  | bot_type => false
  end.

End Component.

End Internal.

(** ** The paired-entry variant, with host-owned conversation state *)

Module Paired.

Record User : Type := {
  id : jsstring;
  name : jsstring;
  image : option jsstring
}.

(** [ConversationEntry].  As for [ChatMessage], [bot] holds at run time
    whatever [data.answer || "..."] gave. *)
Record ConversationEntry : Type := {
  entry_user : jsstring;
  entry_bot : value;
  entry_time : Date
}.

Inductive Position : Type :=
| bottom_right | bottom_left | top_right | top_left.

(** [ChatbotProps] without [conversation] and [setConversation]: the
    host's state cell and its dispatcher are the [conversation] field
    of the world and [setConversation] below. *)
Record ChatbotProps : Type := {
  user : User;
  chatbotId : jsstring;
  apiKey : jsstring;
  position : option Position;
  primaryColor : option jsstring;
  secondaryColor : option jsstring;
  welcomeMessage : option jsstring;
  apiEndpoint : option jsstring
}.

Record Activation : Type := {
  act_userMessage : jsstring;   (* the constant [userMessage] *)
  act_stage : Stage
}.

Record World : Type := {
  isOpen : bool;
  conversation : list ConversationEntry;   (* owned by the host *)
  inputMessage : jsstring;
  isLoading : bool;
  inflight : list Activation;
  fetchLog : list Request;
  hostLog : list (HostCall ConversationEntry);
  consoleLog : list Thrown;
  clockReads : nat
}.

Record Closure : Type := {
  c_isOpen : bool;
  c_inputMessage : jsstring;
  c_isLoading : bool
}.

Definition render (w : World) : Closure :=
  {| c_isOpen := isOpen w; c_inputMessage := inputMessage w;
     c_isLoading := isLoading w |}.

Definition setIsOpen (b : bool) : M World unit :=
  modify (fun w =>
    {| isOpen := b; conversation := conversation w;
       inputMessage := inputMessage w; isLoading := isLoading w;
       inflight := inflight w; fetchLog := fetchLog w;
       hostLog := hostLog w; consoleLog := consoleLog w;
       clockReads := clockReads w |}).

(** The host's dispatcher, a [React.Dispatch<SetStateAction<...>>]
    called with an updater function: the call is recorded and the
    updater is applied to the host's state. *)
Definition setConversation
    (action : list ConversationEntry -> list ConversationEntry)
  : M World unit :=
  modify (fun w =>
    {| isOpen := isOpen w; conversation := action (conversation w);
       inputMessage := inputMessage w; isLoading := isLoading w;
       inflight := inflight w; fetchLog := fetchLog w;
       hostLog := hostLog w ++ [CallSetConversation action];
       consoleLog := consoleLog w; clockReads := clockReads w |}).

Definition setInputMessage (s : jsstring) : M World unit :=
  modify (fun w =>
    {| isOpen := isOpen w; conversation := conversation w;
       inputMessage := s; isLoading := isLoading w;
       inflight := inflight w; fetchLog := fetchLog w;
       hostLog := hostLog w; consoleLog := consoleLog w;
       clockReads := clockReads w |}).

Definition setIsLoading (b : bool) : M World unit :=
  modify (fun w =>
    {| isOpen := isOpen w; conversation := conversation w;
       inputMessage := inputMessage w; isLoading := b;
       inflight := inflight w; fetchLog := fetchLog w;
       hostLog := hostLog w; consoleLog := consoleLog w;
       clockReads := clockReads w |}).

Definition setInflight (l : list Activation) (w : World) : World :=
  {| isOpen := isOpen w; conversation := conversation w;
     inputMessage := inputMessage w; isLoading := isLoading w;
     inflight := l; fetchLog := fetchLog w;
     hostLog := hostLog w; consoleLog := consoleLog w;
     clockReads := clockReads w |}.

Definition fetch (r : Request) : M World unit :=
  modify (fun w =>
    {| isOpen := isOpen w; conversation := conversation w;
       inputMessage := inputMessage w; isLoading := isLoading w;
       inflight := inflight w; fetchLog := fetchLog w ++ [r];
       hostLog := hostLog w; consoleLog := consoleLog w;
       clockReads := clockReads w |}).

Definition console_error (e : Thrown) : M World unit :=
  modify (fun w =>
    {| isOpen := isOpen w; conversation := conversation w;
       inputMessage := inputMessage w; isLoading := isLoading w;
       inflight := inflight w; fetchLog := fetchLog w;
       hostLog := hostLog w; consoleLog := consoleLog w ++ [e];
       clockReads := clockReads w |}).

Section Component.

Variable props : ChatbotProps.
Variable clock : nat -> Z.

(** The host initialises the conversation before mounting. *)
Variable conversation0 : list ConversationEntry.

Definition p_apiEndpoint : jsstring :=
  match apiEndpoint props with
  | Some s => s
  | None => lit "https://chatbotly/api/v1/messages"
  end.

Definition Date_now : M World Z :=
  fun w =>
    (Normal (clock (clockReads w)),
     {| isOpen := isOpen w; conversation := conversation w;
        inputMessage := inputMessage w; isLoading := isLoading w;
        inflight := inflight w; fetchLog := fetchLog w;
        hostLog := hostLog w; consoleLog := consoleLog w;
        clockReads := S (clockReads w) |}).

Definition new_Date : M World Date := Date_now.

Definition mount : World :=
  {| isOpen := false; conversation := conversation0;
     inputMessage := []; isLoading := false;
     inflight := []; fetchLog := []; hostLog := []; consoleLog := [];
     clockReads := 0 |}.

(** try block, up to [await fetch(...)] *)
Definition try_fetch (userMessage : jsstring) : M World Progress :=
  sent <- new_Date ;;
  fetch {| url := p_apiEndpoint ++ lit "?Botid=" ++ chatbotId props;
           method := lit "POST";
           authorization := lit "Bearer " ++ apiKey props;
           contentType := lit "application/json";
           body := {| body_message := userMessage;
                      body_userId := id (user props);
                      body_timestamp := sent |} |} ;;
  ret (Awaiting AwaitFetch).

(** try block, from the settlement of [fetch] to [await res.json()] *)
Definition try_json (r : Settled Response) : M World Progress :=
  match r with
  | Rejected e => throw e
  | Fulfilled res =>
      if negb (ok res) then throw (ApiError (status res) (statusText res))
      else ret (Awaiting AwaitJson)
  end.

(** try block, from the settlement of [res.json()] to its end *)
Definition try_reply (userMessage : jsstring) (r : Settled value)
  : M World Progress :=
  match r with
  | Rejected e => throw e
  | Fulfilled data =>
      match answer_of data with
      | Rejected e => throw e
      | Fulfilled a =>
          let botResponse := or_else a (VString fallback_text) in
          stamp <- new_Date ;;
          let newEntry :=
            {| entry_user := userMessage; entry_bot := botResponse;
               entry_time := stamp |} in
          setConversation (fun prev => prev ++ [newEntry]) ;;
          ret Finished
      end
  end.

Definition catch_block (userMessage : jsstring) (error : Thrown)
  : M World unit :=
  console_error error ;;
  stamp <- new_Date ;;
  let errorEntry :=
    {| entry_user := userMessage; entry_bot := VString apology_text;
       entry_time := stamp |} in
  setConversation (fun prev => prev ++ [errorEntry]).

Definition finally_block : M World unit := setIsLoading false.

(** [handleSendMessage], from its call to its first suspension; the
    second component is the constant [userMessage] it has bound. *)
Definition handleSendMessage (c : Closure)
  : M World (Progress * jsstring) :=
  if negb (truthy (VString (trim (c_inputMessage c)))) || c_isLoading c
  then ret (Finished, [])
  else
    let userMessage := trim (c_inputMessage c) in
    setInputMessage [] ;;
    setIsLoading true ;;
    p <- try_catch_finally (try_fetch userMessage)
           (catch_block userMessage) finally_block ;;
    ret (p, userMessage).

Definition resume (userMessage : jsstring) (segment : M World Progress)
  : M World Progress :=
  try_catch_finally segment (catch_block userMessage) finally_block.

Definition handleKeyPress (c : Closure) (e : KeyboardEvent)
  : M World (KeyboardEvent * (Progress * jsstring)) :=
  if jsstring_eqb (key e) (lit "Enter") && negb (shiftKey e)
  then
    let e' := preventDefault e in
    p <- handleSendMessage c ;;
    ret (e', p)
  else ret (e, (Finished, [])).

Definition toggleChat (c : Closure) : M World unit :=
  setIsOpen (negb (c_isOpen c)).

Definition settle (i : nat) (a : Activation) (r : Completion Progress)
    (l : list Activation) : list Activation :=
  match r with
  | Normal (Awaiting st) =>
      firstn i l
        ++ {| act_userMessage := act_userMessage a; act_stage := st |}
        :: skipn (S i) l
  | _ => firstn i l ++ skipn (S i) l
  end.

Definition spawn (r : Completion (Progress * jsstring))
    (l : list Activation) : list Activation :=
  match r with
  | Normal (Awaiting st, userMessage) =>
      l ++ [{| act_userMessage := userMessage; act_stage := st |}]
  | _ => l
  end.

(** One event, handled by handlers that closed over the render [c], as
    in the internal-state variant. *)
Definition dispatch (c : Closure) (w : World) (ev : Event) : World :=
  match ev with
  | ToggleClick => snd (toggleChat c w)
  | InputChange v => snd (setInputMessage v w)
  | SendClick =>
      let '(r, w1) := handleSendMessage c w in
      setInflight (spawn r (inflight w1)) w1
  | KeyPress e =>
      match handleKeyPress c e w with
      | (Normal (_, p), w1) =>
          setInflight (spawn (Normal p) (inflight w1)) w1
      | (Throw _, w1) => w1
      end
  | FetchSettles i r =>
      match nth_error (inflight w) i with
      | Some {| act_userMessage := s; act_stage := AwaitFetch |} =>
          let a := {| act_userMessage := s; act_stage := AwaitFetch |} in
          let '(p, w1) := resume s (try_json r) w in
          setInflight (settle i a p (inflight w1)) w1
      | _ => w
      end
  | JsonSettles i r =>
      match nth_error (inflight w) i with
      | Some {| act_userMessage := s; act_stage := AwaitJson |} =>
          let a := {| act_userMessage := s; act_stage := AwaitJson |} in
          let '(p, w1) := resume s (try_reply s r) w in
          setInflight (settle i a p (inflight w1)) w1
      | _ => w
      end
  end.

(** One event dispatched after React has committed every earlier update. *)
Definition step (w : World) (ev : Event) : World := dispatch (render w) w ev.

Definition run (w : World) (evs : list Event) : World :=
  fold_left step evs w.

(** The page between two commits: the state cells with the scheduled
    updates applied, and the render whose handlers are installed. *)
Record Page : Type := {
  world : World;
  committed : Closure
}.

Definition page_step (p : Page) (a : Action) : Page :=
  match a with
  | Dispatch ev =>
      {| world := dispatch (committed p) (world p) ev;
         committed := committed p |}
  | Commit => {| world := world p; committed := render (world p) |}
  end.

Definition page_run (p : Page) (actions : list Action) : Page :=
  fold_left page_step actions p.

Definition mount_page : Page :=
  {| world := mount; committed := render mount |}.

(** The records the handlers build, by the bound [userMessage] and the
    number of clock readings before the handler ran. *)

(** The entry appended for [userMessage] with the bot text [text]. *)
Definition entry_at (userMessage : jsstring) (text : value) (n : nat)
  : ConversationEntry :=
  {| entry_user := userMessage; entry_bot := text; entry_time := clock n |}.

(** The request sent for the input [s]. *)
Definition request_at (s : jsstring) (n : nat) : Request :=
  {| url := p_apiEndpoint ++ lit "?Botid=" ++ chatbotId props;
     method := lit "POST";
     authorization := lit "Bearer " ++ apiKey props;
     contentType := lit "application/json";
     body := {| body_message := trim s;
                body_userId := id (user props);
                body_timestamp := clock n |} |}.

(** What a UI event leaves alone while a request is pending. *)
Definition same_exchange (w w' : World) : Prop :=
  conversation w' = conversation w /\ isLoading w' = isLoading w /\
  inflight w' = inflight w /\ fetchLog w' = fetchLog w /\
  hostLog w' = hostLog w /\ consoleLog w' = consoleLog w /\
  clockReads w' = clockReads w.

(** The pending flag is set exactly while one activation is suspended. *)
Definition locked (w : World) : Prop :=
  (isLoading w = false /\ inflight w = []) \/
  (isLoading w = true /\ exists a, inflight w = [a]).

(** The events before the exchange is over: UI events, and a settlement
    of [fetch] with an [ok] response. *)
Definition before_settle (e : Event) : bool :=
  match e with
  | FetchSettles _ (Fulfilled res) => ok res
  | FetchSettles _ (Rejected _) | JsonSettles _ _ => false
  | _ => true
  end.

(** The four kinds of step of a [locked] instance, as in the
    internal-state variant; the settlement that ends the exchange appends
    the one paired entry. *)
Inductive transition (w w' : World) : Prop :=
| t_quiet :
    conversation w' = conversation w -> inflight w' = inflight w ->
    isLoading w' = isLoading w -> fetchLog w' = fetchLog w ->
    hostLog w' = hostLog w -> consoleLog w' = consoleLog w ->
    clockReads w' = clockReads w ->
    transition w w'
| t_submit :
    isLoading w = false -> inflight w = [] ->
    trim (inputMessage w) <> [] ->
    w' = {| isOpen := isOpen w;
            conversation := conversation w;
            inputMessage := [];
            isLoading := true;
            inflight := [{| act_userMessage := trim (inputMessage w);
                            act_stage := AwaitFetch |}];
            fetchLog :=
              fetchLog w ++ [request_at (inputMessage w) (clockReads w)];
            hostLog := hostLog w;
            consoleLog := consoleLog w;
            clockReads := S (clockReads w) |} ->
    transition w w'
| t_response (s : jsstring) :
    inflight w = [{| act_userMessage := s; act_stage := AwaitFetch |}] ->
    w' = setInflight [{| act_userMessage := s; act_stage := AwaitJson |}] w ->
    transition w w'
| t_end (s : jsstring) (st : Stage) (text : value) :
    inflight w = [{| act_userMessage := s; act_stage := st |}] ->
    isLoading w = true ->
    truthy text = true ->
    conversation w' = conversation w ++ [entry_at s text (clockReads w)] ->
    clockReads w' = S (clockReads w) ->
    isLoading w' = false -> inflight w' = [] ->
    fetchLog w' = fetchLog w ->
    transition w w'.

End Component.

End Paired.

(** ** What the component renders

    The tree each variant returns, reduced to what depends on its state:
    which elements are present, the texts they show, the attributes that
    enable or disable a control.  Class names, styles and icons' paths
    are left out.  [toLocaleTimeString] and [toLocaleDateString] depend
    on the locale of the page and are parameters. *)

Inductive Icon : Type :=
| CloseIcon   (* isOpen *)
| ChatIcon.

Module InternalView.
Import Internal.

(** One [div.message] of [messages.map]. *)
Record MessageView : Type := {
  mv_key : jsstring;             (* key={message.id} *)
  mv_className : MessageType;    (* `message ${message.type}` *)
  mv_avatar : jsstring;
  mv_text : value;
  mv_time : jsstring
}.

(** [div.chatbot-modal] *)
Record ModalView : Type := {
  header_avatar : jsstring;
  header_title : jsstring;
  welcome : option (jsstring * jsstring);   (* user.name, welcomeMessage *)
  message_views : list MessageView;
  typing_indicator : option jsstring;       (* the bot avatar beside it *)
  input_value : jsstring;
  input_disabled : bool;
  send_disabled : bool
}.

Record View : Type := {
  toggle_icon : Icon;
  badge : option nat;
  modal : option ModalView
}.

Section Render.

Variable props : ChatbotProps.
Variable toLocaleTimeString : Date -> jsstring.

Definition p_title : jsstring :=
  match title props with
  | Some s => s
  | None => lit "AI Assistant"
  end.

Definition p_welcomeMessage : jsstring :=
  match welcomeMessage props with
  | Some s => s
  | None => lit "How can I help you today?"
  end.

Definition formatTime (date : Date) : jsstring := toLocaleTimeString date.

Definition message_view (m : ChatMessage) : MessageView :=
  {| mv_key := msg_id m; mv_className := msg_type m;
     mv_avatar := msg_avatar m; mv_text := message m;
     mv_time := formatTime (timestamp m) |}.

(** The element tree the component function returns. *)
Definition tree (w : World) : View :=
  {| toggle_icon := if isOpen w then CloseIcon else ChatIcon;
     badge :=
       if negb (isOpen w) && (0 <? List.length (messages w))%nat
       then Some (List.length (messages w)) else None;
     modal :=
       if isOpen w then
         Some {| header_avatar := p_botAvatar props;
                 header_title := p_title;
                 welcome :=
                   if (List.length (messages w) =? 0)%nat
                   then Some (name (user props), p_welcomeMessage)
                   else None;
                 message_views := map message_view (messages w);
                 typing_indicator :=
                   if isLoading w then Some (p_botAvatar props) else None;
                 input_value := inputMessage w;
                 input_disabled := isLoading w;
                 send_disabled :=
                   negb (truthy (VString (trim (inputMessage w))))
                   || isLoading w |}
       else None |}.

(** React mounts the tree only if the text of every bubble in it,
    [{message.message}], is a valid child. *)
Definition accepted (v : View) : bool :=
  match modal v with
  | Some m => forallb (fun b => valid_child (mv_text b)) (message_views m)
  | None => true
  end.

(** What rendering gives: the tree on screen, or what React throws. *)
Definition jsx (w : World) : Completion View :=
  let v := tree w in
  if accepted v then Normal v else Throw invalid_child.

End Render.

End InternalView.

Module PairedView.
Import Paired.

(** One fragment of [conversation.map]: the user's bubble, the bot's
    bubble, and the date separator when there is one. *)
Record EntryView : Type := {
  ev_key : nat;                  (* key={index} *)
  ev_user_text : jsstring;
  ev_user_time : jsstring;
  ev_bot_text : value;
  ev_bot_time : jsstring;
  ev_separator : option jsstring
}.

Record ModalView : Type := {
  welcome : option (jsstring * jsstring);   (* user.name, welcomeMessage *)
  entry_views : list EntryView;
  typing_indicator : bool;
  input_value : jsstring;
  input_disabled : bool;
  send_disabled : bool
}.

Record View : Type := {
  toggle_icon : Icon;
  badge : option nat;
  modal : option ModalView
}.

Section Render.

Variable props : ChatbotProps.
Variable toLocaleTimeString : Date -> jsstring.
Variable toLocaleDateString : Date -> jsstring.

Definition p_welcomeMessage : jsstring :=
  match welcomeMessage props with
  | Some s => s
  | None => lit "How can I help you today?"
  end.

Definition formatTime (date : Date) : jsstring := toLocaleTimeString date.

Definition formatDate (date : Date) : jsstring := toLocaleDateString date.

(** [index === 0 || formatDate(entry.time) !==
    formatDate(conversation[index - 1].time)]: reading [.time] off a
    missing element throws. *)
Definition new_day (conversation : list ConversationEntry)
    (entry : ConversationEntry) (index : nat) : Completion bool :=
  if (index =? 0)%nat then Normal true
  else
    match nth_error conversation (index - 1) with
    | Some previous =>
        Normal (negb (jsstring_eqb (formatDate (entry_time entry))
                        (formatDate (entry_time previous))))
    | None => Throw TypeError
    end.

(** The callback of [conversation.map]. *)
Definition entry_view (conversation : list ConversationEntry)
    (entry : ConversationEntry) (index : nat) : Completion EntryView :=
  match new_day conversation entry index with
  | Normal show =>
      Normal {| ev_key := index;
                ev_user_text := entry_user entry;
                ev_user_time := formatTime (entry_time entry);
                ev_bot_text := entry_bot entry;
                ev_bot_time := formatTime (entry_time entry + 1000)%Z;
                ev_separator :=
                  if show then Some (formatDate (entry_time entry))
                  else None |}
  | Throw e => Throw e
  end.

(** [conversation.map((entry, index) => ...)], from [index] on. *)
Fixpoint map_entries (conversation rest : list ConversationEntry)
    (index : nat) : Completion (list EntryView) :=
  match rest with
  | [] => Normal []
  | entry :: rest' =>
      match entry_view conversation entry index with
      | Normal v =>
          match map_entries conversation rest' (S index) with
          | Normal vs => Normal (v :: vs)
          | Throw e => Throw e
          end
      | Throw e => Throw e
      end
  end.

(** The element tree the component function returns, or what the
    callback of [conversation.map] throws. *)
Definition tree (w : World) : Completion View :=
  let toggle := if isOpen w then CloseIcon else ChatIcon in
  let count :=
    if negb (isOpen w) && (0 <? List.length (conversation w))%nat
    then Some (List.length (conversation w)) else None in
  if isOpen w then
    match map_entries (conversation w) (conversation w) 0 with
    | Normal views =>
        Normal
          {| toggle_icon := toggle; badge := count;
             modal :=
               Some {| welcome :=
                         if (List.length (conversation w) =? 0)%nat
                         then Some (name (user props), p_welcomeMessage)
                         else None;
                       entry_views := views;
                       typing_indicator := isLoading w;
                       input_value := inputMessage w;
                       input_disabled := isLoading w;
                       send_disabled :=
                         negb (truthy (VString (trim (inputMessage w))))
                         || isLoading w |} |}
    | Throw e => Throw e
    end
  else Normal {| toggle_icon := toggle; badge := count; modal := None |}.

(** React mounts the tree only if the bot text of every fragment in it,
    [{entry.bot}], is a valid child; [{entry.user}] is a string. *)
Definition accepted (v : View) : bool :=
  match modal v with
  | Some m => forallb (fun f => valid_child (ev_bot_text f)) (entry_views m)
  | None => true
  end.

(** What rendering gives: the tree on screen, or what was thrown. *)
Definition jsx (w : World) : Completion View :=
  match tree w with
  | Normal v => if accepted v then Normal v else Throw invalid_child
  | Throw e => Throw e
  end.

End Render.

End PairedView.

(** ** A concrete page, for the examples *)

Module Demo.

Definition clock (n : nat) : Z := 1700000000000 + Z.of_nat n.

Definition user : Internal.User :=
  {| Internal.id := lit "u1"; Internal.name := lit "Jane Doe";
     Internal.email := None; Internal.avatar := None |}.

Definition props (cb : option (MessageData -> Internal.CallbackOutcome))
  : Internal.ChatbotProps :=
  {| Internal.user := user; Internal.chatbotId := lit "chatbot_123";
     Internal.apiKey := lit "YOUR_API_KEY"; Internal.position := None;
     Internal.onSaveMessage := cb; Internal.initialMessages := None;
     Internal.primaryColor := None; Internal.secondaryColor := None;
     Internal.botAvatar := None; Internal.userAvatar := None;
     Internal.title := None; Internal.welcomeMessage := None;
     Internal.apiEndpoint := None |}.

Definition logs : MessageData -> Internal.CallbackOutcome :=
  fun _ => Internal.Returns.

Definition fails : MessageData -> Internal.CallbackOutcome :=
  fun _ => Internal.Throws (Reason (lit "save failed")).

Definition paired_props : Paired.ChatbotProps :=
  {| Paired.user :=
       {| Paired.id := lit "u1"; Paired.name := lit "Jane Doe";
          Paired.image := None |};
     Paired.chatbotId := lit "chatbot_123";
     Paired.apiKey := lit "YOUR_API_KEY"; Paired.position := None;
     Paired.primaryColor := None; Paired.secondaryColor := None;
     Paired.welcomeMessage := None; Paired.apiEndpoint := None |}.

Definition ok_response : Response :=
  {| ok := true; status := 200; statusText := lit "OK" |}.

Definition server_error : Response :=
  {| ok := false; status := 500; statusText := lit "Internal Server Error" |}.

Definition enter (shift ctrl : bool) : KeyboardEvent :=
  {| key := lit "Enter"; shiftKey := shift; ctrlKey := ctrl;
     altKey := false; metaKey := false; defaultPrevented := false |}.

(** The internal-state instance after the user typed "hello". *)
Definition typed (cb : option (MessageData -> Internal.CallbackOutcome))
  : Internal.World :=
  Internal.run (props cb) clock (Internal.mount (props cb))
    [ToggleClick; InputChange (lit "hello")].

(** The same instance once the response arrived and its body is awaited. *)
Definition awaiting_body
    (cb : option (MessageData -> Internal.CallbackOutcome))
  : Internal.World :=
  Internal.run (props cb) clock (typed cb)
    [SendClick; FetchSettles 0 (Fulfilled ok_response)].

(** The paired-entry instance at the same two points. *)
Definition paired_typed : Paired.World :=
  Paired.run paired_props clock (Paired.mount [])
    [ToggleClick; InputChange (lit "hello")].

Definition paired_awaiting_body : Paired.World :=
  Paired.run paired_props clock paired_typed
    [SendClick; FetchSettles 0 (Fulfilled ok_response)].

End Demo.

(** ** Facts about the JavaScript fragment *)

Unset Implicit Arguments.

Arguments lit : simpl never.
Arguments trim : simpl never.
Arguments toString : simpl never.
Arguments fallback_text : simpl never.
Arguments apology_text : simpl never.

Lemma jsstring_eqb_eq (a b : jsstring) : jsstring_eqb a b = true <-> a = b.
Proof.
  unfold jsstring_eqb. destruct (list_eq_dec N.eq_dec a b); split;
    intros; congruence.
Qed.

Lemma answer_of_json (data : value) :
  data <> VNull -> data <> VUndefined ->
  answer_of data =
    Fulfilled (match answer_field data with Some v => v | None => VUndefined end).
Proof.
  intros Hn Hu. destruct data; try congruence; try reflexivity.
  simpl. destruct (lookup (lit "answer") members); reflexivity.
Qed.

Lemma truthy_trim_empty (s : jsstring) :
  truthy (VString (trim s)) = false <-> trim s = [].
Proof.
  simpl. destruct (trim s); split; intros; congruence.
Qed.

(** The guard of [handleSendMessage], as a proposition. *)
Lemma guard_blocks (s : jsstring) (loading : bool) :
  negb (truthy (VString (trim s))) || loading = true <->
  trim s = [] \/ loading = true.
Proof.
  rewrite orb_true_iff, negb_true_iff, truthy_trim_empty. tauto.
Qed.

Lemma guard_passes (s : jsstring) (loading : bool) :
  negb (truthy (VString (trim s))) || loading = false <->
  trim s <> [] /\ loading = false.
Proof.
  rewrite orb_false_iff, negb_false_iff.
  split; intros [H1 H2]; split; auto.
  - intro E. apply truthy_trim_empty in E. congruence.
  - destruct (truthy (VString (trim s))) eqn:E; auto.
    apply truthy_trim_empty in E. contradiction.
Qed.

(** [trim] strips both ends and is idempotent. *)

Lemma trimStart_idem (s : jsstring) : trimStart (trimStart s) = trimStart s.
Proof.
  induction s as [|c r IH]; [reflexivity|].
  cbn. destruct (isWhiteSpace c) eqn:E; [exact IH|].
  cbn. rewrite E. reflexivity.
Qed.

Lemma trimStart_split (s : jsstring) :
  exists p, s = p ++ trimStart s /\ forallb isWhiteSpace p = true.
Proof.
  induction s as [|c r (p & E & Hp)].
  - exists []. split; reflexivity.
  - cbn. destruct (isWhiteSpace c) eqn:W.
    + exists (c :: p). cbn. rewrite W, Hp. split; [congruence|reflexivity].
    + exists []. split; reflexivity.
Qed.

Lemma trimStart_head (s : jsstring) :
  trimStart s = [] \/
  exists c r, trimStart s = c :: r /\ isWhiteSpace c = false.
Proof.
  induction s as [|c r IH]; [left; reflexivity|].
  cbn. destruct (isWhiteSpace c) eqn:W; [exact IH|].
  right. exists c, r. auto.
Qed.

Lemma trimEnd_keeps_head (c : N) (r : jsstring) :
  isWhiteSpace c = false -> exists r', trimEnd (c :: r) = c :: r'.
Proof.
  intros W. unfold trimEnd.
  destruct (trimStart_split (rev (c :: r))) as (p & E & Hp).
  apply (f_equal (@rev N)) in E.
  rewrite rev_involutive, rev_app_distr in E.
  destruct (rev (trimStart (rev (c :: r)))) as [|x r'].
  - exfalso. cbn in E.
    assert (Hin : In c p) by (apply in_rev; rewrite <- E; left; reflexivity).
    rewrite forallb_forall in Hp. rewrite (Hp c Hin) in W. discriminate W.
  - cbn in E. injection E as -> _. eauto.
Qed.

Lemma trim_idempotent (s : jsstring) : trim (trim s) = trim s.
Proof.
  unfold trim.
  destruct (trimStart_head s) as [E|(c & r & E & W)]; rewrite E.
  - reflexivity.
  - destruct (trimEnd_keeps_head c r W) as (r' & E').
    assert (Hs : trimStart (trimEnd (c :: r)) = trimEnd (c :: r))
      by (rewrite E'; cbn; rewrite W; reflexivity).
    rewrite Hs. unfold trimEnd.
    rewrite rev_involutive, trimStart_idem. reflexivity.
Qed.

(** Appending a latest instant keeps a list of instants in order. *)
Lemma sorted_snoc (l : list Z) (x : Z) :
  StronglySorted Z.le l -> Forall (fun t => (t <= x)%Z) l ->
  StronglySorted Z.le (l ++ [x]).
Proof.
  induction 1 as [|t l Hs IH Ht]; intros Hx; cbn.
  - constructor; constructor.
  - inversion Hx as [|? ? Htx Hlx]; subst. constructor.
    + apply IH, Hlx.
    + apply Forall_app. split; [exact Ht|]. constructor; [exact Htx|constructor].
Qed.

Lemma answer_of_member (data a : value) :
  answer_field data = Some a -> answer_of data = Fulfilled a.
Proof.
  destruct data; cbn; try discriminate. intros ->. reflexivity.
Qed.

(** [toString] prints different integers differently. *)

Lemma lit_inj (a b : string) : lit a = lit b -> a = b.
Proof.
  unfold lit. intros H.
  apply (f_equal (map ascii_of_N)) in H. rewrite !map_map in H.
  assert (E : forall l, map (fun x => ascii_of_N (N_of_ascii x)) l = l).
  { intros l. rewrite <- (map_id l) at 2. apply map_ext.
    apply ascii_N_embedding. }
  rewrite !E in H.
  apply (f_equal string_of_list_ascii) in H.
  rewrite !string_of_list_ascii_of_string in H. exact H.
Qed.

Lemma to_int_nonnil (z : Z) :
  Z.to_int z <> Decimal.Pos Decimal.Nil /\
  Z.to_int z <> Decimal.Neg Decimal.Nil.
Proof.
  destruct z; cbn; split; try discriminate; intros E; injection E as E;
    apply (Unsigned.to_uint_nonnil _ E).
Qed.

Lemma toString_inj (a b : Z) : toString a = toString b -> a = b.
Proof.
  unfold toString. intros H. apply lit_inj in H.
  apply (f_equal NilZero.int_of_string) in H.
  destruct (to_int_nonnil a), (to_int_nonnil b).
  rewrite !NilZero.isi in H by assumption.
  injection H as H. apply DecimalZ.to_int_inj, H.
Qed.

(** ** The internal-state variant, step by step *)

Module InternalFacts.
Import Internal.

Section Component.

Variable props : ChatbotProps.
Variable clock : nat -> Z.

Local Notation "'step'" := (Internal.step props clock).
Local Notation "'run'" := (Internal.run props clock).

Lemma setInflight_same (w : World) : setInflight (inflight w) w = w.
Proof. destruct w; reflexivity. Qed.

Lemma handleSendMessage_blocked (w : World) :
  trim (inputMessage w) = [] \/ isLoading w = true ->
  handleSendMessage props clock (render w) w = (Normal Finished, w).
Proof.
  intros H. apply guard_blocks in H. unfold handleSendMessage.
  cbn [render c_inputMessage c_isLoading]. rewrite H. reflexivity.
Qed.

Lemma step_send_blocked (w : World) :
  trim (inputMessage w) = [] \/ isLoading w = true ->
  step w SendClick = w.
Proof.
  intros H. unfold Internal.step, Internal.dispatch.
  rewrite (handleSendMessage_blocked w H). cbn [spawn].
  apply setInflight_same.
Qed.

Lemma step_key (w : World) (e : KeyboardEvent) :
  step w (KeyPress e) =
    if jsstring_eqb (key e) (lit "Enter") && negb (shiftKey e)
    then step w SendClick else w.
Proof.
  unfold Internal.step, Internal.dispatch, handleKeyPress.
  destruct (jsstring_eqb (key e) (lit "Enter") && negb (shiftKey e)).
  - unfold bind.
    destruct (handleSendMessage props clock (render w) w) as [[p|err] w1].
    + reflexivity.
    + cbn [spawn]. symmetry. apply setInflight_same.
  - cbn [ret spawn]. apply setInflight_same.
Qed.

Lemma step_send_passes (w : World) :
  trim (inputMessage w) <> [] -> isLoading w = false ->
  step w SendClick =
    {| isOpen := isOpen w;
       messages :=
         messages w ++ [userMessage_at props clock (inputMessage w) (clockReads w)];
       inputMessage := [];
       isLoading := true;
       inflight :=
         inflight w ++ [{| act_inputMessage := inputMessage w;
                           act_stage := AwaitFetch |}];
       fetchLog :=
         fetchLog w
           ++ [request_at props clock (inputMessage w) (S (S (clockReads w)))];
       hostLog := hostLog w;
       consoleLog := consoleLog w;
       clockReads := S (S (S (clockReads w))) |}.
Proof.
  intros Hs Hl. pose proof (conj Hs Hl) as G. apply guard_passes in G.
  unfold Internal.step, Internal.dispatch, handleSendMessage.
  cbn [render c_inputMessage c_isLoading]. rewrite G.
  destruct w; reflexivity.
Qed.

Lemma step_ui_pending (w : World) (e : Event) :
  isLoading w = true -> ui_event e = true -> same_exchange w (step w e).
Proof.
  intros Hl He. unfold same_exchange.
  destruct e; try discriminate He.
  - destruct w; cbn; repeat split; reflexivity.
  - destruct w; cbn; repeat split; reflexivity.
  - rewrite step_key.
    destruct (jsstring_eqb (key e) (lit "Enter") && negb (shiftKey e));
      [rewrite step_send_blocked by auto|]; repeat split; reflexivity.
  - rewrite step_send_blocked by auto. repeat split; reflexivity.
Qed.

Lemma run_ui_pending (evs : list Event) : forall w : World,
  isLoading w = true -> forallb ui_event evs = true ->
  same_exchange w (run w evs).
Proof.
  induction evs as [|e evs IH]; intros w Hl Hu.
  - unfold same_exchange; repeat split; reflexivity.
  - cbn in Hu. apply andb_true_iff in Hu as [He Hu].
    destruct (step_ui_pending w e Hl He) as (A & B & C & D & E & F & G).
    assert (Hl' : isLoading (step w e) = true) by congruence.
    destruct (IH (step w e) Hl' Hu) as (A' & B' & C' & D' & E' & F' & G').
    cbn [Internal.run fold_left] in *. unfold Internal.run in *.
    unfold same_exchange; repeat split; congruence.
Qed.

(** A failed settlement of [fetch] runs the catch block and the finally
    block. *)
Lemma step_fetch_fails (w : World) (i : nat) (s : jsstring)
    (r : Settled Response) :
  nth_error (inflight w) i
    = Some {| act_inputMessage := s; act_stage := AwaitFetch |} ->
  fetch_failed r = true ->
  step w (FetchSettles i r) =
    {| isOpen := isOpen w;
       messages :=
         messages w
           ++ [botMessage_at props clock (VString apology_text) (clockReads w)];
       inputMessage := inputMessage w;
       isLoading := false;
       inflight := firstn i (inflight w) ++ skipn (S i) (inflight w);
       fetchLog := fetchLog w;
       hostLog := hostLog w;
       consoleLog := consoleLog w ++ [failure_of r];
       clockReads := S (S (clockReads w)) |}.
Proof.
  intros Hn Hf. unfold Internal.step, Internal.dispatch. rewrite Hn.
  destruct r as [res|err]; cbn in Hf.
  - unfold resume, try_json. rewrite Hf. destruct w; reflexivity.
  - destruct w; reflexivity.
Qed.

(** A successful settlement of [fetch] moves the activation on to
    [res.json()] and touches nothing else. *)
Lemma step_fetch_ok (w : World) (i : nat) (s : jsstring) (res : Response) :
  nth_error (inflight w) i
    = Some {| act_inputMessage := s; act_stage := AwaitFetch |} ->
  ok res = true ->
  step w (FetchSettles i (Fulfilled res)) =
    setInflight
      (firstn i (inflight w)
         ++ {| act_inputMessage := s; act_stage := AwaitJson |}
         :: skipn (S i) (inflight w)) w.
Proof.
  intros Hn Hk. unfold Internal.step, Internal.dispatch. rewrite Hn.
  unfold resume, try_json. rewrite Hk. destruct w; reflexivity.
Qed.

(** The world after the reply [text] was appended for the activation at
    [i], before any callback. *)
Lemma step_json_no_callback (w : World) (i : nat) (s : jsstring)
    (data a : value) :
  nth_error (inflight w) i
    = Some {| act_inputMessage := s; act_stage := AwaitJson |} ->
  answer_of data = Fulfilled a ->
  onSaveMessage props = None ->
  step w (JsonSettles i (Fulfilled data)) =
    {| isOpen := isOpen w;
       messages :=
         messages w
           ++ [botMessage_at props clock
                 (or_else a (VString fallback_text)) (clockReads w)];
       inputMessage := inputMessage w;
       isLoading := false;
       inflight := firstn i (inflight w) ++ skipn (S i) (inflight w);
       fetchLog := fetchLog w;
       hostLog := hostLog w;
       consoleLog := consoleLog w;
       clockReads := S (S (clockReads w)) |}.
Proof.
  intros Hn Ha Hc. unfold Internal.step, Internal.dispatch. rewrite Hn.
  unfold resume, try_reply. rewrite Ha, Hc. destruct w; reflexivity.
Qed.

Lemma step_json_callback_returns (w : World) (i : nat) (s : jsstring)
    (data a : value) (cb : MessageData -> CallbackOutcome) :
  nth_error (inflight w) i
    = Some {| act_inputMessage := s; act_stage := AwaitJson |} ->
  answer_of data = Fulfilled a ->
  onSaveMessage props = Some cb ->
  cb {| question := trim s; answer := or_else a (VString fallback_text);
        userId := id (user props) |} = Returns ->
  step w (JsonSettles i (Fulfilled data)) =
    {| isOpen := isOpen w;
       messages :=
         messages w
           ++ [botMessage_at props clock
                 (or_else a (VString fallback_text)) (clockReads w)];
       inputMessage := inputMessage w;
       isLoading := false;
       inflight := firstn i (inflight w) ++ skipn (S i) (inflight w);
       fetchLog := fetchLog w;
       hostLog :=
         hostLog w
           ++ [CallOnSaveMessage
                 {| question := trim s;
                    answer := or_else a (VString fallback_text);
                    userId := id (user props) |}];
       consoleLog := consoleLog w;
       clockReads := S (S (clockReads w)) |}.
Proof.
  intros Hn Ha Hc Hr. unfold Internal.step, Internal.dispatch. rewrite Hn.
  unfold resume, try_reply. rewrite Ha, Hc.
  destruct w; cbn. unfold call_onSaveMessage, bind; cbn. rewrite Hr.
  reflexivity.
Qed.

(** A callback that throws lands in the catch block, after the reply was
    appended. *)
Lemma step_json_callback_throws (w : World) (i : nat) (s : jsstring)
    (data a : value) (cb : MessageData -> CallbackOutcome) (err : Thrown) :
  nth_error (inflight w) i
    = Some {| act_inputMessage := s; act_stage := AwaitJson |} ->
  answer_of data = Fulfilled a ->
  onSaveMessage props = Some cb ->
  cb {| question := trim s; answer := or_else a (VString fallback_text);
        userId := id (user props) |} = Throws err ->
  step w (JsonSettles i (Fulfilled data)) =
    {| isOpen := isOpen w;
       messages :=
         (messages w
            ++ [botMessage_at props clock
                  (or_else a (VString fallback_text)) (clockReads w)])
           ++ [botMessage_at props clock (VString apology_text)
                 (S (S (clockReads w)))];
       inputMessage := inputMessage w;
       isLoading := false;
       inflight := firstn i (inflight w) ++ skipn (S i) (inflight w);
       fetchLog := fetchLog w;
       hostLog :=
         hostLog w
           ++ [CallOnSaveMessage
                 {| question := trim s;
                    answer := or_else a (VString fallback_text);
                    userId := id (user props) |}];
       consoleLog := consoleLog w ++ [err];
       clockReads := S (S (S (S (clockReads w)))) |}.
Proof.
  intros Hn Ha Hc Hr. unfold Internal.step, Internal.dispatch. rewrite Hn.
  unfold resume, try_reply. rewrite Ha, Hc.
  destruct w; cbn. unfold call_onSaveMessage, bind; cbn. rewrite Hr.
  reflexivity.
Qed.

Lemma step_json_throws (w : World) (i : nat) (s : jsstring)
    (r : Settled value) (err : Thrown) :
  nth_error (inflight w) i
    = Some {| act_inputMessage := s; act_stage := AwaitJson |} ->
  reply_throws r = Some err ->
  step w (JsonSettles i r) =
    {| isOpen := isOpen w;
       messages :=
         messages w
           ++ [botMessage_at props clock (VString apology_text) (clockReads w)];
       inputMessage := inputMessage w;
       isLoading := false;
       inflight := firstn i (inflight w) ++ skipn (S i) (inflight w);
       fetchLog := fetchLog w;
       hostLog := hostLog w;
       consoleLog := consoleLog w ++ [err];
       clockReads := S (S (clockReads w)) |}.
Proof.
  intros Hn Hr. unfold Internal.step, Internal.dispatch. rewrite Hn.
  unfold resume, try_reply. destruct r as [data|e]; cbn in Hr.
  - destruct (answer_of data) as [a|e]; [discriminate|].
    injection Hr as ->. destruct w; reflexivity.
  - injection Hr as ->. destruct w; reflexivity.
Qed.

(** *** The pending flag and the suspended activations *)

Lemma mount_locked : locked (mount props).
Proof. left. split; reflexivity. Qed.

Lemma step_locked (w : World) (e : Event) : locked w -> locked (step w e).
Proof.
  intros L.
  assert (Hsend : locked (step w SendClick)).
  { destruct (list_eq_dec N.eq_dec (trim (inputMessage w)) []) as [E|E].
    - rewrite step_send_blocked by auto. exact L.
    - destruct L as [[Hl Hi]|[Hl Hi]].
      + rewrite step_send_passes by assumption. right. cbn.
        rewrite Hi. split; [reflexivity|eexists; reflexivity].
      + rewrite step_send_blocked by auto. right; auto. }
  pose proof L as L0.
  destruct e as [|v|k| |i r|i r].
  - destruct w; exact L.
  - destruct w; exact L.
  - rewrite step_key.
    destruct (jsstring_eqb (key k) (lit "Enter") && negb (shiftKey k)); auto.
  - exact Hsend.
  - destruct L as [[Hl Hi]|[Hl [a Hi]]].
    + unfold Internal.step, Internal.dispatch. rewrite Hi. destruct i; cbn; exact L0.
    + destruct i as [|i].
      * destruct a as [s [|]].
        -- destruct (fetch_failed r) eqn:F.
           ++ rewrite (step_fetch_fails w 0 s r) by (try rewrite Hi; auto).
              left. cbn. rewrite Hi. split; reflexivity.
           ++ destruct r as [res|err]; [|discriminate].
              cbn in F. apply negb_false_iff in F.
              rewrite (step_fetch_ok w 0 s res) by (try rewrite Hi; auto).
              right. destruct w; cbn in *. subst. split; eauto.
        -- unfold Internal.step, Internal.dispatch. rewrite Hi. cbn. exact L0.
      * unfold Internal.step, Internal.dispatch. rewrite Hi. destruct i; cbn; exact L0.
  - destruct L as [[Hl Hi]|[Hl [a Hi]]].
    + unfold Internal.step, Internal.dispatch. rewrite Hi. destruct i; cbn; exact L0.
    + destruct i as [|i].
      * destruct a as [s [|]].
        -- unfold Internal.step, Internal.dispatch. rewrite Hi. cbn. exact L0.
        -- assert (Hn : nth_error (inflight w) 0
                     = Some {| act_inputMessage := s; act_stage := AwaitJson |})
             by (try rewrite Hi; auto).
           destruct (reply_throws r) as [err|] eqn:T.
           ++ rewrite (step_json_throws w 0 s r err Hn T).
              left. cbn. rewrite Hi. split; reflexivity.
           ++ destruct r as [data|err]; [|discriminate].
              cbn in T. destruct (answer_of data) as [a|err] eqn:A;
                [|discriminate].
              destruct (onSaveMessage props) as [cb|] eqn:C.
              ** destruct (cb {| question := trim s;
                                 answer := or_else a (VString fallback_text);
                                 userId := id (user props) |}) eqn:R.
                 --- rewrite (step_json_callback_returns w 0 s data a cb Hn A C R).
                     left. cbn. rewrite Hi. split; reflexivity.
                 --- rewrite (step_json_callback_throws w 0 s data a cb _ Hn A C R).
                     left. cbn. rewrite Hi. split; reflexivity.
              ** rewrite (step_json_no_callback w 0 s data a Hn A C).
                 left. cbn. rewrite Hi. split; reflexivity.
      * unfold Internal.step, Internal.dispatch. rewrite Hi. destruct i; cbn; exact L0.
Qed.

Lemma run_locked (evs : list Event) : forall w : World,
  locked w -> locked (run w evs).
Proof.
  induction evs as [|e evs IH]; intros w L; [exact L|].
  cbn. apply IH, step_locked, L.
Qed.

(** An instance whose flag is down has nothing suspended. *)
Lemma idle_inflight (evs : list Event) :
  isLoading (run (mount props) evs) = false ->
  inflight (run (mount props) evs) = [].
Proof.
  intros Hl.
  destruct (run_locked evs _ mount_locked) as [[_ H]|[H _]];
    [exact H|congruence].
Qed.

(** A step leaves the call log alone, or, when no request is pending,
    issues one call and suspends one activation on it. *)
Lemma step_calls (w : World) (e : Event) :
  fetchLog (step w e) = fetchLog w \/
  (isLoading w = false /\
   exists req s,
     fetchLog (step w e) = fetchLog w ++ [req] /\
     inflight (step w e)
       = inflight w ++ [{| act_inputMessage := s; act_stage := AwaitFetch |}]).
Proof.
  assert (Hsend :
    fetchLog (step w SendClick) = fetchLog w \/
    (isLoading w = false /\
     exists req s,
       fetchLog (step w SendClick) = fetchLog w ++ [req] /\
       inflight (step w SendClick)
         = inflight w
             ++ [{| act_inputMessage := s; act_stage := AwaitFetch |}])).
  { destruct (list_eq_dec N.eq_dec (trim (inputMessage w)) []) as [E|E].
    - left. rewrite step_send_blocked by auto. reflexivity.
    - destruct (isLoading w) eqn:Hl.
      + left. rewrite step_send_blocked by auto. reflexivity.
      + right. split; [reflexivity|].
        rewrite step_send_passes by assumption. cbn. eauto. }
  destruct e as [|v|k| |i r|i r].
  - left. destruct w; reflexivity.
  - left. destruct w; reflexivity.
  - rewrite step_key.
    destruct (jsstring_eqb (key k) (lit "Enter") && negb (shiftKey k)); auto.
  - exact Hsend.
  - left. unfold Internal.step, Internal.dispatch.
    destruct (nth_error (inflight w) i) as [[s [|]]|]; try reflexivity.
    unfold resume, try_json.
    destruct r as [res|err]; [destruct (ok res)|]; destruct w; reflexivity.
  - left. unfold Internal.step, Internal.dispatch.
    destruct (nth_error (inflight w) i) as [[s [|]]|]; try reflexivity.
    unfold resume, try_reply.
    destruct r as [data|err]; [|destruct w; reflexivity].
    destruct (answer_of data); [|destruct w; reflexivity].
    destruct (onSaveMessage props) as [cb|]; [|destruct w; reflexivity].
    destruct w; cbn. unfold call_onSaveMessage, bind; cbn.
    destruct (cb _); reflexivity.
Qed.

(** *** The message list *)

(** Every step appends to the message list: nothing, one message, or,
    when the host's callback throws after the reply was appended, two. *)
Lemma step_appends (w : World) (e : Event) :
  exists added,
    messages (step w e) = messages w ++ added /\
    (List.length added <= 2)%nat /\
    (callback_never_throws props -> (List.length added <= 1)%nat).
Proof.
  assert (Hsend : exists added,
             messages (step w SendClick) = messages w ++ added /\
             (List.length added <= 1)%nat).
  { destruct (list_eq_dec N.eq_dec (trim (inputMessage w)) []) as [E|E].
    - rewrite step_send_blocked by auto.
      exists []. rewrite app_nil_r. cbn. auto.
    - destruct (isLoading w) eqn:Hl.
      + rewrite step_send_blocked by auto.
        exists []. rewrite app_nil_r. cbn. auto.
      + rewrite step_send_passes by assumption. cbn.
        eexists. split; [reflexivity|cbn; auto]. }
  assert (Hnone : messages w = messages w ++ [] /\ (List.length (@nil ChatMessage) <= 2)%nat
                  /\ (callback_never_throws props ->
                      (List.length (@nil ChatMessage) <= 1)%nat)).
  { rewrite app_nil_r. cbn. auto. }
  destruct e as [|v|k| |i r|i r].
  - exists []. destruct w; exact Hnone.
  - exists []. destruct w; exact Hnone.
  - rewrite step_key.
    destruct (jsstring_eqb (key k) (lit "Enter") && negb (shiftKey k)).
    + destruct Hsend as (added & H1 & H2). exists added. auto.
    + exists []. exact Hnone.
  - destruct Hsend as (added & H1 & H2). exists added. auto.
  - unfold Internal.step, Internal.dispatch.
    destruct (nth_error (inflight w) i) as [[s [|]]|];
      try (exists []; exact Hnone).
    unfold resume, try_json.
    destruct r as [res|err]; [destruct (ok res)|].
    + exists []. destruct w; exact Hnone.
    + destruct w; cbn; eexists; split; [reflexivity|cbn; auto].
    + destruct w; cbn; eexists; split; [reflexivity|cbn; auto].
  - unfold Internal.step, Internal.dispatch.
    destruct (nth_error (inflight w) i) as [[s [|]]|];
      try (exists []; exact Hnone).
    unfold resume, try_reply.
    destruct r as [data|err];
      [|destruct w; cbn; eexists; split; [reflexivity|cbn; auto]].
    destruct (answer_of data) as [a|err];
      [|destruct w; cbn; eexists; split; [reflexivity|cbn; auto]].
    destruct (onSaveMessage props) as [cb|] eqn:C;
      [|destruct w; cbn; eexists; split; [reflexivity|cbn; auto]].
    destruct (cb {| question := trim s;
                    answer := or_else a (VString fallback_text);
                    userId := id (user props) |}) eqn:R.
    + destruct w; cbn. unfold call_onSaveMessage, bind; cbn.
      rewrite R. cbn. eexists. split; [reflexivity|cbn; auto].
    + destruct w; cbn. unfold call_onSaveMessage, bind; cbn.
      rewrite R. cbn. rewrite <- app_assoc.
      eexists. split; [reflexivity|cbn; split; auto].
      intros Hc. rewrite (Hc cb _ C) in R. discriminate R.
Qed.

Lemma run_appends (evs : list Event) : forall w : World,
  exists added, messages (run w evs) = messages w ++ added.
Proof.
  induction evs as [|e evs IH]; intros w.
  - exists []. symmetry. apply app_nil_r.
  - destruct (step_appends w e) as (a1 & H1 & _).
    destruct (IH (step w e)) as (a2 & H2).
    exists (a1 ++ a2). cbn [Internal.run fold_left] in *.
    unfold Internal.run in *. rewrite H2, H1. symmetry. apply app_assoc.
Qed.

(** *** Whole exchanges *)

Lemma run_app (evs1 evs2 : list Event) (w : World) :
  run w (evs1 ++ evs2) = run (run w evs1) evs2.
Proof. apply fold_left_app. Qed.

(** From the submit to just before the settlement: the echo is in the
    list, the flag is set, and one activation waits for [fetch]. *)
Lemma pending_exchange (w0 : World) (ui : list Event) :
  inflight w0 = [] -> isLoading w0 = false ->
  trim (inputMessage w0) <> [] -> forallb ui_event ui = true ->
  let w := run w0 (SendClick :: ui) in
  messages w
    = messages w0 ++ [userMessage_at props clock (inputMessage w0) (clockReads w0)] /\
  isLoading w = true /\
  inflight w
    = [{| act_inputMessage := inputMessage w0; act_stage := AwaitFetch |}] /\
  fetchLog w
    = fetchLog w0
        ++ [request_at props clock (inputMessage w0) (S (S (clockReads w0)))] /\
  hostLog w = hostLog w0 /\
  consoleLog w = consoleLog w0 /\
  clockReads w = S (S (S (clockReads w0))).
Proof.
  intros Hi Hl Hs Hu w. subst w. cbn [Internal.run fold_left].
  fold (run (step w0 SendClick) ui).
  assert (Hl1 : isLoading (step w0 SendClick) = true)
    by (rewrite step_send_passes by assumption; reflexivity).
  destruct (run_ui_pending ui _ Hl1 Hu) as (A & B & C & D & E & F & G).
  rewrite A, B, C, D, E, F, G.
  rewrite step_send_passes by assumption. cbn. rewrite Hi.
  repeat split; reflexivity.
Qed.

(** A failed settlement of [fetch] ends the exchange with the apology. *)
Lemma failed_exchange (w0 : World) (ui : list Event) (r : Settled Response) :
  inflight w0 = [] -> isLoading w0 = false ->
  trim (inputMessage w0) <> [] -> forallb ui_event ui = true ->
  fetch_failed r = true ->
  let w := run w0 (SendClick :: ui ++ [FetchSettles 0 r]) in
  messages w
    = messages w0
        ++ [userMessage_at props clock (inputMessage w0) (clockReads w0);
            botMessage_at props clock (VString apology_text)
              (S (S (S (clockReads w0))))] /\
  isLoading w = false /\
  inflight w = [] /\
  hostLog w = hostLog w0 /\
  consoleLog w = consoleLog w0 ++ [failure_of r].
Proof.
  intros Hi Hl Hs Hu Hf w. subst w.
  change (SendClick :: ui ++ [FetchSettles 0 r])
    with ((SendClick :: ui) ++ [FetchSettles 0 r]).
  rewrite run_app.
  destruct (pending_exchange w0 ui Hi Hl Hs Hu) as (A & B & C & D & E & F & G).
  remember (run w0 (SendClick :: ui)) as w2 eqn:Ew2. clear Ew2.
  cbn [Internal.run fold_left].
  rewrite (step_fetch_fails w2 0 (inputMessage w0) r)
    by (try rewrite C; auto).
  cbn. rewrite A, C, E, F, G, <- app_assoc. repeat split; reflexivity.
Qed.

(** After an [ok] response, one activation waits for the body. *)
Lemma awaiting_body_exchange (w0 : World) (ui1 ui2 : list Event)
    (res : Response) :
  inflight w0 = [] -> isLoading w0 = false ->
  trim (inputMessage w0) <> [] ->
  forallb ui_event ui1 = true -> forallb ui_event ui2 = true ->
  ok res = true ->
  let w := run w0 (SendClick :: ui1 ++ FetchSettles 0 (Fulfilled res) :: ui2) in
  messages w
    = messages w0 ++ [userMessage_at props clock (inputMessage w0) (clockReads w0)] /\
  isLoading w = true /\
  inflight w
    = [{| act_inputMessage := inputMessage w0; act_stage := AwaitJson |}] /\
  hostLog w = hostLog w0 /\
  consoleLog w = consoleLog w0 /\
  clockReads w = S (S (S (clockReads w0))).
Proof.
  intros Hi Hl Hs Hu1 Hu2 Hk w. subst w.
  change (SendClick :: ui1 ++ FetchSettles 0 (Fulfilled res) :: ui2)
    with ((SendClick :: ui1) ++ FetchSettles 0 (Fulfilled res) :: ui2).
  rewrite run_app.
  destruct (pending_exchange w0 ui1 Hi Hl Hs Hu1)
    as (A & B & C & D & E & F & G).
  remember (run w0 (SendClick :: ui1)) as w2 eqn:Ew2. clear Ew2.
  cbn [Internal.run fold_left].
  fold (run (step w2 (FetchSettles 0 (Fulfilled res))) ui2).
  assert (E3 : step w2 (FetchSettles 0 (Fulfilled res))
               = setInflight
                   [{| act_inputMessage := inputMessage w0;
                       act_stage := AwaitJson |}] w2).
  { rewrite (step_fetch_ok w2 0 (inputMessage w0) res)
      by (try rewrite C; auto).
    rewrite C. reflexivity. }
  rewrite E3.
  assert (Hl3 : isLoading (setInflight
                   [{| act_inputMessage := inputMessage w0;
                       act_stage := AwaitJson |}] w2) = true)
    by (destruct w2; exact B).
  destruct (run_ui_pending ui2 _ Hl3 Hu2)
    as (A' & B' & C' & D' & E' & F' & G').
  rewrite A', B', C', E', F', G'.
  destruct w2; cbn in *. subst. repeat split; reflexivity.
Qed.

(** What the settlement of [res.json()] with a readable body does. *)
Lemma step_json_replies (w : World) (i : nat) (s : jsstring) (data a : value) :
  nth_error (inflight w) i
    = Some {| act_inputMessage := s; act_stage := AwaitJson |} ->
  answer_of data = Fulfilled a ->
  let w' := step w (JsonSettles i (Fulfilled data)) in
  let botResponse := or_else a (VString fallback_text) in
  (exists rest,
     messages w'
       = messages w
           ++ botMessage_at props clock botResponse (clockReads w) :: rest /\
     (callback_never_throws props -> rest = [])) /\
  isLoading w' = false /\
  inflight w' = firstn i (inflight w) ++ skipn (S i) (inflight w) /\
  hostLog w'
    = hostLog w
        ++ match onSaveMessage props with
           | Some _ =>
               [CallOnSaveMessage
                  {| question := trim s; answer := botResponse;
                     userId := id (user props) |}]
           | None => []
           end.
Proof.
  intros Hn Ha w' botResponse. subst w' botResponse.
  destruct (onSaveMessage props) as [cb|] eqn:C.
  - destruct (cb {| question := trim s;
                    answer := or_else a (VString fallback_text);
                    userId := id (user props) |}) eqn:R.
    + rewrite (step_json_callback_returns w i s data a cb Hn Ha C R). cbn.
      split; [|repeat split; reflexivity].
      exists []. split; reflexivity.
    + rewrite (step_json_callback_throws w i s data a cb e Hn Ha C R). cbn.
      rewrite <- app_assoc.
      split; [|repeat split; reflexivity].
      eexists. split; [reflexivity|].
      intros Hc. rewrite (Hc cb _ C) in R. discriminate R.
  - rewrite (step_json_no_callback w i s data a Hn Ha C). cbn.
    rewrite app_nil_r.
    split; [|repeat split; reflexivity].
    exists []. split; reflexivity.
Qed.

(** *** The kinds of step *)

Lemma or_else_truthy (a b : value) :
  truthy b = true -> truthy (or_else a b) = true.
Proof.
  intros Hb. unfold or_else. destruct (truthy a) eqn:Ha; assumption.
Qed.

Lemma step_transition (w : World) (e : Event) :
  locked w -> transition props clock w (step w e).
Proof.
  intros L.
  assert (Q : transition props clock w w)
    by (apply t_quiet; reflexivity).
  assert (Hsend : transition props clock w (step w SendClick)).
  { destruct (list_eq_dec N.eq_dec (trim (inputMessage w)) []) as [E|E].
    - rewrite step_send_blocked by auto. exact Q.
    - destruct L as [[Hl Hi]|[Hl Hi]].
      + apply t_submit; try assumption.
        rewrite step_send_passes by assumption. rewrite Hi. reflexivity.
      + rewrite step_send_blocked by auto. exact Q. }
  destruct e as [|v|k| |i r|i r].
  - apply t_quiet; destruct w; reflexivity.
  - apply t_quiet; destruct w; reflexivity.
  - rewrite step_key.
    destruct (jsstring_eqb (key k) (lit "Enter") && negb (shiftKey k)); auto.
  - exact Hsend.
  - destruct L as [[Hl Hi]|[Hl [a Hi]]].
    + unfold Internal.step, Internal.dispatch. rewrite Hi. destruct i; cbn; exact Q.
    + destruct i as [|i].
      * destruct a as [s [|]].
        -- destruct (fetch_failed r) eqn:F.
           ++ apply (@t_end props clock _ _ s AwaitFetch (VString apology_text) []);
                try assumption; auto;
                rewrite (step_fetch_fails w 0 s r) by (try rewrite Hi; auto);
                cbn; try rewrite Hi; reflexivity.
           ++ destruct r as [res|err]; [|discriminate].
              cbn in F. apply negb_false_iff in F.
              apply (@t_response props clock _ _ s); [assumption|].
              rewrite (step_fetch_ok w 0 s res) by (try rewrite Hi; auto).
              rewrite Hi. reflexivity.
        -- unfold Internal.step, Internal.dispatch. rewrite Hi. cbn. exact Q.
      * unfold Internal.step, Internal.dispatch. rewrite Hi. destruct i; cbn; exact Q.
  - destruct L as [[Hl Hi]|[Hl [a Hi]]].
    + unfold Internal.step, Internal.dispatch. rewrite Hi. destruct i; cbn; exact Q.
    + destruct i as [|i].
      * destruct a as [s [|]].
        -- unfold Internal.step, Internal.dispatch. rewrite Hi. cbn. exact Q.
        -- assert (Hn : nth_error (inflight w) 0
                     = Some {| act_inputMessage := s; act_stage := AwaitJson |})
             by (rewrite Hi; auto).
           destruct (reply_throws r) as [err|] eqn:T.
           ++ apply (@t_end props clock _ _ s AwaitJson (VString apology_text) []);
                try assumption; auto;
                rewrite (step_json_throws w 0 s r err Hn T);
                cbn; try rewrite Hi; reflexivity.
           ++ destruct r as [data|err]; [|discriminate].
              cbn in T. destruct (answer_of data) as [a|err] eqn:A;
                [|discriminate].
              assert (Ht : truthy (or_else a (VString fallback_text)) = true)
                by (apply or_else_truthy; reflexivity).
              destruct (onSaveMessage props) as [cb|] eqn:C.
              ** destruct (cb {| question := trim s;
                                 answer := or_else a (VString fallback_text);
                                 userId := id (user props) |}) eqn:R.
                 --- apply (@t_end props clock _ _ s AwaitJson
                              (or_else a (VString fallback_text)) []);
                       try assumption; auto;
                       rewrite (step_json_callback_returns w 0 s data a cb
                                  Hn A C R);
                       cbn; try rewrite Hi; reflexivity.
                 --- apply (@t_end props clock _ _ s AwaitJson
                              (or_else a (VString fallback_text))
                              [botMessage_at props clock
                                 (VString apology_text)
                                 (S (S (clockReads w)))]);
                       try assumption; auto;
                       rewrite (step_json_callback_throws w 0 s data a cb _
                                  Hn A C R);
                       cbn; try rewrite Hi; try rewrite <- app_assoc;
                       reflexivity.
              ** apply (@t_end props clock _ _ s AwaitJson
                          (or_else a (VString fallback_text)) []);
                   try assumption; auto;
                   rewrite (step_json_no_callback w 0 s data a Hn A C);
                   cbn; try rewrite Hi; reflexivity.
      * unfold Internal.step, Internal.dispatch. rewrite Hi. destruct i; cbn; exact Q.
Qed.

(** An invariant of locked worlds that every kind of step keeps holds
    after any run from the mounted world. *)
Lemma run_invariant (P : World -> Prop) :
  P (mount props) ->
  (forall w w', locked w -> P w -> transition props clock w w' -> P w') ->
  forall evs, P (run (mount props) evs).
Proof.
  intros H0 Hstep evs.
  assert (G : forall w, locked w -> P w -> locked (run w evs) /\ P (run w evs)).
  { induction evs as [|e evs IH]; intros w L Hp; [auto|].
    cbn. apply IH.
    - apply step_locked, L.
    - apply (Hstep w); auto. apply step_transition, L. }
  apply G; [apply mount_locked|exact H0].
Qed.

(** *** The open flag *)

Lemma toggle_send_commutes (w : World) :
  step (step w SendClick) ToggleClick = step (step w ToggleClick) SendClick.
Proof.
  destruct w as [o ms s l fl fs hs cs n].
  unfold Internal.step, Internal.dispatch, handleSendMessage. cbn.
  destruct (trim s); destruct l; reflexivity.
Qed.

Lemma toggle_commutes (w : World) (e : Event) :
  step (step w e) ToggleClick = step (step w ToggleClick) e.
Proof.
  destruct e as [|v|k| |i r|i r].
  - reflexivity.
  - destruct w; reflexivity.
  - rewrite !step_key.
    destruct (jsstring_eqb (key k) (lit "Enter") && negb (shiftKey k));
      [apply toggle_send_commutes|reflexivity].
  - apply toggle_send_commutes.
  - destruct w as [o ms s l fl fs hs cs n]. unfold Internal.step, Internal.dispatch. cbn.
    destruct (nth_error fl i) as [[s' [|]]|]; try reflexivity.
    unfold resume, try_json.
    destruct r as [res|err]; [destruct (ok res)|]; reflexivity.
  - destruct w as [o ms s l fl fs hs cs n]. unfold Internal.step, Internal.dispatch. cbn.
    destruct (nth_error fl i) as [[s' [|]]|]; try reflexivity.
    unfold resume, try_reply.
    destruct r as [data|err]; [|reflexivity].
    destruct (answer_of data); [|reflexivity].
    destruct (onSaveMessage props) as [cb|]; [|reflexivity].
    cbn. unfold call_onSaveMessage, bind; cbn.
    destruct (cb _); reflexivity.
Qed.

(** *** The settlement of the body *)

(** Whatever [res.json()] settles with, the exchange is over afterwards,
    and the last message appended is a bot message. *)
Lemma json_settle_ends (w : World) (s : jsstring) (r : Settled value) :
  inflight w = [{| act_inputMessage := s; act_stage := AwaitJson |}] ->
  let w' := step w (JsonSettles 0 r) in
  isLoading w' = false /\ inflight w' = [] /\
  exists added m,
    messages w' = messages w ++ added ++ [m] /\ msg_type m = bot_type.
Proof.
  intros Hi w'. subst w'.
  assert (Hn : nth_error (inflight w) 0
               = Some {| act_inputMessage := s; act_stage := AwaitJson |})
    by (rewrite Hi; reflexivity).
  destruct (reply_throws r) as [err|] eqn:T.
  - rewrite (step_json_throws w 0 s r err Hn T). cbn. rewrite Hi.
    repeat split. exists [], (botMessage_at props clock (VString apology_text)
                               (clockReads w)).
    split; reflexivity.
  - destruct r as [data|err]; [|discriminate].
    cbn in T. destruct (answer_of data) as [a|err] eqn:A; [|discriminate].
    destruct (step_json_replies w 0 s data a Hn A)
      as ((rest & Hm & _) & Hl & Hf & _).
    rewrite Hi in Hf. split; [exact Hl|]. split; [exact Hf|].
    destruct (onSaveMessage props) as [cb|] eqn:C.
    + destruct (cb {| question := trim s;
                      answer := or_else a (VString fallback_text);
                      userId := id (user props) |}) eqn:R.
      * rewrite (step_json_callback_returns w 0 s data a cb Hn A C R). cbn.
        exists [], (botMessage_at props clock
                      (or_else a (VString fallback_text)) (clockReads w)).
        split; reflexivity.
      * rewrite (step_json_callback_throws w 0 s data a cb _ Hn A C R). cbn.
        exists [botMessage_at props clock
                  (or_else a (VString fallback_text)) (clockReads w)],
               (botMessage_at props clock (VString apology_text)
                  (S (S (clockReads w)))).
        rewrite <- app_assoc. split; reflexivity.
    + rewrite (step_json_no_callback w 0 s data a Hn A C). cbn.
      exists [], (botMessage_at props clock
                    (or_else a (VString fallback_text)) (clockReads w)).
      split; reflexivity.
Qed.

(** An accepted submit, by the handlers of the render [c]: the guard and
    the texts are read from [c], whatever the state cells hold by now. *)
Lemma dispatch_send_passes (c : Closure) (w : World) :
  trim (c_inputMessage c) <> [] -> c_isLoading c = false ->
  Internal.dispatch props clock c w SendClick =
    {| isOpen := isOpen w;
       messages :=
         messages w
           ++ [userMessage_at props clock (c_inputMessage c) (clockReads w)];
       inputMessage := [];
       isLoading := true;
       inflight :=
         inflight w ++ [{| act_inputMessage := c_inputMessage c;
                           act_stage := AwaitFetch |}];
       fetchLog :=
         fetchLog w
           ++ [request_at props clock (c_inputMessage c)
                 (S (S (clockReads w)))];
       hostLog := hostLog w;
       consoleLog := consoleLog w;
       clockReads := S (S (S (clockReads w))) |}.
Proof.
  intros Hs Hl. pose proof (conj Hs Hl) as G. apply guard_passes in G.
  unfold Internal.dispatch, handleSendMessage. rewrite G.
  destruct w; reflexivity.
Qed.

(** An event followed by a commit, on a page whose handlers are those of
    its state, is a [step]. *)
Lemma page_commit_is_step (p : Page) (ev : Event) :
  committed p = render (world p) ->
  Internal.page_step props clock
    (Internal.page_step props clock p (Dispatch ev)) Commit
  = {| world := step (world p) ev;
       committed := render (step (world p) ev) |}.
Proof.
  intros E. unfold Internal.page_step, Internal.step.
  cbn [world committed]. rewrite E. reflexivity.
Qed.

(** A page on which React commits after every event goes through the
    worlds of [run]. *)
Lemma page_run_committed (evs : list Event) : forall w : World,
  Internal.page_run props clock {| world := w; committed := render w |}
    (flat_map (fun ev => [Dispatch ev; Commit]) evs)
  = {| world := run w evs; committed := render (run w evs) |}.
Proof.
  induction evs as [|ev evs IH]; intros w; [reflexivity|].
  cbn [flat_map app]. unfold Internal.page_run in *.
  cbn [fold_left].
  change (Internal.page_step props clock
            (Internal.page_step props clock
               {| world := w; committed := render w |} (Dispatch ev)) Commit)
    with {| world := step w ev; committed := render (step w ev) |}.
  rewrite IH. reflexivity.
Qed.

Lemma dispatch_send_blocked (c : Closure) (w : World) :
  trim (c_inputMessage c) = [] \/ c_isLoading c = true ->
  Internal.dispatch props clock c w SendClick = w.
Proof.
  intros H. apply guard_blocks in H.
  unfold Internal.dispatch, handleSendMessage. rewrite H.
  cbn [ret spawn]. apply setInflight_same.
Qed.

Lemma dispatch_key (c : Closure) (w : World) (e : KeyboardEvent) :
  Internal.dispatch props clock c w (KeyPress e) =
    if jsstring_eqb (key e) (lit "Enter") && negb (shiftKey e)
    then Internal.dispatch props clock c w SendClick else w.
Proof.
  unfold Internal.dispatch, handleKeyPress.
  destruct (jsstring_eqb (key e) (lit "Enter") && negb (shiftKey e)).
  - unfold bind.
    destruct (handleSendMessage props clock c w) as [[p|err] w1].
    + reflexivity.
    + cbn [spawn]. symmetry. apply setInflight_same.
  - cbn [ret spawn]. apply setInflight_same.
Qed.

(** What one event appends to the message list, whatever render its
    handlers closed over: nothing, one message, or the reply followed by
    the apology, and this only when the host's callback threw. *)
Lemma dispatch_appends (c : Closure) (w : World) (e : Event) :
  exists added,
    messages (Internal.dispatch props clock c w e) = messages w ++ added /\
    (added = [] \/
     (exists m, added = [m]) \/
     (exists reply cb d err,
        added = [reply;
                 botMessage_at props clock (VString apology_text)
                   (2 + clockReads w)] /\
        onSaveMessage props = Some cb /\ cb d = Throws err)).
Proof.
  assert (Hsend : exists added,
             messages (Internal.dispatch props clock c w SendClick)
               = messages w ++ added /\
             (added = [] \/
              (exists m, added = [m]) \/
              (exists reply cb d err,
                 added = [reply;
                          botMessage_at props clock (VString apology_text)
                            (2 + clockReads w)] /\
                 onSaveMessage props = Some cb /\ cb d = Throws err))).
  { destruct (list_eq_dec N.eq_dec (trim (c_inputMessage c)) []) as [E|E].
    - rewrite dispatch_send_blocked by auto.
      exists []. rewrite app_nil_r. auto.
    - destruct (c_isLoading c) eqn:Hl.
      + rewrite dispatch_send_blocked by auto.
        exists []. rewrite app_nil_r. auto.
      + rewrite dispatch_send_passes by assumption. cbn [messages].
        eexists. split; [reflexivity|]. right. left. eexists. reflexivity. }
  assert (Hnone : exists added,
             messages w = messages w ++ added /\
             (added = [] \/
              (exists m, added = [m]) \/
              (exists reply cb d err,
                 added = [reply;
                          botMessage_at props clock (VString apology_text)
                            (2 + clockReads w)] /\
                 onSaveMessage props = Some cb /\ cb d = Throws err))).
  { exists []. rewrite app_nil_r. auto. }
  destruct e as [|v|k| |i r|i r].
  - destruct w; exact Hnone.
  - destruct w; exact Hnone.
  - rewrite dispatch_key.
    destruct (jsstring_eqb (key k) (lit "Enter") && negb (shiftKey k));
      [exact Hsend|exact Hnone].
  - exact Hsend.
  - unfold Internal.dispatch.
    destruct (nth_error (inflight w) i) as [[s [|]]|]; try exact Hnone.
    unfold resume, try_json.
    destruct r as [res|err]; [destruct (ok res)|].
    + destruct w; exact Hnone.
    + destruct w; cbn; eexists; split; [reflexivity|].
      right; left; eexists; reflexivity.
    + destruct w; cbn; eexists; split; [reflexivity|].
      right; left; eexists; reflexivity.
  - unfold Internal.dispatch.
    destruct (nth_error (inflight w) i) as [[s [|]]|]; try exact Hnone.
    unfold resume, try_reply.
    destruct r as [data|err];
      [|destruct w; cbn; eexists; split; [reflexivity|];
        right; left; eexists; reflexivity].
    destruct (answer_of data) as [a|err];
      [|destruct w; cbn; eexists; split; [reflexivity|];
        right; left; eexists; reflexivity].
    destruct (onSaveMessage props) as [cb|] eqn:C;
      [|destruct w; cbn; eexists; split; [reflexivity|];
        right; left; eexists; reflexivity].
    destruct (cb {| question := trim s;
                    answer := or_else a (VString fallback_text);
                    userId := id (user props) |}) eqn:R.
    + destruct w; cbn. unfold call_onSaveMessage, bind; cbn.
      rewrite R. cbn. eexists. split; [reflexivity|].
      right; left; eexists; reflexivity.
    + destruct w; cbn. unfold call_onSaveMessage, bind; cbn.
      rewrite R. cbn. rewrite <- app_assoc.
      eexists. split; [reflexivity|].
      right; right. eexists. exists cb. eexists. eexists.
      split; [reflexivity|]. split; [reflexivity|exact R].
Qed.

Lemma page_run_appends (actions : list Action) : forall p : Page,
  exists added,
    messages (world (Internal.page_run props clock p actions))
    = messages (world p) ++ added.
Proof.
  induction actions as [|a actions IH]; intros p.
  - exists []. symmetry. apply app_nil_r.
  - unfold Internal.page_run in *. cbn [fold_left].
    destruct (IH (Internal.page_step props clock p a)) as (a2 & H2).
    rewrite H2. destruct a as [ev|].
    + cbn [Internal.page_step world].
      destruct (dispatch_appends (committed p) (world p) ev) as (a1 & H1 & _).
      rewrite H1. exists (a1 ++ a2). symmetry. apply app_assoc.
    + exists a2. reflexivity.
Qed.

End Component.

End InternalFacts.

(** ** The paired-entry variant, step by step *)

Module PairedFacts.
Import Paired.

Section Component.

Variable props : ChatbotProps.
Variable clock : nat -> Z.

Local Notation "'step'" := (Paired.step props clock).
Local Notation "'run'" := (Paired.run props clock).

Lemma paired_setInflight_same (w : World) : setInflight (inflight w) w = w.
Proof. destruct w; reflexivity. Qed.

Lemma paired_handleSendMessage_blocked (w : World) :
  trim (inputMessage w) = [] \/ isLoading w = true ->
  handleSendMessage props clock (render w) w = (Normal (Finished, []), w).
Proof.
  intros H. apply guard_blocks in H. unfold handleSendMessage.
  cbn [render c_inputMessage c_isLoading]. rewrite H. reflexivity.
Qed.

Lemma paired_step_send_blocked (w : World) :
  trim (inputMessage w) = [] \/ isLoading w = true ->
  step w SendClick = w.
Proof.
  intros H. unfold Paired.step, Paired.dispatch.
  rewrite (paired_handleSendMessage_blocked w H). cbn [spawn].
  apply paired_setInflight_same.
Qed.

Lemma paired_step_key (w : World) (e : KeyboardEvent) :
  step w (KeyPress e) =
    if jsstring_eqb (key e) (lit "Enter") && negb (shiftKey e)
    then step w SendClick else w.
Proof.
  unfold Paired.step, Paired.dispatch, handleKeyPress.
  destruct (jsstring_eqb (key e) (lit "Enter") && negb (shiftKey e)).
  - unfold bind.
    destruct (handleSendMessage props clock (render w) w) as [[p|err] w1].
    + reflexivity.
    + cbn [spawn]. symmetry. apply paired_setInflight_same.
  - cbn [ret spawn]. apply paired_setInflight_same.
Qed.

Lemma paired_step_send_passes (w : World) :
  trim (inputMessage w) <> [] -> isLoading w = false ->
  step w SendClick =
    {| isOpen := isOpen w;
       conversation := conversation w;
       inputMessage := [];
       isLoading := true;
       inflight :=
         inflight w ++ [{| act_userMessage := trim (inputMessage w);
                           act_stage := AwaitFetch |}];
       fetchLog :=
         fetchLog w ++ [request_at props clock (inputMessage w) (clockReads w)];
       hostLog := hostLog w;
       consoleLog := consoleLog w;
       clockReads := S (clockReads w) |}.
Proof.
  intros Hs Hl. pose proof (conj Hs Hl) as G. apply guard_passes in G.
  unfold Paired.step, Paired.dispatch, handleSendMessage.
  cbn [render c_inputMessage c_isLoading]. rewrite G.
  destruct w; reflexivity.
Qed.

Lemma paired_step_ui_pending (w : World) (e : Event) :
  isLoading w = true -> ui_event e = true -> same_exchange w (step w e).
Proof.
  intros Hl He. unfold same_exchange.
  destruct e; try discriminate He.
  - destruct w; cbn; repeat split; reflexivity.
  - destruct w; cbn; repeat split; reflexivity.
  - rewrite paired_step_key.
    destruct (jsstring_eqb (key e) (lit "Enter") && negb (shiftKey e));
      [rewrite paired_step_send_blocked by auto|]; repeat split; reflexivity.
  - rewrite paired_step_send_blocked by auto. repeat split; reflexivity.
Qed.

Lemma paired_run_ui_pending (evs : list Event) : forall w : World,
  isLoading w = true -> forallb ui_event evs = true ->
  same_exchange w (run w evs).
Proof.
  induction evs as [|e evs IH]; intros w Hl Hu.
  - unfold same_exchange; repeat split; reflexivity.
  - cbn in Hu. apply andb_true_iff in Hu as [He Hu].
    destruct (paired_step_ui_pending w e Hl He) as (A & B & C & D & E & F & G).
    assert (Hl' : isLoading (step w e) = true) by congruence.
    destruct (IH (step w e) Hl' Hu) as (A' & B' & C' & D' & E' & F' & G').
    cbn [Paired.run fold_left] in *. unfold Paired.run in *.
    unfold same_exchange; repeat split; congruence.
Qed.

Lemma paired_step_fetch_fails (w : World) (i : nat) (s : jsstring)
    (r : Settled Response) :
  nth_error (inflight w) i
    = Some {| act_userMessage := s; act_stage := AwaitFetch |} ->
  fetch_failed r = true ->
  step w (FetchSettles i r) =
    {| isOpen := isOpen w;
       conversation :=
         conversation w
           ++ [entry_at clock s (VString apology_text) (clockReads w)];
       inputMessage := inputMessage w;
       isLoading := false;
       inflight := firstn i (inflight w) ++ skipn (S i) (inflight w);
       fetchLog := fetchLog w;
       hostLog :=
         hostLog w
           ++ [CallSetConversation
                 (fun prev =>
                    prev ++ [entry_at clock s (VString apology_text)
                               (clockReads w)])];
       consoleLog := consoleLog w ++ [failure_of r];
       clockReads := S (clockReads w) |}.
Proof.
  intros Hn Hf. unfold Paired.step, Paired.dispatch. rewrite Hn.
  destruct r as [res|err]; cbn in Hf.
  - unfold resume, try_json. rewrite Hf. destruct w; reflexivity.
  - destruct w; reflexivity.
Qed.

Lemma paired_step_fetch_ok (w : World) (i : nat) (s : jsstring)
    (res : Response) :
  nth_error (inflight w) i
    = Some {| act_userMessage := s; act_stage := AwaitFetch |} ->
  ok res = true ->
  step w (FetchSettles i (Fulfilled res)) =
    setInflight
      (firstn i (inflight w)
         ++ {| act_userMessage := s; act_stage := AwaitJson |}
         :: skipn (S i) (inflight w)) w.
Proof.
  intros Hn Hk. unfold Paired.step, Paired.dispatch. rewrite Hn.
  unfold resume, try_json. rewrite Hk. destruct w; reflexivity.
Qed.

Lemma paired_step_json_reply (w : World) (i : nat) (s : jsstring)
    (data a : value) :
  nth_error (inflight w) i
    = Some {| act_userMessage := s; act_stage := AwaitJson |} ->
  answer_of data = Fulfilled a ->
  step w (JsonSettles i (Fulfilled data)) =
    {| isOpen := isOpen w;
       conversation :=
         conversation w
           ++ [entry_at clock s (or_else a (VString fallback_text))
                 (clockReads w)];
       inputMessage := inputMessage w;
       isLoading := false;
       inflight := firstn i (inflight w) ++ skipn (S i) (inflight w);
       fetchLog := fetchLog w;
       hostLog :=
         hostLog w
           ++ [CallSetConversation
                 (fun prev =>
                    prev ++ [entry_at clock s
                               (or_else a (VString fallback_text))
                               (clockReads w)])];
       consoleLog := consoleLog w;
       clockReads := S (clockReads w) |}.
Proof.
  intros Hn Ha. unfold Paired.step, Paired.dispatch. rewrite Hn.
  unfold resume, try_reply. rewrite Ha. destruct w; reflexivity.
Qed.

Lemma paired_step_json_throws (w : World) (i : nat) (s : jsstring)
    (r : Settled value) (err : Thrown) :
  nth_error (inflight w) i
    = Some {| act_userMessage := s; act_stage := AwaitJson |} ->
  reply_throws r = Some err ->
  step w (JsonSettles i r) =
    {| isOpen := isOpen w;
       conversation :=
         conversation w
           ++ [entry_at clock s (VString apology_text) (clockReads w)];
       inputMessage := inputMessage w;
       isLoading := false;
       inflight := firstn i (inflight w) ++ skipn (S i) (inflight w);
       fetchLog := fetchLog w;
       hostLog :=
         hostLog w
           ++ [CallSetConversation
                 (fun prev =>
                    prev ++ [entry_at clock s (VString apology_text)
                               (clockReads w)])];
       consoleLog := consoleLog w ++ [err];
       clockReads := S (clockReads w) |}.
Proof.
  intros Hn Hr. unfold Paired.step, Paired.dispatch. rewrite Hn.
  unfold resume, try_reply. destruct r as [data|e]; cbn in Hr.
  - destruct (answer_of data) as [a|e]; [discriminate|].
    injection Hr as ->. destruct w; reflexivity.
  - injection Hr as ->. destruct w; reflexivity.
Qed.

(** *** The pending flag and the suspended activations *)

Lemma paired_step_locked (w : World) (e : Event) :
  locked w -> locked (step w e).
Proof.
  intros L.
  assert (Hsend : locked (step w SendClick)).
  { destruct (list_eq_dec N.eq_dec (trim (inputMessage w)) []) as [E|E].
    - rewrite paired_step_send_blocked by auto. exact L.
    - destruct L as [[Hl Hi]|[Hl Hi]].
      + rewrite paired_step_send_passes by assumption. right. cbn.
        rewrite Hi. split; [reflexivity|eexists; reflexivity].
      + rewrite paired_step_send_blocked by auto. right; auto. }
  pose proof L as L0.
  destruct e as [|v|k| |i r|i r].
  - destruct w; exact L.
  - destruct w; exact L.
  - rewrite paired_step_key.
    destruct (jsstring_eqb (key k) (lit "Enter") && negb (shiftKey k)); auto.
  - exact Hsend.
  - destruct L as [[Hl Hi]|[Hl [a Hi]]].
    + unfold Paired.step, Paired.dispatch. rewrite Hi. destruct i; cbn; exact L0.
    + destruct i as [|i].
      * destruct a as [s [|]].
        -- destruct (fetch_failed r) eqn:F.
           ++ rewrite (paired_step_fetch_fails w 0 s r)
                by (try rewrite Hi; auto).
              left. cbn. rewrite Hi. split; reflexivity.
           ++ destruct r as [res|err]; [|discriminate].
              cbn in F. apply negb_false_iff in F.
              rewrite (paired_step_fetch_ok w 0 s res)
                by (try rewrite Hi; auto).
              right. destruct w; cbn in *. subst. split; eauto.
        -- unfold Paired.step, Paired.dispatch. rewrite Hi. cbn. exact L0.
      * unfold Paired.step, Paired.dispatch. rewrite Hi. destruct i; cbn; exact L0.
  - destruct L as [[Hl Hi]|[Hl [a Hi]]].
    + unfold Paired.step, Paired.dispatch. rewrite Hi. destruct i; cbn; exact L0.
    + destruct i as [|i].
      * destruct a as [s [|]].
        -- unfold Paired.step, Paired.dispatch. rewrite Hi. cbn. exact L0.
        -- assert (Hn : nth_error (inflight w) 0
                     = Some {| act_userMessage := s; act_stage := AwaitJson |})
             by (rewrite Hi; auto).
           destruct (reply_throws r) as [err|] eqn:T.
           ++ rewrite (paired_step_json_throws w 0 s r err Hn T).
              left. cbn. rewrite Hi. split; reflexivity.
           ++ destruct r as [data|err]; [|discriminate].
              cbn in T. destruct (answer_of data) as [a|err] eqn:A;
                [|discriminate].
              rewrite (paired_step_json_reply w 0 s data a Hn A).
              left. cbn. rewrite Hi. split; reflexivity.
      * unfold Paired.step, Paired.dispatch. rewrite Hi. destruct i; cbn; exact L0.
Qed.

Lemma paired_run_locked (evs : list Event) : forall w : World,
  locked w -> locked (run w evs).
Proof.
  induction evs as [|e evs IH]; intros w L; [exact L|].
  cbn. apply IH, paired_step_locked, L.
Qed.

Lemma paired_idle_inflight (conversation0 : list ConversationEntry)
    (evs : list Event) :
  isLoading (run (mount conversation0) evs) = false ->
  inflight (run (mount conversation0) evs) = [].
Proof.
  intros Hl.
  assert (L : locked (run (mount conversation0) evs)).
  { apply paired_run_locked. left. split; reflexivity. }
  destruct L as [[_ H]|[H _]]; [exact H|congruence].
Qed.

Lemma paired_step_calls (w : World) (e : Event) :
  fetchLog (step w e) = fetchLog w \/
  (isLoading w = false /\
   exists req s,
     fetchLog (step w e) = fetchLog w ++ [req] /\
     inflight (step w e)
       = inflight w ++ [{| act_userMessage := s; act_stage := AwaitFetch |}]).
Proof.
  assert (Hsend :
    fetchLog (step w SendClick) = fetchLog w \/
    (isLoading w = false /\
     exists req s,
       fetchLog (step w SendClick) = fetchLog w ++ [req] /\
       inflight (step w SendClick)
         = inflight w
             ++ [{| act_userMessage := s; act_stage := AwaitFetch |}])).
  { destruct (list_eq_dec N.eq_dec (trim (inputMessage w)) []) as [E|E].
    - left. rewrite paired_step_send_blocked by auto. reflexivity.
    - destruct (isLoading w) eqn:Hl.
      + left. rewrite paired_step_send_blocked by auto. reflexivity.
      + right. split; [reflexivity|].
        rewrite paired_step_send_passes by assumption. cbn. eauto. }
  destruct e as [|v|k| |i r|i r].
  - left. destruct w; reflexivity.
  - left. destruct w; reflexivity.
  - rewrite paired_step_key.
    destruct (jsstring_eqb (key k) (lit "Enter") && negb (shiftKey k)); auto.
  - exact Hsend.
  - left. unfold Paired.step, Paired.dispatch.
    destruct (nth_error (inflight w) i) as [[s [|]]|]; try reflexivity.
    unfold resume, try_json.
    destruct r as [res|err]; [destruct (ok res)|]; destruct w; reflexivity.
  - left. unfold Paired.step, Paired.dispatch.
    destruct (nth_error (inflight w) i) as [[s [|]]|]; try reflexivity.
    unfold resume, try_reply.
    destruct r as [data|err]; [|destruct w; reflexivity].
    destruct (answer_of data); destruct w; reflexivity.
Qed.

(** *** The conversation and the host *)

(** Every step leaves the conversation as it was or appends one entry. *)
Lemma paired_step_appends (w : World) (e : Event) :
  conversation (step w e) = conversation w \/
  exists entry, conversation (step w e) = conversation w ++ [entry].
Proof.
  assert (Hsend : conversation (step w SendClick) = conversation w).
  { destruct (list_eq_dec N.eq_dec (trim (inputMessage w)) []) as [E|E].
    - rewrite paired_step_send_blocked by auto. reflexivity.
    - destruct (isLoading w) eqn:Hl.
      + rewrite paired_step_send_blocked by auto. reflexivity.
      + rewrite paired_step_send_passes by assumption. reflexivity. }
  destruct e as [|v|k| |i r|i r].
  - left. destruct w; reflexivity.
  - left. destruct w; reflexivity.
  - left. rewrite paired_step_key.
    destruct (jsstring_eqb (key k) (lit "Enter") && negb (shiftKey k)); auto.
  - left. exact Hsend.
  - unfold Paired.step, Paired.dispatch.
    destruct (nth_error (inflight w) i) as [[s [|]]|]; auto.
    unfold resume, try_json.
    destruct r as [res|err]; [destruct (ok res)|]; destruct w; cbn;
      eauto.
  - unfold Paired.step, Paired.dispatch.
    destruct (nth_error (inflight w) i) as [[s [|]]|]; auto.
    unfold resume, try_reply.
    destruct r as [data|err]; [|destruct w; cbn; eauto].
    destruct (answer_of data); destruct w; cbn; eauto.
Qed.

(** Before the settlement that ends the exchange, no step touches the
    conversation or calls the host. *)
Lemma paired_step_before_settle (w : World) (e : Event) :
  before_settle e = true ->
  conversation (step w e) = conversation w /\ hostLog (step w e) = hostLog w.
Proof.
  intros He.
  assert (Hsend : conversation (step w SendClick) = conversation w
                  /\ hostLog (step w SendClick) = hostLog w).
  { destruct (list_eq_dec N.eq_dec (trim (inputMessage w)) []) as [E|E].
    - rewrite paired_step_send_blocked by auto. auto.
    - destruct (isLoading w) eqn:Hl.
      + rewrite paired_step_send_blocked by auto. auto.
      + rewrite paired_step_send_passes by assumption. auto. }
  destruct e as [|v|k| |i r|i r]; try discriminate He.
  - destruct w; auto.
  - destruct w; auto.
  - rewrite paired_step_key.
    destruct (jsstring_eqb (key k) (lit "Enter") && negb (shiftKey k)); auto.
  - exact Hsend.
  - destruct r as [res|err]; [|discriminate He]. cbn in He.
    unfold Paired.step, Paired.dispatch.
    destruct (nth_error (inflight w) i) as [[s [|]]|]; auto.
    unfold resume, try_json. rewrite He. destruct w; auto.
Qed.

Lemma paired_run_before_settle (evs : list Event) : forall w : World,
  forallb before_settle evs = true ->
  conversation (run w evs) = conversation w /\ hostLog (run w evs) = hostLog w.
Proof.
  induction evs as [|e evs IH]; intros w H; [auto|].
  cbn in H. apply andb_true_iff in H as [He H].
  destruct (paired_step_before_settle w e He) as [A B].
  destruct (IH (step w e) H) as [A' B'].
  cbn [Paired.run fold_left] in *. unfold Paired.run in *.
  split; congruence.
Qed.

(** No step of this variant calls a save callback. *)
Lemma paired_step_no_save (w : World) (e : Event) :
  existsb is_save_call (hostLog w) = false ->
  existsb is_save_call (hostLog (step w e)) = false.
Proof.
  intros H.
  destruct e as [|v|k| |i r|i r].
  - destruct w; exact H.
  - destruct w; exact H.
  - destruct (paired_step_before_settle w (KeyPress k) eq_refl) as [_ ->].
    exact H.
  - destruct (paired_step_before_settle w SendClick eq_refl) as [_ ->].
    exact H.
  - unfold Paired.step, Paired.dispatch.
    destruct (nth_error (inflight w) i) as [[s [|]]|]; auto.
    unfold resume, try_json.
    destruct r as [res|err]; [destruct (ok res)|]; destruct w; cbn in *;
      rewrite ?existsb_app, ?H; reflexivity.
  - unfold Paired.step, Paired.dispatch.
    destruct (nth_error (inflight w) i) as [[s [|]]|]; auto.
    unfold resume, try_reply.
    destruct r as [data|err].
    + destruct (answer_of data); destruct w; cbn in *;
        rewrite ?existsb_app, ?H; reflexivity.
    + destruct w; cbn in *; rewrite ?existsb_app, ?H; reflexivity.
Qed.

(** *** Whole exchanges *)

Lemma paired_run_app (evs1 evs2 : list Event) (w : World) :
  run w (evs1 ++ evs2) = run (run w evs1) evs2.
Proof. apply fold_left_app. Qed.

Lemma paired_pending_exchange (w0 : World) (ui : list Event) :
  inflight w0 = [] -> isLoading w0 = false ->
  trim (inputMessage w0) <> [] -> forallb ui_event ui = true ->
  let w := run w0 (SendClick :: ui) in
  conversation w = conversation w0 /\
  isLoading w = true /\
  inflight w
    = [{| act_userMessage := trim (inputMessage w0);
          act_stage := AwaitFetch |}] /\
  fetchLog w
    = fetchLog w0 ++ [request_at props clock (inputMessage w0) (clockReads w0)] /\
  hostLog w = hostLog w0 /\
  consoleLog w = consoleLog w0 /\
  clockReads w = S (clockReads w0).
Proof.
  intros Hi Hl Hs Hu w. subst w. cbn [Paired.run fold_left].
  fold (run (step w0 SendClick) ui).
  assert (Hl1 : isLoading (step w0 SendClick) = true)
    by (rewrite paired_step_send_passes by assumption; reflexivity).
  destruct (paired_run_ui_pending ui _ Hl1 Hu) as (A & B & C & D & E & F & G).
  rewrite A, B, C, D, E, F, G.
  rewrite paired_step_send_passes by assumption. cbn. rewrite Hi.
  repeat split; reflexivity.
Qed.

Lemma paired_failed_exchange (w0 : World) (ui : list Event)
    (r : Settled Response) :
  inflight w0 = [] -> isLoading w0 = false ->
  trim (inputMessage w0) <> [] -> forallb ui_event ui = true ->
  fetch_failed r = true ->
  let w := run w0 (SendClick :: ui ++ [FetchSettles 0 r]) in
  let errorEntry :=
    entry_at clock (trim (inputMessage w0)) (VString apology_text)
      (S (clockReads w0)) in
  conversation w = conversation w0 ++ [errorEntry] /\
  isLoading w = false /\
  inflight w = [] /\
  hostLog w
    = hostLog w0 ++ [CallSetConversation (fun prev => prev ++ [errorEntry])] /\
  consoleLog w = consoleLog w0 ++ [failure_of r].
Proof.
  intros Hi Hl Hs Hu Hf w errorEntry. subst w errorEntry.
  change (SendClick :: ui ++ [FetchSettles 0 r])
    with ((SendClick :: ui) ++ [FetchSettles 0 r]).
  rewrite paired_run_app.
  destruct (paired_pending_exchange w0 ui Hi Hl Hs Hu)
    as (A & B & C & D & E & F & G).
  remember (run w0 (SendClick :: ui)) as w2 eqn:Ew2. clear Ew2.
  cbn [Paired.run fold_left].
  rewrite (paired_step_fetch_fails w2 0 (trim (inputMessage w0)) r)
    by (try rewrite C; auto).
  cbn. rewrite A, C, E, F, G. repeat split; reflexivity.
Qed.

Lemma paired_awaiting_body_exchange (w0 : World) (ui1 ui2 : list Event)
    (res : Response) :
  inflight w0 = [] -> isLoading w0 = false ->
  trim (inputMessage w0) <> [] ->
  forallb ui_event ui1 = true -> forallb ui_event ui2 = true ->
  ok res = true ->
  let w := run w0 (SendClick :: ui1 ++ FetchSettles 0 (Fulfilled res) :: ui2) in
  conversation w = conversation w0 /\
  isLoading w = true /\
  inflight w
    = [{| act_userMessage := trim (inputMessage w0);
          act_stage := AwaitJson |}] /\
  hostLog w = hostLog w0 /\
  consoleLog w = consoleLog w0 /\
  clockReads w = S (clockReads w0).
Proof.
  intros Hi Hl Hs Hu1 Hu2 Hk w. subst w.
  change (SendClick :: ui1 ++ FetchSettles 0 (Fulfilled res) :: ui2)
    with ((SendClick :: ui1) ++ FetchSettles 0 (Fulfilled res) :: ui2).
  rewrite paired_run_app.
  destruct (paired_pending_exchange w0 ui1 Hi Hl Hs Hu1)
    as (A & B & C & D & E & F & G).
  remember (run w0 (SendClick :: ui1)) as w2 eqn:Ew2. clear Ew2.
  cbn [Paired.run fold_left].
  fold (run (step w2 (FetchSettles 0 (Fulfilled res))) ui2).
  assert (E3 : step w2 (FetchSettles 0 (Fulfilled res))
               = setInflight
                   [{| act_userMessage := trim (inputMessage w0);
                       act_stage := AwaitJson |}] w2).
  { rewrite (paired_step_fetch_ok w2 0 (trim (inputMessage w0)) res)
      by (try rewrite C; auto).
    rewrite C. reflexivity. }
  rewrite E3.
  assert (Hl3 : isLoading (setInflight
                   [{| act_userMessage := trim (inputMessage w0);
                       act_stage := AwaitJson |}] w2) = true)
    by (destruct w2; exact B).
  destruct (paired_run_ui_pending ui2 _ Hl3 Hu2)
    as (A' & B' & C' & D' & E' & F' & G').
  rewrite A', B', C', E', F', G'.
  destruct w2; cbn in *. subst. repeat split; reflexivity.
Qed.

(** The host log of an instance never holds a save call. *)
Lemma paired_run_no_save (evs : list Event) : forall w : World,
  existsb is_save_call (hostLog w) = false ->
  existsb is_save_call (hostLog (run w evs)) = false.
Proof.
  induction evs as [|e evs IH]; intros w H; [exact H|].
  cbn. apply IH, paired_step_no_save, H.
Qed.

Lemma paired_run_appends (evs : list Event) : forall w : World,
  exists added, conversation (run w evs) = conversation w ++ added.
Proof.
  induction evs as [|e evs IH]; intros w.
  - exists []. symmetry. apply app_nil_r.
  - destruct (IH (step w e)) as (a2 & H2).
    cbn [Paired.run fold_left] in *. unfold Paired.run in *.
    destruct (paired_step_appends w e) as [H1|(entry & H1)].
    + exists a2. rewrite H2, H1. reflexivity.
    + exists (entry :: a2). rewrite H2, H1, <- app_assoc. reflexivity.
Qed.

(** *** The kinds of step *)

Lemma paired_step_transition (w : World) (e : Event) :
  locked w -> transition props clock w (step w e).
Proof.
  intros L.
  assert (Q : transition props clock w w)
    by (apply t_quiet; reflexivity).
  assert (Hsend : transition props clock w (step w SendClick)).
  { destruct (list_eq_dec N.eq_dec (trim (inputMessage w)) []) as [E|E].
    - rewrite paired_step_send_blocked by auto. exact Q.
    - destruct L as [[Hl Hi]|[Hl Hi]].
      + apply t_submit; try assumption.
        rewrite paired_step_send_passes by assumption. rewrite Hi.
        reflexivity.
      + rewrite paired_step_send_blocked by auto. exact Q. }
  destruct e as [|v|k| |i r|i r].
  - apply t_quiet; destruct w; reflexivity.
  - apply t_quiet; destruct w; reflexivity.
  - rewrite paired_step_key.
    destruct (jsstring_eqb (key k) (lit "Enter") && negb (shiftKey k)); auto.
  - exact Hsend.
  - destruct L as [[Hl Hi]|[Hl [a Hi]]].
    + unfold Paired.step, Paired.dispatch. rewrite Hi. destruct i; cbn; exact Q.
    + destruct i as [|i].
      * destruct a as [s [|]].
        -- destruct (fetch_failed r) eqn:F.
           ++ apply (@t_end props clock _ _ s AwaitFetch
                       (VString apology_text));
                try assumption; auto;
                rewrite (paired_step_fetch_fails w 0 s r)
                  by (try rewrite Hi; auto);
                cbn; try rewrite Hi; reflexivity.
           ++ destruct r as [res|err]; [|discriminate].
              cbn in F. apply negb_false_iff in F.
              apply (@t_response props clock _ _ s); [assumption|].
              rewrite (paired_step_fetch_ok w 0 s res)
                by (try rewrite Hi; auto).
              rewrite Hi. reflexivity.
        -- unfold Paired.step, Paired.dispatch. rewrite Hi. cbn. exact Q.
      * unfold Paired.step, Paired.dispatch. rewrite Hi. destruct i; cbn; exact Q.
  - destruct L as [[Hl Hi]|[Hl [a Hi]]].
    + unfold Paired.step, Paired.dispatch. rewrite Hi. destruct i; cbn; exact Q.
    + destruct i as [|i].
      * destruct a as [s [|]].
        -- unfold Paired.step, Paired.dispatch. rewrite Hi. cbn. exact Q.
        -- assert (Hn : nth_error (inflight w) 0
                     = Some {| act_userMessage := s; act_stage := AwaitJson |})
             by (rewrite Hi; auto).
           destruct (reply_throws r) as [err|] eqn:T.
           ++ apply (@t_end props clock _ _ s AwaitJson
                       (VString apology_text));
                try assumption; auto;
                rewrite (paired_step_json_throws w 0 s r err Hn T);
                cbn; try rewrite Hi; reflexivity.
           ++ destruct r as [data|err]; [|discriminate].
              cbn in T. destruct (answer_of data) as [a|err] eqn:A;
                [|discriminate].
              assert (Ht : truthy (or_else a (VString fallback_text)) = true).
              { unfold or_else. destruct (truthy a) eqn:Ha; auto. }
              apply (@t_end props clock _ _ s AwaitJson
                       (or_else a (VString fallback_text)));
                try assumption; auto;
                rewrite (paired_step_json_reply w 0 s data a Hn A);
                cbn; try rewrite Hi; reflexivity.
      * unfold Paired.step, Paired.dispatch. rewrite Hi. destruct i; cbn; exact Q.
Qed.

Lemma paired_run_invariant (conversation0 : list ConversationEntry)
    (P : World -> Prop) :
  P (mount conversation0) ->
  (forall w w', locked w -> P w -> transition props clock w w' -> P w') ->
  forall evs, P (run (mount conversation0) evs).
Proof.
  intros H0 Hstep evs.
  assert (G : forall w, locked w -> P w -> locked (run w evs) /\ P (run w evs)).
  { induction evs as [|e evs IH]; intros w L Hp; [auto|].
    cbn. apply IH.
    - apply paired_step_locked, L.
    - apply (Hstep w); auto. apply paired_step_transition, L. }
  apply G; [left; split; reflexivity|exact H0].
Qed.

(** *** The open flag *)

Lemma paired_toggle_send_commutes (w : World) :
  step (step w SendClick) ToggleClick = step (step w ToggleClick) SendClick.
Proof.
  destruct w as [o ms s l fl fs hs cs n].
  unfold Paired.step, Paired.dispatch, handleSendMessage. cbn.
  destruct (trim s); destruct l; reflexivity.
Qed.

Lemma paired_toggle_commutes (w : World) (e : Event) :
  step (step w e) ToggleClick = step (step w ToggleClick) e.
Proof.
  destruct e as [|v|k| |i r|i r].
  - reflexivity.
  - destruct w; reflexivity.
  - rewrite !paired_step_key.
    destruct (jsstring_eqb (key k) (lit "Enter") && negb (shiftKey k));
      [apply paired_toggle_send_commutes|reflexivity].
  - apply paired_toggle_send_commutes.
  - destruct w as [o ms s l fl fs hs cs n]. unfold Paired.step, Paired.dispatch. cbn.
    destruct (nth_error fl i) as [[s' [|]]|]; try reflexivity.
    unfold resume, try_json.
    destruct r as [res|err]; [destruct (ok res)|]; reflexivity.
  - destruct w as [o ms s l fl fs hs cs n]. unfold Paired.step, Paired.dispatch. cbn.
    destruct (nth_error fl i) as [[s' [|]]|]; try reflexivity.
    unfold resume, try_reply.
    destruct r as [data|err]; [|reflexivity].
    destruct (answer_of data); reflexivity.
Qed.

(** *** The settlement of the body *)

Lemma paired_json_settle_ends (w : World) (s : jsstring) (r : Settled value) :
  inflight w = [{| act_userMessage := s; act_stage := AwaitJson |}] ->
  let w' := step w (JsonSettles 0 r) in
  isLoading w' = false /\ inflight w' = [] /\
  exists text,
    conversation w'
    = conversation w ++ [entry_at clock s text (clockReads w)].
Proof.
  intros Hi w'. subst w'.
  assert (Hn : nth_error (inflight w) 0
               = Some {| act_userMessage := s; act_stage := AwaitJson |})
    by (rewrite Hi; reflexivity).
  destruct (reply_throws r) as [err|] eqn:T.
  - rewrite (paired_step_json_throws w 0 s r err Hn T). cbn. rewrite Hi.
    repeat split. eexists. reflexivity.
  - destruct r as [data|err]; [|discriminate].
    cbn in T. destruct (answer_of data) as [a|err] eqn:A; [|discriminate].
    rewrite (paired_step_json_reply w 0 s data a Hn A). cbn. rewrite Hi.
    repeat split. eexists. reflexivity.
Qed.

(** An accepted submit, by the handlers of the render [c]: the guard and
    the text are read from [c], whatever the state cells hold by now. *)
Lemma paired_dispatch_send_passes (c : Closure) (w : World) :
  trim (c_inputMessage c) <> [] -> c_isLoading c = false ->
  Paired.dispatch props clock c w SendClick =
    {| isOpen := isOpen w;
       conversation := conversation w;
       inputMessage := [];
       isLoading := true;
       inflight :=
         inflight w ++ [{| act_userMessage := trim (c_inputMessage c);
                           act_stage := AwaitFetch |}];
       fetchLog :=
         fetchLog w
           ++ [request_at props clock (c_inputMessage c) (clockReads w)];
       hostLog := hostLog w;
       consoleLog := consoleLog w;
       clockReads := S (clockReads w) |}.
Proof.
  intros Hs Hl. pose proof (conj Hs Hl) as G. apply guard_passes in G.
  unfold Paired.dispatch, handleSendMessage. rewrite G.
  destruct w; reflexivity.
Qed.

(** An event followed by a commit, on a page whose handlers are those of
    its state, is a [step]. *)
Lemma paired_page_commit_is_step (p : Page) (ev : Event) :
  committed p = render (world p) ->
  Paired.page_step props clock
    (Paired.page_step props clock p (Dispatch ev)) Commit
  = {| world := step (world p) ev;
       committed := render (step (world p) ev) |}.
Proof.
  intros E. unfold Paired.page_step, Paired.step.
  cbn [world committed]. rewrite E. reflexivity.
Qed.

(** A page on which React commits after every event goes through the
    worlds of [run]. *)
Lemma paired_page_run_committed (evs : list Event) : forall w : World,
  Paired.page_run props clock {| world := w; committed := render w |}
    (flat_map (fun ev => [Dispatch ev; Commit]) evs)
  = {| world := run w evs; committed := render (run w evs) |}.
Proof.
  induction evs as [|ev evs IH]; intros w; [reflexivity|].
  cbn [flat_map app]. unfold Paired.page_run in *.
  cbn [fold_left].
  change (Paired.page_step props clock
            (Paired.page_step props clock
               {| world := w; committed := render w |} (Dispatch ev)) Commit)
    with {| world := step w ev; committed := render (step w ev) |}.
  rewrite IH. reflexivity.
Qed.

Lemma paired_dispatch_send_blocked (c : Closure) (w : World) :
  trim (c_inputMessage c) = [] \/ c_isLoading c = true ->
  Paired.dispatch props clock c w SendClick = w.
Proof.
  intros H. apply guard_blocks in H.
  unfold Paired.dispatch, handleSendMessage. rewrite H.
  cbn [ret spawn]. apply paired_setInflight_same.
Qed.

Lemma paired_dispatch_key (c : Closure) (w : World) (e : KeyboardEvent) :
  Paired.dispatch props clock c w (KeyPress e) =
    if jsstring_eqb (key e) (lit "Enter") && negb (shiftKey e)
    then Paired.dispatch props clock c w SendClick else w.
Proof.
  unfold Paired.dispatch, handleKeyPress.
  destruct (jsstring_eqb (key e) (lit "Enter") && negb (shiftKey e)).
  - unfold bind.
    destruct (handleSendMessage props clock c w) as [[p|err] w1].
    + reflexivity.
    + cbn [spawn]. symmetry. apply paired_setInflight_same.
  - cbn [ret spawn]. apply paired_setInflight_same.
Qed.

(** One event leaves the conversation as it was or appends one entry,
    whatever render its handlers closed over. *)
Lemma paired_dispatch_appends (c : Closure) (w : World) (e : Event) :
  conversation (Paired.dispatch props clock c w e) = conversation w \/
  exists entry,
    conversation (Paired.dispatch props clock c w e)
    = conversation w ++ [entry].
Proof.
  assert (Hsend : conversation (Paired.dispatch props clock c w SendClick)
                  = conversation w).
  { destruct (list_eq_dec N.eq_dec (trim (c_inputMessage c)) []) as [E|E].
    - rewrite paired_dispatch_send_blocked by auto. reflexivity.
    - destruct (c_isLoading c) eqn:Hl.
      + rewrite paired_dispatch_send_blocked by auto. reflexivity.
      + rewrite paired_dispatch_send_passes by assumption. reflexivity. }
  destruct e as [|v|k| |i r|i r].
  - left. destruct w; reflexivity.
  - left. destruct w; reflexivity.
  - left. rewrite paired_dispatch_key.
    destruct (jsstring_eqb (key k) (lit "Enter") && negb (shiftKey k)); auto.
  - left. exact Hsend.
  - unfold Paired.dispatch.
    destruct (nth_error (inflight w) i) as [[s [|]]|]; auto.
    unfold resume, try_json.
    destruct r as [res|err]; [destruct (ok res)|]; destruct w; cbn;
      eauto.
  - unfold Paired.dispatch.
    destruct (nth_error (inflight w) i) as [[s [|]]|]; auto.
    unfold resume, try_reply.
    destruct r as [data|err]; [|destruct w; cbn; eauto].
    destruct (answer_of data); destruct w; cbn; eauto.
Qed.

Lemma paired_page_run_appends (actions : list Action) : forall p : Page,
  exists added,
    conversation (world (Paired.page_run props clock p actions))
    = conversation (world p) ++ added.
Proof.
  induction actions as [|a actions IH]; intros p.
  - exists []. symmetry. apply app_nil_r.
  - unfold Paired.page_run in *. cbn [fold_left].
    destruct (IH (Paired.page_step props clock p a)) as (a2 & H2).
    rewrite H2. destruct a as [ev|].
    + cbn [Paired.page_step world].
      destruct (paired_dispatch_appends (committed p) (world p) ev)
        as [H1|(entry & H1)]; rewrite H1.
      * exists a2. reflexivity.
      * exists ([entry] ++ a2). symmetry. apply app_assoc.
    + exists a2. reflexivity.
Qed.

End Component.

End PairedFacts.

(** ** The rendered conversation of the paired-entry variant *)

Module PairedViewFacts.
Import Paired PairedView.

Section Render.

Variable toLocaleTimeString : Date -> jsstring.
Variable toLocaleDateString : Date -> jsstring.

Local Notation "'new_day'" := (PairedView.new_day toLocaleDateString).
Local Notation "'map_entries'" :=
  (PairedView.map_entries toLocaleTimeString toLocaleDateString).

(** At an index inside the list, the element before it is there. *)
Lemma new_day_in_range (pre rest : list ConversationEntry)
    (entry : ConversationEntry) :
  exists show,
    new_day (pre ++ entry :: rest) entry (List.length pre) = Normal show /\
    (pre = [] -> show = true) /\
    (forall d,
       Forall (fun e => toLocaleDateString (entry_time e) = d)
         (pre ++ entry :: rest) ->
       pre <> [] -> show = false).
Proof.
  unfold PairedView.new_day.
  destruct pre as [|p pre'] using rev_ind.
  - exists true. cbn. split; [reflexivity|]. split; [reflexivity|].
    intros d _ H. contradiction.
  - clear IHpre'. rewrite length_app. cbn [List.length].
    replace (List.length pre' + 1 =? 0)%nat with false
      by (symmetry; apply Nat.eqb_neq; lia).
    replace (List.length pre' + 1 - 1)%nat with (List.length pre') by lia.
    rewrite <- app_assoc. rewrite nth_error_app2 by lia.
    rewrite Nat.sub_diag. cbn.
    eexists. split; [reflexivity|]. split.
    + intros E. destruct pre'; discriminate E.
    + intros d H _. rewrite Forall_forall in H.
      unfold formatDate.
      rewrite (H entry), (H p).
      * unfold jsstring_eqb.
        destruct (list_eq_dec N.eq_dec d d); [reflexivity|contradiction].
      * apply in_or_app. right. left. reflexivity.
      * apply in_or_app. right. right. left. reflexivity.
Qed.

(** [conversation.map] never reads outside the list; it yields one
    fragment per entry, in order. *)
Lemma map_entries_total (rest : list ConversationEntry) :
  forall pre : list ConversationEntry,
  exists views,
    map_entries (pre ++ rest) rest (List.length pre) = Normal views /\
    map ev_key views = seq (List.length pre) (List.length rest) /\
    map ev_user_text views = map entry_user rest /\
    map ev_bot_text views = map entry_bot rest /\
    map ev_user_time views
      = map (fun e => toLocaleTimeString (entry_time e)) rest /\
    map ev_bot_time views
      = map (fun e => toLocaleTimeString (entry_time e + 1000)%Z) rest /\
    (pre = [] -> rest <> [] ->
     map ev_separator (firstn 1 views)
       = map (fun e => Some (toLocaleDateString (entry_time e)))
           (firstn 1 rest)) /\
    (forall d,
       Forall (fun e => toLocaleDateString (entry_time e) = d) (pre ++ rest) ->
       map ev_separator views
         = map (fun i => if (i =? 0)%nat then Some d else None)
             (seq (List.length pre) (List.length rest))).
Proof.
  induction rest as [|entry rest IH]; intros pre.
  - exists []. cbn. repeat split; auto.
  - destruct (new_day_in_range pre rest entry) as (show & Hd & Hfirst & Hsame).
    destruct (IH (pre ++ [entry])) as (vs & Hm & K & U & B & UT & BT & _ & Hsep).
    rewrite <- app_assoc in Hm. cbn [app] in Hm.
    rewrite length_app in Hm, K. cbn [List.length] in Hm, K.
    replace (List.length pre + 1)%nat with (S (List.length pre)) in Hm, K
      by lia.
    cbn [PairedView.map_entries]. unfold PairedView.entry_view.
    rewrite Hd, Hm. eexists. split; [reflexivity|].
    cbn [map seq List.length ev_key ev_user_text ev_bot_text ev_user_time
           ev_bot_time ev_separator firstn].
    unfold formatTime, formatDate.
    rewrite K, U, B, UT, BT.
    repeat split; try reflexivity.
    + intros E _. rewrite (Hfirst E). reflexivity.
    + intros d H.
      assert (H2 : Forall (fun e => toLocaleDateString (entry_time e) = d)
                     ((pre ++ [entry]) ++ rest))
        by (rewrite <- app_assoc; exact H).
      rewrite (Hsep d H2), length_app. cbn [List.length].
      replace (List.length pre + 1)%nat with (S (List.length pre)) by lia.
      f_equal.
      pose proof H as H'. rewrite Forall_forall in H'.
      destruct pre as [|p pre'].
      * rewrite (Hfirst eq_refl). cbn. f_equal. apply H'. left. reflexivity.
      * rewrite (Hsame d H) by discriminate. reflexivity.
Qed.

End Render.

End PairedViewFacts.

(** ** What React accepts of the rendered trees *)

Lemma forallb_over_map {A B : Type} (f : B -> bool) (g : A -> B)
    (l : list A) :
  forallb f (map g l) = forallb (fun x => f (g x)) l.
Proof.
  induction l as [|x l IH]; [reflexivity|]. cbn. rewrite IH. reflexivity.
Qed.

Module InternalViewFacts.
Import Internal InternalView.

Section Render.

Variable props : ChatbotProps.
Variable toLocaleTimeString : Date -> jsstring.

Local Notation "'tree'" := (InternalView.tree props toLocaleTimeString).
Local Notation "'jsx'" := (InternalView.jsx props toLocaleTimeString).

(** The open panel is accepted exactly when every message text is a
    valid child; the closed one always. *)
Lemma accepted_tree (w : World) :
  accepted (tree w)
  = negb (isOpen w)
    || forallb (fun m => valid_child (message m)) (messages w).
Proof.
  unfold accepted, InternalView.tree. cbn. destruct (isOpen w); cbn.
  - rewrite forallb_over_map. reflexivity.
  - reflexivity.
Qed.

Lemma jsx_normal (w : World) (v : View) :
  jsx w = Normal v -> v = tree w /\ accepted (tree w) = true.
Proof.
  unfold InternalView.jsx. cbv zeta.
  destruct (accepted (tree w)); [|discriminate].
  intros E. injection E as <-. auto.
Qed.

End Render.

End InternalViewFacts.

Module PairedTreeFacts.
Import Paired PairedView.

Section Render.

Variable props : ChatbotProps.
Variable toLocaleTimeString : Date -> jsstring.
Variable toLocaleDateString : Date -> jsstring.

Local Notation "'tree'" :=
  (PairedView.tree props toLocaleTimeString toLocaleDateString).
Local Notation "'jsx'" :=
  (PairedView.jsx props toLocaleTimeString toLocaleDateString).

(** The component function never throws: it returns the closed toggle,
    or the open panel with one fragment per entry. *)
Lemma paired_tree_total (w : World) :
  exists v,
    tree w = Normal v /\
    match modal v with
    | None => isOpen w = false
    | Some m =>
        isOpen w = true /\
        PairedView.map_entries toLocaleTimeString toLocaleDateString
          (conversation w) (conversation w) 0
        = Normal (entry_views m) /\
        welcome m
        = (if (List.length (conversation w) =? 0)%nat
           then Some (name (user props), PairedView.p_welcomeMessage props)
           else None) /\
        typing_indicator m = isLoading w /\
        input_value m = inputMessage w /\
        input_disabled m = isLoading w /\
        send_disabled m
        = negb (truthy (VString (trim (inputMessage w)))) || isLoading w
    end.
Proof.
  unfold PairedView.tree. destruct (isOpen w) eqn:Ho.
  - destruct (PairedViewFacts.map_entries_total toLocaleTimeString
                toLocaleDateString (conversation w) [])
      as (views & Hm & _).
    cbn in Hm. rewrite Hm. eexists. split; [reflexivity|]. cbn.
    repeat split; reflexivity.
  - eexists. split; reflexivity.
Qed.

Lemma paired_accepted_tree (w : World) (v : View) :
  tree w = Normal v ->
  accepted v
  = negb (isOpen w)
    || forallb (fun e => valid_child (entry_bot e)) (conversation w).
Proof.
  intros Hv. destruct (paired_tree_total w) as (v' & Hv' & Hm).
  rewrite Hv in Hv'. injection Hv' as <-.
  unfold accepted. destruct (modal v) as [m|].
  - destruct Hm as (Ho & Hme & _). rewrite Ho. cbn.
    destruct (PairedViewFacts.map_entries_total toLocaleTimeString
                toLocaleDateString (conversation w) [])
      as (views & Hm' & _ & _ & B & _).
    cbn in Hm'. rewrite Hme in Hm'. injection Hm' as <-.
    rewrite <- (forallb_over_map valid_child ev_bot_text), B.
    apply forallb_over_map.
  - rewrite Hm. reflexivity.
Qed.

Lemma paired_jsx_normal (w : World) (v : View) :
  jsx w = Normal v -> tree w = Normal v /\ accepted v = true.
Proof.
  unfold PairedView.jsx. destruct (tree w) as [v'|e]; [|discriminate].
  destruct (accepted v') eqn:A; [|discriminate].
  intros E. injection E as <-. auto.
Qed.

End Render.

End PairedTreeFacts.

(** ** The properties of the exchange lifecycle *)

(** *** Guarding the submit action *)

(** The guard when React commits between the events.  Along every
    sequence of events of a mounted instance, of either variant, each
    handled by the handlers of the latest render, at most one activation
    of [handleSendMessage] is suspended on the network at any time, and
    the pending flag is set exactly then.  While the flag is set a submit
    trigger (the send button or a key press) issues no call; and a step
    that does issue a call starts with no call outstanding, issues
    exactly one, and suspends on it. *)
Lemma one_call_between_commits :
  (forall props clock evs,
     let w := Internal.run props clock (Internal.mount props) evs in
     (List.length (Internal.inflight w) <= 1)%nat /\
     (Internal.isLoading w = true <-> Internal.inflight w <> []) /\
     (forall e, submit_trigger e = true -> Internal.isLoading w = true ->
        Internal.fetchLog (Internal.step props clock w e)
          = Internal.fetchLog w /\
        Internal.inflight (Internal.step props clock w e)
          = Internal.inflight w) /\
     (forall e,
        Internal.fetchLog (Internal.step props clock w e)
          <> Internal.fetchLog w ->
        Internal.inflight w = [] /\
        exists req a,
          Internal.fetchLog (Internal.step props clock w e)
            = Internal.fetchLog w ++ [req] /\
          Internal.inflight (Internal.step props clock w e) = [a])) /\
  (forall props clock conversation0 evs,
     let w := Paired.run props clock (Paired.mount conversation0) evs in
     (List.length (Paired.inflight w) <= 1)%nat /\
     (Paired.isLoading w = true <-> Paired.inflight w <> []) /\
     (forall e, submit_trigger e = true -> Paired.isLoading w = true ->
        Paired.fetchLog (Paired.step props clock w e) = Paired.fetchLog w /\
        Paired.inflight (Paired.step props clock w e) = Paired.inflight w) /\
     (forall e,
        Paired.fetchLog (Paired.step props clock w e) <> Paired.fetchLog w ->
        Paired.inflight w = [] /\
        exists req a,
          Paired.fetchLog (Paired.step props clock w e)
            = Paired.fetchLog w ++ [req] /\
          Paired.inflight (Paired.step props clock w e) = [a])).
Proof.
  split.
  - intros props clock evs w.
    assert (L : Internal.locked w)
      by apply InternalFacts.run_locked, InternalFacts.mount_locked.
    repeat split.
    + destruct L as [[_ ->]|[_ [a ->]]]; cbn; lia.
    + destruct L as [[Hl Hi]|[Hl [a Hi]]]; intros H; congruence.
    + destruct L as [[Hl Hi]|[Hl [a Hi]]]; intros H; [|exact Hl].
      contradiction.
    + destruct e; try discriminate;
        apply (InternalFacts.step_ui_pending props clock w); auto.
    + destruct e; try discriminate;
        apply (InternalFacts.step_ui_pending props clock w); auto.
    + destruct (InternalFacts.step_calls props clock w e)
        as [E|(Hl & _)]; [contradiction|].
      destruct L as [[_ Hi]|[Hl' _]]; congruence.
    + destruct (InternalFacts.step_calls props clock w e)
        as [E|(Hl & req & s & E1 & E2)]; [contradiction|].
      destruct L as [[_ Hi]|[Hl' _]]; [|congruence].
      rewrite Hi in E2. eauto.
  - intros props clock conversation0 evs w.
    assert (L : Paired.locked w).
    { apply PairedFacts.paired_run_locked. left. split; reflexivity. }
    repeat split.
    + destruct L as [[_ ->]|[_ [a ->]]]; cbn; lia.
    + destruct L as [[Hl Hi]|[Hl [a Hi]]]; intros H; congruence.
    + destruct L as [[Hl Hi]|[Hl [a Hi]]]; intros H; [|exact Hl].
      contradiction.
    + destruct e; try discriminate;
        apply (PairedFacts.paired_step_ui_pending props clock w); auto.
    + destruct e; try discriminate;
        apply (PairedFacts.paired_step_ui_pending props clock w); auto.
    + destruct (PairedFacts.paired_step_calls props clock w e)
        as [E|(Hl & _)]; [contradiction|].
      destruct L as [[_ Hi]|[Hl' _]]; congruence.
    + destruct (PairedFacts.paired_step_calls props clock w e)
        as [E|(Hl & req & s & E1 & E2)]; [contradiction|].
      destruct L as [[_ Hi]|[Hl' _]]; [|congruence].
      rewrite Hi in E2. eauto.
Qed.

(** C1, where the code breaks it.  The guard of [handleSendMessage]
    reads the pending flag of the render its handler closed over, and
    [setIsLoading(true)] only schedules the next render.  So when two
    submit triggers reach the handlers of one render, before React
    commits, both pass the guard although the first has set the flag:
    two requests are issued, with the same text, and two activations are
    suspended on the network at once.  In the internal-state variant the
    user's message is echoed twice as well. *)
Theorem stale_guard_lets_two_calls_out :
  (forall props clock (p : Internal.Page),
     trim (Internal.c_inputMessage (Internal.committed p)) <> [] ->
     Internal.c_isLoading (Internal.committed p) = false ->
     let s := Internal.c_inputMessage (Internal.committed p) in
     let n := Internal.clockReads (Internal.world p) in
     let p1 := Internal.page_step props clock p (Dispatch SendClick) in
     let p2 := Internal.page_step props clock p1 (Dispatch SendClick) in
     Internal.isLoading (Internal.world p1) = true /\
     Internal.fetchLog (Internal.world p2)
       = Internal.fetchLog (Internal.world p)
           ++ [Internal.request_at props clock s (2 + n);
               Internal.request_at props clock s (5 + n)] /\
     Internal.inflight (Internal.world p2)
       = Internal.inflight (Internal.world p)
           ++ [{| Internal.act_inputMessage := s;
                  Internal.act_stage := AwaitFetch |};
               {| Internal.act_inputMessage := s;
                  Internal.act_stage := AwaitFetch |}] /\
     Internal.messages (Internal.world p2)
       = Internal.messages (Internal.world p)
           ++ [Internal.userMessage_at props clock s n;
               Internal.userMessage_at props clock s (3 + n)]) /\
  (forall props clock (p : Paired.Page),
     trim (Paired.c_inputMessage (Paired.committed p)) <> [] ->
     Paired.c_isLoading (Paired.committed p) = false ->
     let s := Paired.c_inputMessage (Paired.committed p) in
     let n := Paired.clockReads (Paired.world p) in
     let p1 := Paired.page_step props clock p (Dispatch SendClick) in
     let p2 := Paired.page_step props clock p1 (Dispatch SendClick) in
     Paired.isLoading (Paired.world p1) = true /\
     Paired.fetchLog (Paired.world p2)
       = Paired.fetchLog (Paired.world p)
           ++ [Paired.request_at props clock s n;
               Paired.request_at props clock s (1 + n)] /\
     Paired.inflight (Paired.world p2)
       = Paired.inflight (Paired.world p)
           ++ [{| Paired.act_userMessage := trim s;
                  Paired.act_stage := AwaitFetch |};
               {| Paired.act_userMessage := trim s;
                  Paired.act_stage := AwaitFetch |}]).
Proof.
  split.
  - intros props clock [w c] Hs Hl. cbn [Internal.committed Internal.world] in *.
    cbv zeta. unfold Internal.page_step.
    cbn [Internal.committed Internal.world].
    rewrite (InternalFacts.dispatch_send_passes props clock c w Hs Hl).
    rewrite (InternalFacts.dispatch_send_passes props clock c _ Hs Hl).
    cbn [Internal.isLoading Internal.fetchLog Internal.inflight
           Internal.messages Internal.clockReads].
    rewrite <- !app_assoc. cbn [app plus]. auto.
  - intros props clock [w c] Hs Hl. cbn [Paired.committed Paired.world] in *.
    cbv zeta. unfold Paired.page_step.
    cbn [Paired.committed Paired.world].
    rewrite (PairedFacts.paired_dispatch_send_passes props clock c w Hs Hl).
    rewrite (PairedFacts.paired_dispatch_send_passes props clock c _ Hs Hl).
    cbn [Paired.isLoading Paired.fetchLog Paired.inflight
           Paired.clockReads].
    rewrite <- !app_assoc. cbn [app plus]. auto.
Qed.

(** "hello" typed and committed, then two clicks on the send button
    before React commits again: two requests are out. *)
Lemma stale_guard_lets_two_calls_out_witness :
  let props := Demo.props None in
  let p :=
    Internal.page_run props Demo.clock (Internal.mount_page props)
      [Dispatch (InputChange (lit "hello")); Commit] in
  let p2 :=
    Internal.page_run props Demo.clock p
      [Dispatch SendClick; Dispatch SendClick] in
  List.length (Internal.fetchLog (Internal.world p2)) = 2%nat /\
  List.length (Internal.inflight (Internal.world p2)) = 2%nat /\
  map Internal.message (Internal.messages (Internal.world p2))
  = [VString (lit "hello"); VString (lit "hello")].
Proof.
  cbv zeta.
  destruct (proj1 stale_guard_lets_two_calls_out (Demo.props None)
              Demo.clock
              (Internal.page_run (Demo.props None) Demo.clock
                 (Internal.mount_page (Demo.props None))
                 [Dispatch (InputChange (lit "hello")); Commit])
              ltac:(discriminate) eq_refl)
    as (_ & F & I & M).
  unfold Internal.page_run at 1 3 5. cbn [fold_left].
  rewrite F, I, M. repeat split; reflexivity.
Defined.



(** C7, as the code has it.  A key press triggers the submit action
    exactly when the key is Enter and Shift is not held: then the event's
    default is prevented and the step is the step of the send button;
    otherwise the handler does nothing.  Ctrl, Alt and Meta are not read. *)
Theorem enter_without_shift_submits :
  (forall props clock (w : Internal.World) (e : KeyboardEvent),
     (key e = lit "Enter" /\ shiftKey e = false ->
      Internal.handleKeyPress props clock (Internal.render w) e
        = (p <- Internal.handleSendMessage props clock (Internal.render w) ;;
           ret (preventDefault e, p)) /\
      Internal.step props clock w (KeyPress e)
        = Internal.step props clock w SendClick) /\
     (~ (key e = lit "Enter" /\ shiftKey e = false) ->
      Internal.handleKeyPress props clock (Internal.render w) e
        = ret (e, Finished) /\
      Internal.step props clock w (KeyPress e) = w)) /\
  (forall props clock (w : Paired.World) (e : KeyboardEvent),
     (key e = lit "Enter" /\ shiftKey e = false ->
      Paired.handleKeyPress props clock (Paired.render w) e
        = (p <- Paired.handleSendMessage props clock (Paired.render w) ;;
           ret (preventDefault e, p)) /\
      Paired.step props clock w (KeyPress e)
        = Paired.step props clock w SendClick) /\
     (~ (key e = lit "Enter" /\ shiftKey e = false) ->
      Paired.handleKeyPress props clock (Paired.render w) e
        = ret (e, (Finished, [])) /\
      Paired.step props clock w (KeyPress e) = w)).
Proof.
  assert (Hyes : forall e, key e = lit "Enter" /\ shiftKey e = false ->
            jsstring_eqb (key e) (lit "Enter") && negb (shiftKey e) = true).
  { intros e [Hk Hs]. apply jsstring_eqb_eq in Hk. rewrite Hk, Hs.
    reflexivity. }
  assert (Hno : forall e, ~ (key e = lit "Enter" /\ shiftKey e = false) ->
            jsstring_eqb (key e) (lit "Enter") && negb (shiftKey e) = false).
  { intros e H.
    destruct (jsstring_eqb (key e) (lit "Enter")) eqn:Hk; [|reflexivity].
    destruct (shiftKey e) eqn:Hs; [reflexivity|].
    exfalso. apply H. split; [apply jsstring_eqb_eq, Hk|reflexivity]. }
  split; intros props clock w e; split; intros H.
  - split.
    + unfold Internal.handleKeyPress. rewrite (Hyes e H). reflexivity.
    + rewrite InternalFacts.step_key, (Hyes e H). reflexivity.
  - split.
    + unfold Internal.handleKeyPress. rewrite (Hno e H). reflexivity.
    + rewrite InternalFacts.step_key, (Hno e H). reflexivity.
  - split.
    + unfold Paired.handleKeyPress. rewrite (Hyes e H). reflexivity.
    + rewrite PairedFacts.paired_step_key, (Hyes e H). reflexivity.
  - split.
    + unfold Paired.handleKeyPress. rewrite (Hno e H). reflexivity.
    + rewrite PairedFacts.paired_step_key, (Hno e H). reflexivity.
Qed.

(** Enter alone submits "hello"; Shift+Enter leaves the world as it is. *)
Lemma enter_without_shift_submits_witness :
  Internal.step (Demo.props None) Demo.clock (Demo.typed None)
    (KeyPress (Demo.enter false false))
  = Internal.step (Demo.props None) Demo.clock (Demo.typed None) SendClick
  /\
  Paired.step Demo.paired_props Demo.clock Demo.paired_typed
    (KeyPress (Demo.enter true false))
  = Demo.paired_typed.
Proof.
  split.
  - apply (proj1 enter_without_shift_submits (Demo.props None) Demo.clock
             (Demo.typed None) (Demo.enter false false)).
    split; reflexivity.
  - apply (proj2 enter_without_shift_submits Demo.paired_props Demo.clock
             Demo.paired_typed (Demo.enter true false)).
    intros [_ H]. discriminate H.
Defined.

(** C7, as stated, fails: with Ctrl held and Shift not, Enter submits.
    The pending flag goes up and one call is issued, in both variants. *)
Lemma ctrl_enter_submits :
  ctrlKey (Demo.enter false true) = true /\
  (let w := Internal.step (Demo.props None) Demo.clock (Demo.typed None)
              (KeyPress (Demo.enter false true)) in
   Internal.isLoading (Demo.typed None) = false /\
   Internal.isLoading w = true /\
   map (fun r => body_message (body r)) (Internal.fetchLog w)
     = [lit "hello"]) /\
  (let w := Paired.step Demo.paired_props Demo.clock Demo.paired_typed
              (KeyPress (Demo.enter false true)) in
   Paired.isLoading Demo.paired_typed = false /\
   Paired.isLoading w = true /\
   map (fun r => body_message (body r)) (Paired.fetchLog w)
     = [lit "hello"]).
Proof. repeat split. Qed.

(** *** Resolving the bot text *)

(** C3, as the code has it.  When the body of an [ok] response is a JSON
    value other than [null] that has no [answer] member, or whose
    [answer] is the empty string, the bot message (the paired entry)
    appended at the settlement carries the fallback text.  Nothing else
    is appended then, unless the host's callback throws. *)
Theorem fallback_on_missing_answer :
  (forall props clock (w : Internal.World) i s data,
     nth_error (Internal.inflight w) i
       = Some {| Internal.act_inputMessage := s;
                 Internal.act_stage := AwaitJson |} ->
     data <> VNull -> data <> VUndefined ->
     answer_field data = None \/ answer_field data = Some (VString []) ->
     exists rest,
       Internal.messages
         (Internal.step props clock w (JsonSettles i (Fulfilled data)))
       = Internal.messages w
           ++ Internal.botMessage_at props clock (VString fallback_text)
                (Internal.clockReads w) :: rest /\
       (Internal.callback_never_throws props -> rest = [])) /\
  (forall props clock (w : Paired.World) i s data,
     nth_error (Paired.inflight w) i
       = Some {| Paired.act_userMessage := s; Paired.act_stage := AwaitJson |} ->
     data <> VNull -> data <> VUndefined ->
     answer_field data = None \/ answer_field data = Some (VString []) ->
     Paired.conversation
       (Paired.step props clock w (JsonSettles i (Fulfilled data)))
     = Paired.conversation w
         ++ [Paired.entry_at clock s (VString fallback_text)
               (Paired.clockReads w)]).
Proof.
  assert (Hfb : forall data,
            answer_field data = None \/ answer_field data = Some (VString []) ->
            or_else (match answer_field data with
                     | Some v => v
                     | None => VUndefined
                     end) (VString fallback_text)
            = VString fallback_text).
  { intros data [-> | ->]; reflexivity. }
  split; intros props clock w i s data Hn Hnull Hundef Hf.
  - pose proof (answer_of_json data Hnull Hundef) as Ha.
    destruct (InternalFacts.step_json_replies props clock w i s data _ Hn Ha)
      as ((rest & Hm & Hc) & _).
    rewrite (Hfb data Hf) in Hm. eauto.
  - pose proof (answer_of_json data Hnull Hundef) as Ha.
    rewrite (PairedFacts.paired_step_json_reply props clock w i s data _ Hn Ha).
    cbn. rewrite (Hfb data Hf). reflexivity.
Qed.

(** The body [{}] in the internal-state variant and the body
    [{"answer": ""}] in the paired-entry variant. *)
Lemma fallback_on_missing_answer_witness :
  (exists rest,
     Internal.messages
       (Internal.step (Demo.props None) Demo.clock (Demo.awaiting_body None)
          (JsonSettles 0 (Fulfilled (VObject []))))
     = Internal.messages (Demo.awaiting_body None)
         ++ Internal.botMessage_at (Demo.props None) Demo.clock
              (VString fallback_text)
              (Internal.clockReads (Demo.awaiting_body None)) :: rest /\
     (Internal.callback_never_throws (Demo.props None) -> rest = [])) /\
  Paired.conversation
    (Paired.step Demo.paired_props Demo.clock Demo.paired_awaiting_body
       (JsonSettles 0
          (Fulfilled (VObject [(lit "answer", VString [])]))))
  = Paired.conversation Demo.paired_awaiting_body
      ++ [Paired.entry_at Demo.clock (lit "hello") (VString fallback_text)
            (Paired.clockReads Demo.paired_awaiting_body)].
Proof.
  split.
  - apply (proj1 fallback_on_missing_answer (Demo.props None) Demo.clock
             (Demo.awaiting_body None) 0%nat (lit "hello") (VObject [])).
    + reflexivity.
    + discriminate.
    + discriminate.
    + left. reflexivity.
  - apply (proj2 fallback_on_missing_answer Demo.paired_props Demo.clock
             Demo.paired_awaiting_body 0%nat (lit "hello")
             (VObject [(lit "answer", VString [])])).
    + reflexivity.
    + discriminate.
    + discriminate.
    + right. reflexivity.
Defined.

(** C3, as stated, fails: the JSON body [null] has no [answer] member,
    yet reading [data.answer] throws, and the apology is appended, not
    the fallback. *)
Lemma null_body_gets_apology :
  answer_field VNull = None /\
  map Internal.message
    (Internal.messages
       (Internal.step (Demo.props None) Demo.clock (Demo.awaiting_body None)
          (JsonSettles 0 (Fulfilled VNull))))
  = [VString (lit "hello"); VString apology_text] /\
  map Paired.entry_bot
    (Paired.conversation
       (Paired.step Demo.paired_props Demo.clock Demo.paired_awaiting_body
          (JsonSettles 0 (Fulfilled VNull))))
  = [VString apology_text] /\
  apology_text <> fallback_text.
Proof.
  split; [reflexivity|]. split; [reflexivity|]. split; [reflexivity|].
  unfold apology_text, fallback_text. discriminate.
Qed.

(** *** The optimistic echo *)

(** C8.  In the internal-state variant the submit itself appends the
    user message with the trimmed input, while the activation is still
    suspended on [fetch].  In the paired-entry variant no event from the
    submit up to the settlement that ends the exchange touches the
    conversation. *)
Theorem echo_at_submit_or_not_at_all :
  (forall props clock (w : Internal.World),
     trim (Internal.inputMessage w) <> [] -> Internal.isLoading w = false ->
     let w1 := Internal.step props clock w SendClick in
     let userMessage :=
       Internal.userMessage_at props clock (Internal.inputMessage w)
         (Internal.clockReads w) in
     Internal.messages w1 = Internal.messages w ++ [userMessage] /\
     Internal.msg_type userMessage = Internal.user_type /\
     Internal.message userMessage = VString (trim (Internal.inputMessage w)) /\
     Internal.isLoading w1 = true /\
     Internal.inflight w1
       = Internal.inflight w
           ++ [{| Internal.act_inputMessage := Internal.inputMessage w;
                  Internal.act_stage := AwaitFetch |}]) /\
  (forall props clock (w : Paired.World) evs,
     trim (Paired.inputMessage w) <> [] -> Paired.isLoading w = false ->
     forallb Paired.before_settle evs = true ->
     Paired.isLoading (Paired.step props clock w SendClick) = true /\
     Paired.conversation (Paired.run props clock w (SendClick :: evs))
       = Paired.conversation w /\
     Paired.hostLog (Paired.run props clock w (SendClick :: evs))
       = Paired.hostLog w).
Proof.
  split.
  - intros props clock w Hs Hl w1 userMessage. subst w1 userMessage.
    rewrite InternalFacts.step_send_passes by assumption.
    repeat split; reflexivity.
  - intros props clock w evs Hs Hl Hb. split.
    + rewrite PairedFacts.paired_step_send_passes by assumption. reflexivity.
    + apply (PairedFacts.paired_run_before_settle props clock
               (SendClick :: evs) w).
      cbn. exact Hb.
Qed.

(** "hello" submitted in both variants; in the paired one the user then
    toggles the panel and the response arrives with status 200. *)
Lemma echo_at_submit_or_not_at_all_witness :
  map Internal.message
    (Internal.messages
       (Internal.step (Demo.props None) Demo.clock (Demo.typed None) SendClick))
  = [VString (lit "hello")] /\
  Paired.conversation
    (Paired.run Demo.paired_props Demo.clock Demo.paired_typed
       (SendClick
          :: [ToggleClick; FetchSettles 0 (Fulfilled Demo.ok_response)]))
  = [].
Proof.
  split.
  - rewrite (proj1 (proj1 echo_at_submit_or_not_at_all
                      (Demo.props None) Demo.clock (Demo.typed None)
                      ltac:(discriminate) eq_refl)).
    reflexivity.
  - apply (proj2 echo_at_submit_or_not_at_all Demo.paired_props Demo.clock
             Demo.paired_typed
             [ToggleClick; FetchSettles 0 (Fulfilled Demo.ok_response)]).
    + discriminate.
    + reflexivity.
    + reflexivity.
Defined.

(** *** Failed exchanges *)

(** C4.  Take an instance of either variant in any state its events can
    lead to, with input to send and nothing pending; submit, let the user
    do anything, and let [fetch] reject or resolve with a response that is
    not [ok].  Then the settlement appends a bot message (a paired entry)
    whose text is the apology, no save callback has been called since
    the submit, and the pending flag is cleared. *)
Theorem failure_appends_apology :
  (forall props clock evs0 ui r,
     let w0 := Internal.run props clock (Internal.mount props) evs0 in
     Internal.isLoading w0 = false ->
     trim (Internal.inputMessage w0) <> [] ->
     forallb ui_event ui = true -> fetch_failed r = true ->
     let pending := Internal.run props clock w0 (SendClick :: ui) in
     let w := Internal.step props clock pending (FetchSettles 0 r) in
     let errorMessage :=
       Internal.botMessage_at props clock (VString apology_text)
         (Internal.clockReads pending) in
     Internal.messages w = Internal.messages pending ++ [errorMessage] /\
     Internal.msg_type errorMessage = Internal.bot_type /\
     Internal.message errorMessage = VString apology_text /\
     Internal.hostLog w = Internal.hostLog w0 /\
     Internal.isLoading w = false /\
     Internal.inflight w = []) /\
  (forall props clock conversation0 evs0 ui r,
     let w0 := Paired.run props clock (Paired.mount conversation0) evs0 in
     Paired.isLoading w0 = false ->
     trim (Paired.inputMessage w0) <> [] ->
     forallb ui_event ui = true -> fetch_failed r = true ->
     let pending := Paired.run props clock w0 (SendClick :: ui) in
     let w := Paired.step props clock pending (FetchSettles 0 r) in
     let errorEntry :=
       Paired.entry_at clock (trim (Paired.inputMessage w0))
         (VString apology_text) (Paired.clockReads pending) in
     Paired.conversation w = Paired.conversation pending ++ [errorEntry] /\
     Paired.entry_bot errorEntry = VString apology_text /\
     existsb is_save_call (Paired.hostLog w) = false /\
     Paired.isLoading w = false /\
     Paired.inflight w = []).
Proof.
  split.
  - intros props clock evs0 ui r w0 Hl Hs Hu Hf pending w errorMessage.
    assert (Hi : Internal.inflight w0 = [])
      by exact (InternalFacts.idle_inflight props clock evs0 Hl).
    destruct (InternalFacts.pending_exchange props clock w0 ui Hi Hl Hs Hu)
      as (A & B & C & D & E & F & G).
    fold pending in A, B, C, D, E, F, G.
    subst w errorMessage. clearbody pending.
    rewrite (InternalFacts.step_fetch_fails props clock pending 0
               (Internal.inputMessage w0) r) by (try rewrite C; auto).
    cbn. rewrite C, E. repeat split; reflexivity.
  - intros props clock conversation0 evs0 ui r w0 Hl Hs Hu Hf
      pending w errorEntry.
    assert (Hi : Paired.inflight w0 = [])
      by exact (PairedFacts.paired_idle_inflight props clock conversation0
                  evs0 Hl).
    destruct (PairedFacts.paired_pending_exchange props clock w0 ui
                Hi Hl Hs Hu) as (A & B & C & D & E & F & G).
    fold pending in A, B, C, D, E, F, G.
    assert (Hlog : existsb is_save_call (Paired.hostLog pending) = false).
    { apply PairedFacts.paired_run_no_save.
      apply PairedFacts.paired_run_no_save. reflexivity. }
    subst w errorEntry. clearbody pending.
    rewrite (PairedFacts.paired_step_fetch_fails props clock pending 0
               (trim (Paired.inputMessage w0)) r) by (try rewrite C; auto).
    cbn. rewrite C, existsb_app, Hlog. repeat split; reflexivity.
Qed.

(** "hello" in both variants: the request is rejected in the first and
    answered with status 500 in the second. *)
Lemma failure_appends_apology_witness :
  (let pending :=
     Internal.run (Demo.props (Some Demo.logs)) Demo.clock
       (Internal.run (Demo.props (Some Demo.logs)) Demo.clock
          (Internal.mount (Demo.props (Some Demo.logs)))
          [InputChange (lit "hello")])
       (SendClick :: [ToggleClick]) in
   let w :=
     Internal.step (Demo.props (Some Demo.logs)) Demo.clock pending
       (FetchSettles 0 (Rejected (Reason (lit "Failed to fetch")))) in
   Internal.hostLog w = [] /\ Internal.isLoading w = false) /\
  (let pending :=
     Paired.run Demo.paired_props Demo.clock
       (Paired.run Demo.paired_props Demo.clock (Paired.mount [])
          [InputChange (lit "hello")])
       (SendClick :: []) in
   let w :=
     Paired.step Demo.paired_props Demo.clock pending
       (FetchSettles 0 (Fulfilled Demo.server_error)) in
   map Paired.entry_bot (Paired.conversation w) = [VString apology_text] /\
   Paired.isLoading w = false).
Proof.
  split.
  - destruct (proj1 failure_appends_apology
                (Demo.props (Some Demo.logs)) Demo.clock
                [InputChange (lit "hello")] [ToggleClick]
                (Rejected (Reason (lit "Failed to fetch")))
                eq_refl ltac:(discriminate) eq_refl eq_refl)
      as (_ & _ & _ & H & L & _).
    split; [exact H|exact L].
  - destruct (proj2 failure_appends_apology
                Demo.paired_props Demo.clock [] [InputChange (lit "hello")]
                [] (Fulfilled Demo.server_error)
                eq_refl ltac:(discriminate) eq_refl eq_refl)
      as (C & _ & _ & L & _).
    split; [rewrite C; reflexivity|exact L].
Defined.

(** C9.  In the internal-state variant a failed exchange keeps the echo:
    afterwards the message list is the list before the submit, then the
    user message with the trimmed text, then the apology. *)
Theorem failure_keeps_echo :
  forall props clock evs0 ui r,
    let w0 := Internal.run props clock (Internal.mount props) evs0 in
    Internal.isLoading w0 = false ->
    trim (Internal.inputMessage w0) <> [] ->
    forallb ui_event ui = true -> fetch_failed r = true ->
    let w := Internal.run props clock w0
               (SendClick :: ui ++ [FetchSettles 0 r]) in
    let userMessage :=
      Internal.userMessage_at props clock (Internal.inputMessage w0)
        (Internal.clockReads w0) in
    let errorMessage :=
      Internal.botMessage_at props clock (VString apology_text)
        (3 + Internal.clockReads w0) in
    Internal.messages w = Internal.messages w0 ++ [userMessage; errorMessage] /\
    Internal.msg_type userMessage = Internal.user_type /\
    Internal.message userMessage = VString (trim (Internal.inputMessage w0)) /\
    Internal.msg_type errorMessage = Internal.bot_type /\
    Internal.message errorMessage = VString apology_text.
Proof.
  intros props clock evs0 ui r w0 Hl Hs Hu Hf w userMessage errorMessage.
  assert (Hi : Internal.inflight w0 = [])
    by exact (InternalFacts.idle_inflight props clock evs0 Hl).
  destruct (InternalFacts.failed_exchange props clock w0 ui r Hi Hl Hs Hu Hf)
    as (A & _).
  split; [exact A|repeat split; reflexivity].
Qed.

(** "hello" on a fresh instance, answered with status 500. *)
Lemma failure_keeps_echo_witness :
  map Internal.message
    (Internal.messages
       (Internal.run (Demo.props None) Demo.clock
          (Internal.run (Demo.props None) Demo.clock
             (Internal.mount (Demo.props None)) [InputChange (lit "hello")])
          (SendClick
             :: [ToggleClick] ++ [FetchSettles 0 (Fulfilled Demo.server_error)])))
  = [VString (lit "hello"); VString apology_text].
Proof.
  rewrite (proj1 (failure_keeps_echo (Demo.props None) Demo.clock
                    [InputChange (lit "hello")] [ToggleClick]
                    (Fulfilled Demo.server_error)
                    eq_refl ltac:(discriminate) eq_refl eq_refl)).
  reflexivity.
Defined.

(** *** Successful exchanges and the host *)

(** C5, as the code has it.  In the internal-state variant with an
    [onSaveMessage] callback, take an exchange whose response is [ok] and
    whose body parses to a JSON value other than [null].  From the submit
    to the end of the exchange the callback is called exactly once, with the trimmed text
    that was in the input box at the submit (the box itself is empty from
    the submit on), the bot text of the appended bot message, and the id
    of the configured user. *)
Theorem save_callback_once :
  forall props clock cb evs0 ui1 ui2 res data,
    let w0 := Internal.run props clock (Internal.mount props) evs0 in
    Internal.onSaveMessage props = Some cb ->
    Internal.isLoading w0 = false ->
    trim (Internal.inputMessage w0) <> [] ->
    forallb ui_event ui1 = true -> forallb ui_event ui2 = true ->
    ok res = true -> data <> VNull -> data <> VUndefined ->
    let botResponse :=
      or_else (match answer_field data with
               | Some v => v
               | None => VUndefined
               end) (VString fallback_text) in
    let w1 := Internal.step props clock w0 SendClick in
    let w := Internal.run props clock w0
               (SendClick :: ui1 ++ FetchSettles 0 (Fulfilled res)
                  :: ui2 ++ [JsonSettles 0 (Fulfilled data)]) in
    Internal.inputMessage w1 = [] /\
    Internal.hostLog w
      = Internal.hostLog w0
          ++ [CallOnSaveMessage
                {| question := trim (Internal.inputMessage w0);
                   answer := botResponse;
                   userId := Internal.id (Internal.user props) |}] /\
    (exists rest,
       Internal.messages w
         = Internal.messages w0
             ++ Internal.userMessage_at props clock
                  (Internal.inputMessage w0) (Internal.clockReads w0)
             :: Internal.botMessage_at props clock botResponse
                  (3 + Internal.clockReads w0)
             :: rest) /\
    Internal.isLoading w = false.
Proof.
  intros props clock cb evs0 ui1 ui2 res data w0 Hcb Hl Hs Hu1 Hu2 Hk
    Hnull Hundef botResponse w1 w.
  assert (Hi : Internal.inflight w0 = [])
    by exact (InternalFacts.idle_inflight props clock evs0 Hl).
  clearbody w0.
  split.
  { subst w1. rewrite InternalFacts.step_send_passes by assumption.
    reflexivity. }
  assert (El : SendClick :: ui1 ++ FetchSettles 0 (Fulfilled res)
                 :: ui2 ++ [JsonSettles 0 (Fulfilled data)]
               = (SendClick :: ui1 ++ FetchSettles 0 (Fulfilled res) :: ui2)
                   ++ [JsonSettles 0 (Fulfilled data)]).
  { cbn. rewrite <- app_assoc. reflexivity. }
  subst w. rewrite El, InternalFacts.run_app.
  destruct (InternalFacts.awaiting_body_exchange props clock w0 ui1 ui2 res
              Hi Hl Hs Hu1 Hu2 Hk) as (A & B & C & E & F & G).
  remember (Internal.run props clock w0
              (SendClick :: ui1 ++ FetchSettles 0 (Fulfilled res) :: ui2))
    as w3 eqn:Ew3. clear Ew3.
  cbn [Internal.run fold_left].
  assert (Hn : nth_error (Internal.inflight w3) 0
               = Some {| Internal.act_inputMessage := Internal.inputMessage w0;
                         Internal.act_stage := AwaitJson |})
    by (rewrite C; reflexivity).
  destruct (InternalFacts.step_json_replies props clock w3 0
              (Internal.inputMessage w0) data _ Hn
              (answer_of_json data Hnull Hundef))
    as ((rest & Hm & _) & Hl' & _ & Hh).
  rewrite Hcb in Hh. fold botResponse in Hm, Hh.
  split; [rewrite Hh, E; reflexivity|].
  split; [|exact Hl'].
  exists rest. rewrite Hm, A, G, <- app_assoc. reflexivity.
Qed.

(** The scenario of the save-callback law: "hello" from user "u1",
    answered with [{"answer": "X"}]. *)
Lemma save_callback_once_witness :
  Internal.hostLog
    (Internal.run (Demo.props (Some Demo.logs)) Demo.clock
       (Internal.run (Demo.props (Some Demo.logs)) Demo.clock
          (Internal.mount (Demo.props (Some Demo.logs)))
          [InputChange (lit "hello")])
       (SendClick
          :: [InputChange (lit "next")]
          ++ FetchSettles 0 (Fulfilled Demo.ok_response)
          :: []
          ++ [JsonSettles 0
                (Fulfilled
                   (VObject [(lit "answer", VString (lit "X"))]))]))
  = [CallOnSaveMessage
       {| question := lit "hello"; answer := VString (lit "X");
          userId := lit "u1" |}].
Proof.
  rewrite (proj1 (proj2 (save_callback_once
             (Demo.props (Some Demo.logs)) Demo.clock Demo.logs
             [InputChange (lit "hello")] [InputChange (lit "next")] []
             Demo.ok_response (VObject [(lit "answer", VString (lit "X"))])
             eq_refl eq_refl ltac:(discriminate) eq_refl eq_refl eq_refl
             ltac:(discriminate) ltac:(discriminate)))).
  reflexivity.
Defined.

(** C5, as stated, fails: a response with a success status is not
    enough.  When its body is the JSON value [null], or cannot be read
    as JSON, the exchange ends in the catch block and the callback that
    was supplied is never called. *)
Lemma ok_response_without_save :
  let props := Demo.props (Some Demo.logs) in
  let after body :=
    Internal.run props Demo.clock (Internal.mount props)
      [InputChange (lit "hello"); SendClick;
       FetchSettles 0 (Fulfilled Demo.ok_response);
       JsonSettles 0 body] in
  Internal.onSaveMessage props = Some Demo.logs /\
  ok Demo.ok_response = true /\
  Internal.hostLog (after (Fulfilled VNull)) = [] /\
  Internal.isLoading (after (Fulfilled VNull)) = false /\
  map Internal.message (Internal.messages (after (Fulfilled VNull)))
    = [VString (lit "hello"); VString apology_text] /\
  Internal.hostLog
    (after (Rejected (Reason (lit "Unexpected token < in JSON")))) = [] /\
  Internal.isLoading
    (after (Rejected (Reason (lit "Unexpected token < in JSON")))) = false.
Proof.
  cbv zeta. repeat split; reflexivity.
Qed.

(** C10.  The paired-entry variant has no save callback.  Over a
    successful exchange the one call into the host is the call of
    [setConversation], with an updater that returns the old entries
    followed by the completed entry; and whatever the events, the host
    log of an instance never holds a save call. *)
Theorem paired_host_sees_one_update :
  (forall props clock conversation0 evs0 ui1 ui2 res data,
     let w0 := Paired.run props clock (Paired.mount conversation0) evs0 in
     Paired.isLoading w0 = false ->
     trim (Paired.inputMessage w0) <> [] ->
     forallb ui_event ui1 = true -> forallb ui_event ui2 = true ->
     ok res = true -> data <> VNull -> data <> VUndefined ->
     let botResponse :=
       or_else (match answer_field data with
                | Some v => v
                | None => VUndefined
                end) (VString fallback_text) in
     let newEntry :=
       Paired.entry_at clock (trim (Paired.inputMessage w0)) botResponse
         (1 + Paired.clockReads w0) in
     let w := Paired.run props clock w0
                (SendClick :: ui1 ++ FetchSettles 0 (Fulfilled res)
                   :: ui2 ++ [JsonSettles 0 (Fulfilled data)]) in
     Paired.hostLog w
       = Paired.hostLog w0
           ++ [CallSetConversation (fun prev => prev ++ [newEntry])] /\
     Paired.conversation w = Paired.conversation w0 ++ [newEntry] /\
     Paired.isLoading w = false) /\
  (forall props clock conversation0 evs,
     existsb is_save_call
       (Paired.hostLog
          (Paired.run props clock (Paired.mount conversation0) evs))
     = false).
Proof.
  split.
  - intros props clock conversation0 evs0 ui1 ui2 res data w0 Hl Hs Hu1 Hu2
      Hk Hnull Hundef botResponse newEntry w.
    assert (Hi : Paired.inflight w0 = [])
      by exact (PairedFacts.paired_idle_inflight props clock conversation0
                  evs0 Hl).
    clearbody w0.
    assert (El : SendClick :: ui1 ++ FetchSettles 0 (Fulfilled res)
                   :: ui2 ++ [JsonSettles 0 (Fulfilled data)]
                 = (SendClick :: ui1 ++ FetchSettles 0 (Fulfilled res) :: ui2)
                     ++ [JsonSettles 0 (Fulfilled data)]).
    { cbn. rewrite <- app_assoc. reflexivity. }
    subst w. rewrite El, PairedFacts.paired_run_app.
    destruct (PairedFacts.paired_awaiting_body_exchange props clock w0
                ui1 ui2 res Hi Hl Hs Hu1 Hu2 Hk) as (A & B & C & E & F & G).
    remember (Paired.run props clock w0
                (SendClick :: ui1 ++ FetchSettles 0 (Fulfilled res) :: ui2))
      as w3 eqn:Ew3. clear Ew3.
    cbn [Paired.run fold_left].
    rewrite (PairedFacts.paired_step_json_reply props clock w3 0
               (trim (Paired.inputMessage w0)) data _
               ltac:(rewrite C; reflexivity)
               (answer_of_json data Hnull Hundef)).
    cbn. subst newEntry botResponse. rewrite A, E, G.
    repeat split; reflexivity.
  - intros props clock conversation0 evs.
    apply PairedFacts.paired_run_no_save. reflexivity.
Qed.

(** "hello", answered with [{"answer": "Hello there!"}]. *)
Lemma paired_host_sees_one_update_witness :
  map Paired.entry_bot
    (Paired.conversation
       (Paired.run Demo.paired_props Demo.clock
          (Paired.run Demo.paired_props Demo.clock (Paired.mount [])
             [InputChange (lit "hello")])
          (SendClick
             :: []
             ++ FetchSettles 0 (Fulfilled Demo.ok_response)
             :: [ToggleClick]
             ++ [JsonSettles 0
                   (Fulfilled
                      (VObject
                         [(lit "answer", VString (lit "Hello there!"))]))])))
  = [VString (lit "Hello there!")].
Proof.
  rewrite (proj1 (proj2 (proj1 paired_host_sees_one_update
             Demo.paired_props Demo.clock [] [InputChange (lit "hello")]
             [] [ToggleClick] Demo.ok_response
             (VObject [(lit "answer", VString (lit "Hello there!"))])
             eq_refl ltac:(discriminate) eq_refl eq_refl eq_refl
             ltac:(discriminate) ltac:(discriminate)))).
  reflexivity.
Defined.

(** *** The conversation store *)

(** C6, where the code breaks it.  In the internal-state variant the
    call of [onSaveMessage] stands inside the try block, after the bot's
    reply was appended.  When the host's callback throws, the catch
    block meant for a failed request runs: one settlement appends two
    messages, the reply and then the apology, and the host's error is
    logged as an API error. *)
Theorem throwing_callback_appends_two :
  forall props clock (w : Internal.World) i s data a cb err,
    nth_error (Internal.inflight w) i
      = Some {| Internal.act_inputMessage := s;
                Internal.act_stage := AwaitJson |} ->
    answer_of data = Fulfilled a ->
    Internal.onSaveMessage props = Some cb ->
    cb {| question := trim s;
          answer := or_else a (VString fallback_text);
          userId := Internal.id (Internal.user props) |}
      = Internal.Throws err ->
    let w' := Internal.step props clock w (JsonSettles i (Fulfilled data)) in
    Internal.messages w'
      = Internal.messages w
          ++ [Internal.botMessage_at props clock
                (or_else a (VString fallback_text)) (Internal.clockReads w);
              Internal.botMessage_at props clock (VString apology_text)
                (2 + Internal.clockReads w)] /\
    Internal.consoleLog w' = Internal.consoleLog w ++ [err] /\
    Internal.isLoading w' = false.
Proof.
  intros props clock w i s data a cb err Hn Ha Hc Hr w'. subst w'.
  rewrite (InternalFacts.step_json_callback_throws props clock w i s data a
             cb err Hn Ha Hc Hr).
  cbn [Internal.messages Internal.consoleLog Internal.isLoading].
  rewrite <- app_assoc. repeat split; reflexivity.
Qed.

(** "hello", answered with [{"answer": "X"}], and a callback that
    throws: the settlement of the body takes the list from one message
    to three. *)
Lemma throwing_callback_appends_two_witness :
  let w := Demo.awaiting_body (Some Demo.fails) in
  let w' :=
    Internal.step (Demo.props (Some Demo.fails)) Demo.clock w
      (JsonSettles 0
         (Fulfilled (VObject [(lit "answer", VString (lit "X"))]))) in
  map Internal.message (Internal.messages w) = [VString (lit "hello")] /\
  map Internal.message (Internal.messages w')
    = [VString (lit "hello"); VString (lit "X"); VString apology_text].
Proof.
  cbv zeta. split; [reflexivity|].
  rewrite (proj1 (throwing_callback_appends_two
             (Demo.props (Some Demo.fails)) Demo.clock
             (Demo.awaiting_body (Some Demo.fails)) 0 (lit "hello")
             (VObject [(lit "answer", VString (lit "X"))])
             (VString (lit "X")) Demo.fails (Reason (lit "save failed"))
             eq_refl eq_refl eq_refl eq_refl)).
  reflexivity.
Defined.

(** ** Further properties of the handlers *)

(** *** The panel *)

(** X1.  [toggleChat] flips the open flag and nothing else: a second
    toggle gives back the world, and toggling before an event or after it
    leads to the same world, whatever the event (a submit, a key press, a
    settlement).  Opening or closing the panel neither starts, cancels
    nor alters an exchange. *)
Theorem toggle_is_independent :
  (forall props clock (w : Internal.World) (e : Event),
     let t := Internal.step props clock w ToggleClick in
     Internal.isOpen t = negb (Internal.isOpen w) /\
     Internal.step props clock t ToggleClick = w /\
     Internal.step props clock (Internal.step props clock w e) ToggleClick
       = Internal.step props clock t e) /\
  (forall props clock (w : Paired.World) (e : Event),
     let t := Paired.step props clock w ToggleClick in
     Paired.isOpen t = negb (Paired.isOpen w) /\
     Paired.step props clock t ToggleClick = w /\
     Paired.step props clock (Paired.step props clock w e) ToggleClick
       = Paired.step props clock t e).
Proof.
  split; intros props clock w e t; subst t.
  - split; [destruct w; reflexivity|]. split.
    + destruct w as [[|] ? ? ? ? ? ? ? ?]; reflexivity.
    + apply InternalFacts.toggle_commutes.
  - split; [destruct w; reflexivity|]. split.
    + destruct w as [[|] ? ? ? ? ? ? ? ?]; reflexivity.
    + apply PairedFacts.paired_toggle_commutes.
Qed.

(** *** What goes over the wire *)

(** X2.  Every request an instance ever issues is a POST to
    [apiEndpoint?Botid=chatbotId] with the bearer credential and the JSON
    content type; its body carries the id of the configured user, a
    reading of the clock, and a message that is not empty and is already
    trimmed.  Both variants. *)
Theorem requests_are_well_formed :
  (forall props clock evs,
     Forall
       (fun r =>
          url r = Internal.p_apiEndpoint props ++ lit "?Botid="
                    ++ Internal.chatbotId props /\
          method r = lit "POST" /\
          authorization r = lit "Bearer " ++ Internal.apiKey props /\
          contentType r = lit "application/json" /\
          body_userId (body r) = Internal.id (Internal.user props) /\
          body_message (body r) <> [] /\
          trim (body_message (body r)) = body_message (body r) /\
          exists k, body_timestamp (body r) = clock k)
       (Internal.fetchLog
          (Internal.run props clock (Internal.mount props) evs))) /\
  (forall props clock conversation0 evs,
     Forall
       (fun r =>
          url r = Paired.p_apiEndpoint props ++ lit "?Botid="
                    ++ Paired.chatbotId props /\
          method r = lit "POST" /\
          authorization r = lit "Bearer " ++ Paired.apiKey props /\
          contentType r = lit "application/json" /\
          body_userId (body r) = Paired.id (Paired.user props) /\
          body_message (body r) <> [] /\
          trim (body_message (body r)) = body_message (body r) /\
          exists k, body_timestamp (body r) = clock k)
       (Paired.fetchLog
          (Paired.run props clock (Paired.mount conversation0) evs))).
Proof.
  split.
  - intros props clock.
    apply (InternalFacts.run_invariant props clock
             (fun w => Forall _ (Internal.fetchLog w))).
    + constructor.
    + intros w w' L Hp T. destruct T as [? ? ? E| ? ? Hs E|s ? E| ].
      * rewrite E. exact Hp.
      * subst w'. cbn. apply Forall_app. split; [exact Hp|].
        constructor; [|constructor]. cbn.
        repeat split; try reflexivity; try assumption.
        -- apply trim_idempotent.
        -- eexists. reflexivity.
      * subst w'. destruct w; exact Hp.
      * replace (Internal.fetchLog w') with (Internal.fetchLog w) by auto.
        exact Hp.
  - intros props clock conversation0.
    apply (PairedFacts.paired_run_invariant props clock conversation0
             (fun w => Forall _ (Paired.fetchLog w))).
    + constructor.
    + intros w w' L Hp T. destruct T as [? ? ? E| ? ? Hs E|s ? E| ].
      * rewrite E. exact Hp.
      * subst w'. cbn. apply Forall_app. split; [exact Hp|].
        constructor; [|constructor]. cbn.
        repeat split; try reflexivity; try assumption.
        -- apply trim_idempotent.
        -- eexists. reflexivity.
      * subst w'. destruct w; exact Hp.
      * replace (Paired.fetchLog w') with (Paired.fetchLog w) by auto.
        exact Hp.
Qed.

(** X3.  In the internal-state variant the user messages of the list
    are, in order, the initial ones followed by exactly the messages that
    were sent to the server: every accepted submit adds one user message
    and one request with the same text, and nothing else adds either. *)
Theorem user_messages_match_requests :
  forall props clock evs,
    let w := Internal.run props clock (Internal.mount props) evs in
    map Internal.message (filter Internal.is_user (Internal.messages w))
    = map Internal.message
        (filter Internal.is_user (Internal.p_initialMessages props))
      ++ map (fun r => VString (body_message (body r))) (Internal.fetchLog w).
Proof.
  intros props clock evs w. subst w.
  apply (InternalFacts.run_invariant props clock
    (fun w =>
       map Internal.message (filter Internal.is_user (Internal.messages w))
       = map Internal.message
           (filter Internal.is_user (Internal.p_initialMessages props))
         ++ map (fun r => VString (body_message (body r)))
              (Internal.fetchLog w))).
  - cbn. rewrite app_nil_r. reflexivity.
  - intros w w' L Hp T.
    destruct T as [Em ? ? Ef| ? ? Hs E|s ? E|s st text rest ? ? ? Hr Em ? ? ? Ef].
    + rewrite Em, Ef. exact Hp.
    + subst w'. cbn. rewrite filter_app, !map_app, Hp, <- app_assoc.
      reflexivity.
    + subst w'. destruct w; exact Hp.
    + rewrite Em, Ef, filter_app, map_app, <- Hp.
      destruct Hr as [-> | ->]; cbn; rewrite app_nil_r; reflexivity.
Qed.

(** X4.  In the paired-entry variant every request is accounted for, in
    order: the user texts of the conversation since mounting, followed by
    the text of the exchange still pending, are exactly the messages of
    the requests issued.  A request is answered by one entry, never
    dropped and never answered twice. *)
Theorem entries_match_requests :
  forall props clock conversation0 evs,
    let w := Paired.run props clock (Paired.mount conversation0) evs in
    map Paired.entry_user (Paired.conversation w)
      ++ map Paired.act_userMessage (Paired.inflight w)
    = map Paired.entry_user conversation0
        ++ map (fun r => body_message (body r)) (Paired.fetchLog w).
Proof.
  intros props clock conversation0 evs w. subst w.
  apply (PairedFacts.paired_run_invariant props clock conversation0
    (fun w =>
       map Paired.entry_user (Paired.conversation w)
         ++ map Paired.act_userMessage (Paired.inflight w)
       = map Paired.entry_user conversation0
           ++ map (fun r => body_message (body r)) (Paired.fetchLog w))).
  - reflexivity.
  - intros w w' L Hp T.
    destruct T as [Ec Ei ? Ef| ? Hi Hs E|s Hi E|s st text Hi ? ? Ec ? ? Hi' Ef].
    + rewrite Ec, Ei, Ef. exact Hp.
    + subst w'. cbn. rewrite Hi in Hp. cbn in Hp.
      rewrite app_nil_r in Hp. rewrite map_app, app_assoc, <- Hp.
      reflexivity.
    + subst w'. rewrite Hi in Hp. destruct w; cbn in *. exact Hp.
    + rewrite Hi in Hp. rewrite Ec, Hi', Ef, map_app, <- Hp, app_nil_r.
      reflexivity.
Qed.

(** *** How an exchange ends *)

(** X5.  A response that is [ok] but whose body cannot be used is handled
    as a failure.  When [res.json()] rejects, or the body is [null] (so
    that reading [data.answer] throws a TypeError), the settlement
    appends the apology, logs what was thrown, clears the pending flag,
    and, in the internal-state variant, calls no save callback. *)
Theorem unreadable_body_is_a_failure :
  (forall props clock (w : Internal.World) i s r err,
     nth_error (Internal.inflight w) i
       = Some {| Internal.act_inputMessage := s;
                 Internal.act_stage := AwaitJson |} ->
     r = Rejected err \/ (r = Fulfilled VNull /\ err = TypeError) ->
     let w' := Internal.step props clock w (JsonSettles i r) in
     Internal.messages w'
       = Internal.messages w
           ++ [Internal.botMessage_at props clock (VString apology_text)
                 (Internal.clockReads w)] /\
     Internal.hostLog w' = Internal.hostLog w /\
     Internal.consoleLog w' = Internal.consoleLog w ++ [err] /\
     Internal.isLoading w' = false) /\
  (forall props clock (w : Paired.World) i s r err,
     nth_error (Paired.inflight w) i
       = Some {| Paired.act_userMessage := s; Paired.act_stage := AwaitJson |} ->
     r = Rejected err \/ (r = Fulfilled VNull /\ err = TypeError) ->
     let w' := Paired.step props clock w (JsonSettles i r) in
     Paired.conversation w'
       = Paired.conversation w
           ++ [Paired.entry_at clock s (VString apology_text)
                 (Paired.clockReads w)] /\
     Paired.consoleLog w' = Paired.consoleLog w ++ [err] /\
     Paired.isLoading w' = false).
Proof.
  assert (T : forall r err,
            r = Rejected err \/ (r = Fulfilled VNull /\ err = TypeError) ->
            reply_throws r = Some err).
  { intros r err [-> | [-> ->]]; reflexivity. }
  split; intros props clock w i s r err Hn Hr w'; subst w'.
  - rewrite (InternalFacts.step_json_throws props clock w i s r err Hn
               (T r err Hr)).
    repeat split; reflexivity.
  - rewrite (PairedFacts.paired_step_json_throws props clock w i s r err Hn
               (T r err Hr)).
    repeat split; reflexivity.
Qed.

(** A body that is not JSON in the internal-state variant, and the body
    [null] in the paired-entry variant. *)
Lemma unreadable_body_is_a_failure_witness :
  Internal.hostLog
    (Internal.step (Demo.props (Some Demo.logs)) Demo.clock
       (Demo.awaiting_body (Some Demo.logs))
       (JsonSettles 0 (Rejected (Reason (lit "Unexpected token <")))))
  = Internal.hostLog (Demo.awaiting_body (Some Demo.logs))
  /\
  Paired.consoleLog
    (Paired.step Demo.paired_props Demo.clock Demo.paired_awaiting_body
       (JsonSettles 0 (Fulfilled VNull)))
  = Paired.consoleLog Demo.paired_awaiting_body ++ [TypeError].
Proof.
  split.
  - apply (proj1 unreadable_body_is_a_failure (Demo.props (Some Demo.logs))
             Demo.clock (Demo.awaiting_body (Some Demo.logs)) 0%nat
             (lit "hello") _ (Reason (lit "Unexpected token <")) eq_refl
             (or_introl eq_refl)).
  - apply (proj2 unreadable_body_is_a_failure Demo.paired_props Demo.clock
             Demo.paired_awaiting_body 0%nat (lit "hello") _ TypeError eq_refl
             (or_intror (conj eq_refl eq_refl))).
Defined.

(** X6.  No exchange gets stuck.  From any state with the pending flag
    set, once [fetch] has settled and [res.json()] has settled (whatever
    either settles with, and whether or not the first was still awaited)
    the flag is cleared, no activation is left, and the store has grown
    by at least a bot turn: the last message appended is a bot message,
    or one paired entry was appended. *)
Theorem settlements_end_the_exchange :
  (forall props clock evs r1 r2,
     let w := Internal.run props clock (Internal.mount props) evs in
     Internal.isLoading w = true ->
     let w' := Internal.run props clock w
                 [FetchSettles 0 r1; JsonSettles 0 r2] in
     Internal.isLoading w' = false /\ Internal.inflight w' = [] /\
     exists added m,
       Internal.messages w' = Internal.messages w ++ added ++ [m] /\
       Internal.msg_type m = Internal.bot_type) /\
  (forall props clock conversation0 evs r1 r2,
     let w := Paired.run props clock (Paired.mount conversation0) evs in
     Paired.isLoading w = true ->
     let w' := Paired.run props clock w
                 [FetchSettles 0 r1; JsonSettles 0 r2] in
     Paired.isLoading w' = false /\ Paired.inflight w' = [] /\
     exists entry,
       Paired.conversation w' = Paired.conversation w ++ [entry]).
Proof.
  split.
  - intros props clock evs r1 r2 w Hl w'.
    assert (L : Internal.locked w)
      by apply InternalFacts.run_locked, InternalFacts.mount_locked.
    clearbody w. subst w'.
    destruct L as [[Hl' _]|[_ [[s st] Hi]]]; [congruence|].
    cbn [Internal.run fold_left].
    destruct st.
    + destruct (fetch_failed r1) eqn:F.
      * rewrite (InternalFacts.step_fetch_fails props clock w 0 s r1)
          by (try rewrite Hi; auto).
        unfold Internal.step at 1. unfold Internal.dispatch at 1. cbn. rewrite Hi. cbn.
        repeat split.
        exists [], (Internal.botMessage_at props clock (VString apology_text)
                      (Internal.clockReads w)).
        split; reflexivity.
      * destruct r1 as [res|err]; [|discriminate].
        cbn in F. apply negb_false_iff in F.
        rewrite (InternalFacts.step_fetch_ok props clock w 0 s res)
          by (try rewrite Hi; auto).
        rewrite Hi. cbn [firstn skipn app].
        destruct (InternalFacts.json_settle_ends props clock
                    (Internal.setInflight
                       [{| Internal.act_inputMessage := s;
                           Internal.act_stage := AwaitJson |}] w) s r2)
          as (A & B & added & m & C & D); [destruct w; reflexivity|].
        split; [exact A|]. split; [exact B|].
        exists added, m. split; [|exact D].
        rewrite C. destruct w; reflexivity.
    + assert (E1 : Internal.step props clock w (FetchSettles 0 r1) = w)
        by (unfold Internal.step, Internal.dispatch; rewrite Hi; reflexivity).
      rewrite E1.
      destruct (InternalFacts.json_settle_ends props clock w s r2 Hi)
        as (A & B & added & m & C & D).
      eauto 7.
  - intros props clock conversation0 evs r1 r2 w Hl w'.
    assert (L : Paired.locked w).
    { apply PairedFacts.paired_run_locked. left. split; reflexivity. }
    clearbody w. subst w'.
    destruct L as [[Hl' _]|[_ [[s st] Hi]]]; [congruence|].
    cbn [Paired.run fold_left].
    destruct st.
    + destruct (fetch_failed r1) eqn:F.
      * rewrite (PairedFacts.paired_step_fetch_fails props clock w 0 s r1)
          by (try rewrite Hi; auto).
        unfold Paired.step at 1. unfold Paired.dispatch at 1. cbn. rewrite Hi. cbn.
        repeat split. eexists. reflexivity.
      * destruct r1 as [res|err]; [|discriminate].
        cbn in F. apply negb_false_iff in F.
        rewrite (PairedFacts.paired_step_fetch_ok props clock w 0 s res)
          by (try rewrite Hi; auto).
        rewrite Hi. cbn [firstn skipn app].
        destruct (PairedFacts.paired_json_settle_ends props clock
                    (Paired.setInflight
                       [{| Paired.act_userMessage := s;
                           Paired.act_stage := AwaitJson |}] w) s r2)
          as (A & B & text & C); [destruct w; reflexivity|].
        split; [exact A|]. split; [exact B|].
        eexists. rewrite C. destruct w; reflexivity.
    + assert (E1 : Paired.step props clock w (FetchSettles 0 r1) = w)
        by (unfold Paired.step, Paired.dispatch; rewrite Hi; reflexivity).
      rewrite E1.
      destruct (PairedFacts.paired_json_settle_ends props clock w s r2 Hi)
        as (A & B & text & C).
      eauto.
Qed.

(** A response with status 200 whose body is [null]: the second
    settlement ends the exchange. *)
Lemma settlements_end_the_exchange_witness :
  Internal.isLoading
    (Internal.run (Demo.props None) Demo.clock
       (Internal.run (Demo.props None) Demo.clock
          (Internal.mount (Demo.props None))
          [InputChange (lit "hello"); SendClick])
       [FetchSettles 0 (Fulfilled Demo.ok_response);
        JsonSettles 0 (Fulfilled VNull)])
  = false.
Proof.
  apply (proj1 settlements_end_the_exchange (Demo.props None) Demo.clock
           [InputChange (lit "hello"); SendClick]
           (Fulfilled Demo.ok_response) (Fulfilled VNull) eq_refl).
Defined.

(** X9.  When the body is an object whose [answer] is truthy (a
    non-empty string, but also a non-zero number, an array or an object:
    the value is not checked to be a string), the bot text appended is
    that value, verbatim, and it is the [answer] the save callback
    receives; the fallback is not used. *)
Theorem truthy_answer_is_shown_verbatim :
  (forall props clock (w : Internal.World) i s data a,
     nth_error (Internal.inflight w) i
       = Some {| Internal.act_inputMessage := s;
                 Internal.act_stage := AwaitJson |} ->
     answer_field data = Some a -> truthy a = true ->
     let w' := Internal.step props clock w (JsonSettles i (Fulfilled data)) in
     (exists rest,
        Internal.messages w'
        = Internal.messages w
            ++ Internal.botMessage_at props clock a (Internal.clockReads w)
            :: rest /\
        (Internal.callback_never_throws props -> rest = [])) /\
     Internal.hostLog w'
     = Internal.hostLog w
         ++ match Internal.onSaveMessage props with
            | Some _ =>
                [CallOnSaveMessage
                   {| question := trim s; answer := a;
                      userId := Internal.id (Internal.user props) |}]
            | None => []
            end) /\
  (forall props clock (w : Paired.World) i s data a,
     nth_error (Paired.inflight w) i
       = Some {| Paired.act_userMessage := s; Paired.act_stage := AwaitJson |} ->
     answer_field data = Some a -> truthy a = true ->
     Paired.conversation
       (Paired.step props clock w (JsonSettles i (Fulfilled data)))
     = Paired.conversation w
         ++ [Paired.entry_at clock s a (Paired.clockReads w)]).
Proof.
  split; intros props clock w i s data a Hn Hf Ht.
  - intros w'. subst w'.
    destruct (InternalFacts.step_json_replies props clock w i s data a Hn
                (answer_of_member data a Hf))
      as (Hm & _ & _ & Hh).
    unfold or_else in Hm, Hh. rewrite Ht in Hm, Hh. auto.
  - rewrite (PairedFacts.paired_step_json_reply props clock w i s data a Hn
               (answer_of_member data a Hf)).
    cbn. unfold or_else. rewrite Ht. reflexivity.
Qed.

(** The answer "Hello there!" in the internal-state variant and the
    answer 42 in the paired-entry variant. *)
Lemma truthy_answer_is_shown_verbatim_witness :
  Internal.hostLog
    (Internal.step (Demo.props (Some Demo.logs)) Demo.clock
       (Demo.awaiting_body (Some Demo.logs))
       (JsonSettles 0
          (Fulfilled
             (VObject [(lit "answer", VString (lit "Hello there!"))]))))
  = Internal.hostLog (Demo.awaiting_body (Some Demo.logs))
      ++ [CallOnSaveMessage
            {| question := trim (lit "hello");
               answer := VString (lit "Hello there!");
               userId := lit "u1" |}]
  /\
  Paired.conversation
    (Paired.step Demo.paired_props Demo.clock Demo.paired_awaiting_body
       (JsonSettles 0
          (Fulfilled
             (VObject
                [(lit "answer",
                  VNumber (S754_finite false 42 0))]))))
  = Paired.conversation Demo.paired_awaiting_body
      ++ [Paired.entry_at Demo.clock (lit "hello")
            (VNumber (S754_finite false 42 0))
            (Paired.clockReads Demo.paired_awaiting_body)].
Proof.
  split.
  - apply (proj1 truthy_answer_is_shown_verbatim
             (Demo.props (Some Demo.logs)) Demo.clock
             (Demo.awaiting_body (Some Demo.logs)) 0%nat (lit "hello")
             (VObject [(lit "answer", VString (lit "Hello there!"))])
             (VString (lit "Hello there!")) eq_refl eq_refl eq_refl).
  - apply (proj2 truthy_answer_is_shown_verbatim Demo.paired_props Demo.clock
             Demo.paired_awaiting_body 0%nat (lit "hello")
             (VObject [(lit "answer", VNumber (S754_finite false 42 0))])
             (VNumber (S754_finite false 42 0)) eq_refl eq_refl eq_refl).
Defined.

(** *** What the store holds *)

(** X7.  Every stored text is truthy.  If the initial messages have
    truthy texts, then after any events every message of the list has a
    truthy text: a user message carries trimmed, non-empty input, a bot
    message a truthy answer, the fallback or the apology.  Likewise every
    paired entry has a non-empty user text and a truthy bot text.  Truthy
    is all that holds: an answer such as [true], an empty array or a
    string of blanks is truthy and is stored as it came, so this does
    not say that a bubble shows text. *)
Theorem texts_are_truthy :
  (forall props clock evs,
     Forall (fun m => truthy (Internal.message m) = true)
       (Internal.p_initialMessages props) ->
     Forall (fun m => truthy (Internal.message m) = true)
       (Internal.messages
          (Internal.run props clock (Internal.mount props) evs))) /\
  (forall props clock conversation0 evs,
     Forall (fun e => Paired.entry_user e <> []
                      /\ truthy (Paired.entry_bot e) = true) conversation0 ->
     Forall (fun e => Paired.entry_user e <> []
                      /\ truthy (Paired.entry_bot e) = true)
       (Paired.conversation
          (Paired.run props clock (Paired.mount conversation0) evs))).
Proof.
  split.
  - intros props clock evs H0.
    apply (InternalFacts.run_invariant props clock
             (fun w => Forall (fun m => truthy (Internal.message m) = true)
                         (Internal.messages w))); [exact H0|].
    intros w w' L Hp T.
    destruct T as [Em| ? ? Hs E|s ? E|s st text rest ? ? Ht Hr Em].
    + rewrite Em. exact Hp.
    + subst w'. cbn. apply Forall_app. split; [exact Hp|].
      constructor; [|constructor]. cbn.
      destruct (trim (Internal.inputMessage w)); [contradiction|reflexivity].
    + subst w'. destruct w; exact Hp.
    + rewrite Em. apply Forall_app. split; [exact Hp|].
      constructor; [exact Ht|].
      destruct Hr as [-> | ->]; constructor; [reflexivity|constructor].
  - intros props clock conversation0 evs H0.
    apply (PairedFacts.paired_run_invariant props clock conversation0
             (fun w =>
                Forall (fun e => Paired.entry_user e <> []
                                 /\ truthy (Paired.entry_bot e) = true)
                  (Paired.conversation w) /\
                Forall (fun a => Paired.act_userMessage a <> [])
                  (Paired.inflight w))).
    + split; [exact H0|constructor].
    + intros w w' L [Hc Ha] T.
      destruct T as [Ec Ei| ? ? Hs E|s Hi E|s st text Hi ? Ht Ec ? ? Hi'].
      * rewrite Ec, Ei. auto.
      * subst w'. cbn. split; [exact Hc|].
        constructor; [exact Hs|constructor].
      * subst w'. rewrite Hi in Ha. inversion Ha; subst.
        destruct w; cbn in *. split; [exact Hc|].
        constructor; [assumption|constructor].
      * rewrite Hi in Ha. inversion Ha; subst.
        rewrite Ec, Hi'. split; [|constructor].
        apply Forall_app. split; [exact Hc|].
        constructor; [|constructor]. cbn. auto.
Qed.

(** An instance without initial messages, after a failed exchange. *)
Lemma texts_are_truthy_witness :
  Forall (fun m => truthy (Internal.message m) = true)
    (Internal.messages
       (Internal.run (Demo.props None) Demo.clock
          (Internal.mount (Demo.props None))
          [InputChange (lit "hello"); SendClick;
           FetchSettles 0 (Fulfilled Demo.server_error)])).
Proof.
  apply (proj1 texts_are_truthy (Demo.props None) Demo.clock).
  constructor.
Defined.

(** X18.  The store only grows at its end.  Whatever render the
    handlers of an event closed over, the event leaves the stored
    sequence in place and appends to it: nothing, or one message, or, in
    the internal-state variant and only when the host's callback threw,
    the reply followed by the apology; in the paired-entry variant
    nothing or one entry.  So after any events and commits the store is
    the earlier store followed by what was appended since, in order: no
    entry is removed, reordered or changed. *)
Theorem store_only_grows_at_its_end :
  (forall props clock c (w : Internal.World) (e : Event),
     exists added,
       Internal.messages (Internal.dispatch props clock c w e)
         = Internal.messages w ++ added /\
       (added = [] \/
        (exists m, added = [m]) \/
        (exists reply cb d err,
           added = [reply;
                    Internal.botMessage_at props clock (VString apology_text)
                      (2 + Internal.clockReads w)] /\
           Internal.onSaveMessage props = Some cb /\
           cb d = Internal.Throws err))) /\
  (forall props clock (p : Internal.Page) (actions : list Action),
     exists added,
       Internal.messages
         (Internal.world (Internal.page_run props clock p actions))
       = Internal.messages (Internal.world p) ++ added) /\
  (forall props clock c (w : Paired.World) (e : Event),
     Paired.conversation (Paired.dispatch props clock c w e)
       = Paired.conversation w \/
     exists entry,
       Paired.conversation (Paired.dispatch props clock c w e)
         = Paired.conversation w ++ [entry]) /\
  (forall props clock (p : Paired.Page) (actions : list Action),
     exists added,
       Paired.conversation
         (Paired.world (Paired.page_run props clock p actions))
       = Paired.conversation (Paired.world p) ++ added).
Proof.
  split; [|split; [|split]].
  - intros props clock c w e. apply InternalFacts.dispatch_appends.
  - intros props clock p actions. apply InternalFacts.page_run_appends.
  - intros props clock c w e. apply PairedFacts.paired_dispatch_appends.
  - intros props clock p actions. apply PairedFacts.paired_page_run_appends.
Qed.

(** X8.  The store is in chronological order whenever the clock of the
    page does not run backwards.  If the initial messages are in order
    and not later than the first reading of the clock, the timestamps of
    the message list are in non-decreasing order after any events; so are
    the times of the paired entries. *)
Theorem timestamps_are_in_order :
  (forall props clock evs,
     (forall a b, (a <= b)%nat -> (clock a <= clock b)%Z) ->
     StronglySorted Z.le
       (map Internal.timestamp (Internal.p_initialMessages props)) ->
     Forall (fun t => (t <= clock 0%nat)%Z)
       (map Internal.timestamp (Internal.p_initialMessages props)) ->
     StronglySorted Z.le
       (map Internal.timestamp
          (Internal.messages
             (Internal.run props clock (Internal.mount props) evs)))) /\
  (forall props clock conversation0 evs,
     (forall a b, (a <= b)%nat -> (clock a <= clock b)%Z) ->
     StronglySorted Z.le (map Paired.entry_time conversation0) ->
     Forall (fun t => (t <= clock 0%nat)%Z)
       (map Paired.entry_time conversation0) ->
     StronglySorted Z.le
       (map Paired.entry_time
          (Paired.conversation
             (Paired.run props clock (Paired.mount conversation0) evs)))).
Proof.
  assert (Hold : forall (clock : nat -> Z) l n n',
            (forall a b, (a <= b)%nat -> (clock a <= clock b)%Z) ->
            (n <= n')%nat ->
            Forall (fun t => (t <= clock n)%Z) l ->
            Forall (fun t => (t <= clock n')%Z) l).
  { intros clock l n n' Hmono Hn H. eapply Forall_impl; [|exact H].
    cbn. intros t Ht. specialize (Hmono n n' Hn). lia. }
  split.
  - intros props clock evs Hmono Hs0 Hb0.
    apply (InternalFacts.run_invariant props clock
             (fun w =>
                StronglySorted Z.le
                  (map Internal.timestamp (Internal.messages w)) /\
                Forall (fun t => (t <= clock (Internal.clockReads w))%Z)
                  (map Internal.timestamp (Internal.messages w))));
      [split; assumption|].
    intros w w' L [Hs Hb] T.
    destruct T as [Em ? ? ? ? ? En| ? ? ? E|s ? E
                  |s st text rest ? ? ? Hr Em En].
    + rewrite Em, En. auto.
    + subst w'. cbn. rewrite map_app. cbn. split.
      * apply sorted_snoc; [exact Hs|].
        apply (Hold clock _ (Internal.clockReads w)); auto.
      * apply Forall_app. split.
        -- apply (Hold clock _ (Internal.clockReads w)); auto.
        -- constructor; [apply Hmono; lia|constructor].
    + subst w'. destruct w; cbn in *. auto.
    + rewrite Em, En, map_app.
      destruct Hr as [-> | ->]; cbn.
      * split.
        -- apply sorted_snoc; [exact Hs|].
           apply (Hold clock _ (Internal.clockReads w)); auto.
        -- apply Forall_app. split.
           ++ apply (Hold clock _ (Internal.clockReads w)); auto.
           ++ constructor; [apply Hmono; lia|constructor].
      * change [clock (S (Internal.clockReads w));
                clock (S (S (S (Internal.clockReads w))))]
          with ([clock (S (Internal.clockReads w))]
                  ++ [clock (S (S (S (Internal.clockReads w))))]).
        rewrite app_assoc. split.
        -- apply sorted_snoc.
           ++ apply sorted_snoc; [exact Hs|].
              apply (Hold clock _ (Internal.clockReads w)); auto.
           ++ apply Forall_app. split.
              ** apply (Hold clock _ (Internal.clockReads w)); auto.
              ** constructor; [apply Hmono; lia|constructor].
        -- apply Forall_app. split; [apply Forall_app; split|].
           ++ apply (Hold clock _ (Internal.clockReads w)); auto.
           ++ constructor; [apply Hmono; lia|constructor].
           ++ constructor; [apply Hmono; lia|constructor].
  - intros props clock conversation0 evs Hmono Hs0 Hb0.
    apply (PairedFacts.paired_run_invariant props clock conversation0
             (fun w =>
                StronglySorted Z.le
                  (map Paired.entry_time (Paired.conversation w)) /\
                Forall (fun t => (t <= clock (Paired.clockReads w))%Z)
                  (map Paired.entry_time (Paired.conversation w))));
      [split; assumption|].
    intros w w' L [Hs Hb] T.
    destruct T as [Ec ? ? ? ? ? En| ? ? ? E|s ? E|s st text ? ? ? Ec En].
    + rewrite Ec, En. auto.
    + subst w'. cbn. split; [exact Hs|].
      apply (Hold clock _ (Paired.clockReads w)); auto.
    + subst w'. destruct w; cbn in *. auto.
    + rewrite Ec, En, map_app. cbn. split.
      * apply sorted_snoc; assumption.
      * apply Forall_app. split.
        -- apply (Hold clock _ (Paired.clockReads w)); auto.
        -- constructor; [apply Hmono; lia|constructor].
Qed.

(** The clock of the examples, after one whole exchange. *)
Lemma timestamps_are_in_order_witness :
  StronglySorted Z.le
    (map Internal.timestamp
       (Internal.messages
          (Internal.run (Demo.props None) Demo.clock
             (Internal.mount (Demo.props None))
             [InputChange (lit "hello"); SendClick;
              FetchSettles 0 (Fulfilled Demo.ok_response);
              JsonSettles 0 (Fulfilled (VObject []))]))).
Proof.
  apply (proj1 timestamps_are_in_order (Demo.props None) Demo.clock).
  - intros a b H. unfold Demo.clock. lia.
  - constructor.
  - constructor.
Defined.

(** ** Properties of the rendered tree *)

(** X10.  The send button tells the truth about its click.  In the open
    panel of either variant, when it renders: the input box is disabled
    exactly while a request is pending; when the send button is disabled
    a click on it changes nothing; and when it is enabled a click issues
    one request with the trimmed input, after which the input box is
    empty and both controls are disabled. *)
Theorem send_button_agrees_with_guard :
  (forall props toLocaleTimeString clock (w : Internal.World) v m,
     InternalView.jsx props toLocaleTimeString w = Normal v ->
     InternalView.modal v = Some m ->
     InternalView.input_value m = Internal.inputMessage w /\
     InternalView.input_disabled m = Internal.isLoading w /\
     (InternalView.send_disabled m = true ->
      Internal.step props clock w SendClick = w) /\
     (InternalView.send_disabled m = false ->
      let w' := Internal.step props clock w SendClick in
      Internal.fetchLog w'
        = Internal.fetchLog w
            ++ [Internal.request_at props clock (Internal.inputMessage w)
                  (2 + Internal.clockReads w)] /\
      exists v' m',
        InternalView.jsx props toLocaleTimeString w' = Normal v' /\
        InternalView.modal v' = Some m' /\
        InternalView.input_value m' = [] /\
        InternalView.input_disabled m' = true /\
        InternalView.send_disabled m' = true)) /\
  (forall props toLocaleTimeString toLocaleDateString clock
          (w : Paired.World) v m,
     PairedView.jsx props toLocaleTimeString toLocaleDateString w
       = Normal v ->
     PairedView.modal v = Some m ->
     PairedView.input_value m = Paired.inputMessage w /\
     PairedView.input_disabled m = Paired.isLoading w /\
     (PairedView.send_disabled m = true ->
      Paired.step props clock w SendClick = w) /\
     (PairedView.send_disabled m = false ->
      let w' := Paired.step props clock w SendClick in
      Paired.fetchLog w'
        = Paired.fetchLog w
            ++ [Paired.request_at props clock (Paired.inputMessage w)
                  (Paired.clockReads w)] /\
      Paired.inputMessage w' = [] /\ Paired.isLoading w' = true)).
Proof.
  split.
  - intros props fmt clock w v m Hv Hm.
    destruct (InternalViewFacts.jsx_normal props fmt w v Hv) as [-> Ha].
    rewrite InternalViewFacts.accepted_tree in Ha.
    unfold InternalView.tree in Hm. cbn in Hm.
    destruct (Internal.isOpen w) eqn:Ho; [|discriminate Hm].
    cbn in Ha. injection Hm as <-.
    cbn [InternalView.input_value InternalView.input_disabled
           InternalView.send_disabled].
    split; [reflexivity|]. split; [reflexivity|]. split.
    + intros G. apply guard_blocks in G.
      apply InternalFacts.step_send_blocked, G.
    + intros G. apply guard_passes in G. destruct G as [Hs Hl].
      rewrite InternalFacts.step_send_passes by assumption.
      cbn [Internal.fetchLog].
      split; [reflexivity|].
      unfold InternalView.jsx. cbv zeta.
      rewrite InternalViewFacts.accepted_tree.
      cbn [Internal.isOpen Internal.messages]. rewrite Ho.
      rewrite forallb_app, Ha. cbn [negb orb andb forallb].
      unfold InternalView.tree.
      cbn [Internal.isOpen Internal.messages Internal.inputMessage
             Internal.isLoading InternalView.modal].
      eexists. eexists. split; [reflexivity|].
      split; [reflexivity|]. cbn. rewrite orb_true_r. auto.
  - intros props fT fD clock w v m Hv Hm.
    destruct (PairedTreeFacts.paired_jsx_normal props fT fD w v Hv)
      as [Ht _].
    destruct (PairedTreeFacts.paired_tree_total props fT fD w)
      as (v' & Hv' & Hmod).
    rewrite Ht in Hv'. injection Hv' as <-. rewrite Hm in Hmod.
    destruct Hmod as (_ & _ & _ & _ & Iv & Id & Sd).
    split; [exact Iv|]. split; [exact Id|]. rewrite Sd. split.
    + intros G. apply guard_blocks in G.
      apply PairedFacts.paired_step_send_blocked, G.
    + intros G. apply guard_passes in G. destruct G as [Hs Hl].
      rewrite PairedFacts.paired_step_send_passes by assumption. cbn.
      auto.
Qed.

(** The open panel with "hello" typed: the button is enabled and the
    click sends. *)
Lemma send_button_agrees_with_guard_witness :
  List.length
    (Internal.fetchLog
       (Internal.step (Demo.props None) Demo.clock (Demo.typed None)
          SendClick))
  = 1%nat.
Proof.
  destruct (proj1 send_button_agrees_with_guard (Demo.props None)
              (fun _ => []) Demo.clock (Demo.typed None) _ _
              eq_refl eq_refl)
    as (_ & _ & _ & H).
  destruct (H eq_refl) as [E _]. rewrite E. reflexivity.
Defined.

(** X11.  In the internal-state variant the welcome text and the typing
    indicator are never on screen together: whenever a request is
    pending the message list already holds the user's message. *)
Theorem welcome_gone_while_typing :
  forall props toLocaleTimeString clock evs v m,
    InternalView.jsx props toLocaleTimeString
      (Internal.run props clock (Internal.mount props) evs)
    = Normal v ->
    InternalView.modal v = Some m ->
    InternalView.typing_indicator m <> None ->
    InternalView.welcome m = None /\ InternalView.message_views m <> [].
Proof.
  intros props fmt clock evs v m Hv Hm Ht.
  assert (P : Internal.isLoading
                (Internal.run props clock (Internal.mount props) evs) = true ->
              Internal.messages
                (Internal.run props clock (Internal.mount props) evs) <> []).
  { apply (InternalFacts.run_invariant props clock
             (fun w => Internal.isLoading w = true ->
                       Internal.messages w <> [])).
    - discriminate.
    - intros w w' L Hp T.
      destruct T as [Em ? El| ? ? ? E|s ? E|s st text rest ? ? ? ? ? ? El'].
      + rewrite Em, El. exact Hp.
      + subst w'. cbn. intros _ Hnil. apply app_eq_nil in Hnil.
        destruct Hnil as [_ Hnil]. discriminate Hnil.
      + subst w'. destruct w; exact Hp.
      + rewrite El'. discriminate. }
  remember (Internal.run props clock (Internal.mount props) evs) as w.
  clear Heqw.
  destruct (InternalViewFacts.jsx_normal props fmt w v Hv) as [-> _].
  unfold InternalView.tree in Hm. cbn in Hm.
  destruct (Internal.isOpen w); [|discriminate Hm].
  injection Hm as <-. cbn in *.
  destruct (Internal.isLoading w); [|contradiction].
  specialize (P eq_refl).
  destruct (Internal.messages w); [contradiction|].
  split; [reflexivity|discriminate].
Qed.

(** The open panel right after "hello" was submitted. *)
Lemma welcome_gone_while_typing_witness :
  match
    InternalView.jsx (Demo.props None) (fun _ => [])
      (Internal.run (Demo.props None) Demo.clock
         (Internal.mount (Demo.props None))
         [ToggleClick; InputChange (lit "hello"); SendClick])
  with
  | Normal {| InternalView.modal := Some m |} => InternalView.welcome m = None
  | _ => False
  end.
Proof.
  destruct (InternalView.jsx (Demo.props None) (fun _ => [])
              (Internal.run (Demo.props None) Demo.clock
                 (Internal.mount (Demo.props None))
                 [ToggleClick; InputChange (lit "hello"); SendClick]))
    as [[icon count [m|]]|err] eqn:E.
  - apply (welcome_gone_while_typing (Demo.props None) (fun _ => [])
             Demo.clock [ToggleClick; InputChange (lit "hello"); SendClick]
             _ m E eq_refl).
    vm_compute in E. injection E as _ _ <-. discriminate.
  - vm_compute in E. discriminate E.
  - vm_compute in E. discriminate E.
Defined.

(** X12.  In the paired-entry variant the first exchange shows nothing
    of the user's message while it is pending: as long as no exchange has
    ended on an instance mounted with an empty conversation, the open
    panel shows the welcome text, no entry, and, while the request is
    pending, the typing indicator beside it. *)
Theorem paired_welcome_stays_while_typing :
  forall props toLocaleTimeString toLocaleDateString clock evs,
    forallb Paired.before_settle evs = true ->
    let w := Paired.run props clock (Paired.mount []) evs in
    Paired.isOpen w = true ->
    exists v m,
      PairedView.jsx props toLocaleTimeString toLocaleDateString w
        = Normal v /\
      PairedView.modal v = Some m /\
      PairedView.welcome m
        = Some (Paired.name (Paired.user props),
                PairedView.p_welcomeMessage props) /\
      PairedView.entry_views m = [] /\
      PairedView.typing_indicator m = Paired.isLoading w.
Proof.
  intros props fT fD clock evs Hb w Ho.
  destruct (PairedFacts.paired_run_before_settle props clock evs
              (Paired.mount []) Hb) as [Hc _].
  fold w in Hc. clearbody w. cbn in Hc.
  unfold PairedView.jsx, PairedView.tree. rewrite Ho, Hc. cbn.
  eexists. eexists. repeat split; reflexivity.
Qed.

(** "hello" submitted in the open panel, the response not yet there. *)
Lemma paired_welcome_stays_while_typing_witness :
  exists v m,
    PairedView.jsx Demo.paired_props (fun _ => []) (fun _ => [])
      (Paired.run Demo.paired_props Demo.clock (Paired.mount [])
         [ToggleClick; InputChange (lit "hello"); SendClick])
    = Normal v /\
    PairedView.modal v = Some m /\
    PairedView.welcome m <> None /\
    PairedView.typing_indicator m = true.
Proof.
  destruct (paired_welcome_stays_while_typing Demo.paired_props
              (fun _ => []) (fun _ => []) Demo.clock
              [ToggleClick; InputChange (lit "hello"); SendClick]
              eq_refl eq_refl)
    as (v & m & Hv & Hm & Hw & _ & Ht).
  exists v, m. split; [exact Hv|]. split; [exact Hm|]. split.
  - rewrite Hw. discriminate.
  - rewrite Ht. reflexivity.
Defined.

(** X13.  Rendering fails exactly when the panel is open and a stored
    bot text is not a valid React child: a plain object, alone or inside
    an array.  The handlers reach such states, since a truthy [answer]
    is stored as it came.  Nothing else makes rendering throw: in the
    paired-entry variant the look-up of the previous entry,
    [conversation[index - 1]], is always inside the list, and the open
    panel then holds one fragment per entry, in order, keyed by its
    index, with the entry's two texts, the bot's time shown one second
    after the user's, and a date separator on the first entry. *)
Theorem render_fails_exactly_on_invalid_child :
  (forall props toLocaleTimeString (w : Internal.World),
     let valid :=
       forallb (fun m => valid_child (Internal.message m))
         (Internal.messages w) in
     (Internal.isOpen w = true /\ valid = false ->
      InternalView.jsx props toLocaleTimeString w = Throw invalid_child) /\
     (Internal.isOpen w = false \/ valid = true ->
      InternalView.jsx props toLocaleTimeString w
      = Normal (InternalView.tree props toLocaleTimeString w))) /\
  (forall props toLocaleTimeString toLocaleDateString (w : Paired.World),
     let valid :=
       forallb (fun e => valid_child (Paired.entry_bot e))
         (Paired.conversation w) in
     (Paired.isOpen w = true /\ valid = false ->
      PairedView.jsx props toLocaleTimeString toLocaleDateString w
      = Throw invalid_child) /\
     (Paired.isOpen w = false \/ valid = true ->
      exists v,
        PairedView.jsx props toLocaleTimeString toLocaleDateString w
          = Normal v /\
        match PairedView.modal v with
        | None => Paired.isOpen w = false
        | Some m =>
            Paired.isOpen w = true /\
            let views := PairedView.entry_views m in
            let entries := Paired.conversation w in
            map PairedView.ev_key views = seq 0 (List.length entries) /\
            map PairedView.ev_user_text views
              = map Paired.entry_user entries /\
            map PairedView.ev_bot_text views
              = map Paired.entry_bot entries /\
            map PairedView.ev_user_time views
              = map (fun e => toLocaleTimeString (Paired.entry_time e))
                  entries /\
            map PairedView.ev_bot_time views
              = map (fun e =>
                       toLocaleTimeString (Paired.entry_time e + 1000)%Z)
                  entries /\
            map PairedView.ev_separator (firstn 1 views)
              = map (fun e =>
                       Some (toLocaleDateString (Paired.entry_time e)))
                  (firstn 1 entries)
        end)).
Proof.
  split.
  - intros props fT w valid. subst valid.
    unfold InternalView.jsx. cbv zeta.
    rewrite InternalViewFacts.accepted_tree. split.
    + intros [-> ->]. reflexivity.
    + intros [-> | ->]; [reflexivity|].
      rewrite orb_true_r. reflexivity.
  - intros props fT fD w valid. subst valid.
    destruct (PairedTreeFacts.paired_tree_total props fT fD w)
      as (v & Hv & Hmod).
    pose proof (PairedTreeFacts.paired_accepted_tree props fT fD w v Hv)
      as Ha.
    unfold PairedView.jsx. rewrite Hv, Ha. split.
    + intros [-> ->]. reflexivity.
    + intros Hok.
      assert (E : negb (Paired.isOpen w)
                  || forallb (fun e => valid_child (Paired.entry_bot e))
                       (Paired.conversation w) = true).
      { destruct Hok as [-> | ->]; [reflexivity|apply orb_true_r]. }
      rewrite E. exists v. split; [reflexivity|].
      destruct (PairedView.modal v) as [m|]; [|exact Hmod].
      destruct Hmod as (Ho & Hme & _). split; [exact Ho|].
      destruct (PairedViewFacts.map_entries_total fT fD
                  (Paired.conversation w) [])
        as (views & Hm' & K & U & B & UT & BT & F & _).
      cbn in Hm'. rewrite Hme in Hm'. injection Hm' as <-. cbv zeta.
      repeat split; try assumption.
      destruct (Paired.conversation w) as [|e l] eqn:Ec.
      * cbn in K. destruct (PairedView.entry_views m);
          [reflexivity|discriminate K].
      * apply F; [reflexivity|discriminate].
Qed.

(** The answer [{}] is truthy, is stored, and the open panel of the
    paired-entry variant then fails to render. *)
Lemma render_fails_exactly_on_invalid_child_witness :
  PairedView.jsx Demo.paired_props (fun _ => []) (fun _ => [])
    (Paired.run Demo.paired_props Demo.clock (Paired.mount [])
       [ToggleClick; InputChange (lit "hello"); SendClick;
        FetchSettles 0 (Fulfilled Demo.ok_response);
        JsonSettles 0
          (Fulfilled (VObject [(lit "answer", VObject [])]))])
  = Throw invalid_child.
Proof.
  apply (proj1 (proj2 render_fails_exactly_on_invalid_child
                  Demo.paired_props (fun _ => []) (fun _ => []) _)).
  split; reflexivity.
Defined.

(** X14.  When all entries of the conversation fall on one day (as
    [toLocaleDateString] prints it), the open panel shows exactly one
    date separator, on the first entry. *)
Theorem paired_one_separator_per_day :
  forall props toLocaleTimeString toLocaleDateString (w : Paired.World) d v m,
    Forall (fun e => toLocaleDateString (Paired.entry_time e) = d)
      (Paired.conversation w) ->
    PairedView.jsx props toLocaleTimeString toLocaleDateString w = Normal v ->
    PairedView.modal v = Some m ->
    map PairedView.ev_separator (PairedView.entry_views m)
    = map (fun i => if (i =? 0)%nat then Some d else None)
        (seq 0 (List.length (Paired.conversation w))).
Proof.
  intros props fT fD w d v m Hd Hv Hm.
  destruct (PairedTreeFacts.paired_jsx_normal props fT fD w v Hv) as [Ht _].
  destruct (PairedTreeFacts.paired_tree_total props fT fD w)
    as (v' & Hv' & Hmod).
  rewrite Ht in Hv'. injection Hv' as <-. rewrite Hm in Hmod.
  destruct Hmod as (_ & Hme & _).
  destruct (PairedViewFacts.map_entries_total fT fD (Paired.conversation w)
              []) as (views & Hme' & _ & _ & _ & _ & _ & _ & S1).
  cbn in Hme'. rewrite Hme in Hme'. injection Hme' as <-.
  apply S1. exact Hd.
Qed.

(** Two exchanges on the same day: the separator is on the first. *)
Lemma paired_one_separator_per_day_witness :
  match
    PairedView.jsx Demo.paired_props (fun _ => []) (fun _ => lit "Nov 14")
      (Paired.run Demo.paired_props Demo.clock (Paired.mount [])
         [ToggleClick; InputChange (lit "hello"); SendClick;
          FetchSettles 0 (Fulfilled Demo.server_error);
          InputChange (lit "again"); SendClick;
          FetchSettles 0 (Fulfilled Demo.server_error)])
  with
  | Normal {| PairedView.modal := Some m |} =>
      map PairedView.ev_separator (PairedView.entry_views m)
      = [Some (lit "Nov 14"); None]
  | _ => False
  end.
Proof.
  destruct (PairedView.jsx Demo.paired_props (fun _ => [])
              (fun _ => lit "Nov 14")
              (Paired.run Demo.paired_props Demo.clock (Paired.mount [])
                 [ToggleClick; InputChange (lit "hello"); SendClick;
                  FetchSettles 0 (Fulfilled Demo.server_error);
                  InputChange (lit "again"); SendClick;
                  FetchSettles 0 (Fulfilled Demo.server_error)]))
    as [[icon count [m|]]|err] eqn:E.
  - assert (Hd : Forall
                   (fun e => (fun _ : Date => lit "Nov 14")
                               (Paired.entry_time e) = lit "Nov 14")
                   (Paired.conversation
                      (Paired.run Demo.paired_props Demo.clock
                         (Paired.mount [])
                         [ToggleClick; InputChange (lit "hello"); SendClick;
                          FetchSettles 0 (Fulfilled Demo.server_error);
                          InputChange (lit "again"); SendClick;
                          FetchSettles 0 (Fulfilled Demo.server_error)])))
      by (vm_compute; repeat constructor).
    apply (paired_one_separator_per_day Demo.paired_props (fun _ => [])
             (fun _ => lit "Nov 14") _ (lit "Nov 14") _ m Hd E eq_refl).
  - vm_compute in E. discriminate E.
  - vm_compute in E. discriminate E.
Defined.

(** ** Properties of whole exchanges *)

(** X15.  With a clock that does not run backwards, the user message and
    the bot message of one exchange get different ids (the React keys of
    their bubbles): the first is the reading at the submit, the second a
    later reading plus one.  Whatever the body of the [ok] response
    settles with. *)
Theorem exchange_ids_differ :
  forall props clock evs0 ui1 ui2 res r,
    (forall a b, (a <= b)%nat -> (clock a <= clock b)%Z) ->
    let w0 := Internal.run props clock (Internal.mount props) evs0 in
    Internal.isLoading w0 = false ->
    trim (Internal.inputMessage w0) <> [] ->
    forallb ui_event ui1 = true -> forallb ui_event ui2 = true ->
    ok res = true ->
    let w := Internal.run props clock w0
               (SendClick :: ui1 ++ FetchSettles 0 (Fulfilled res)
                  :: ui2 ++ [JsonSettles 0 r]) in
    exists u b rest,
      Internal.messages w = Internal.messages w0 ++ u :: b :: rest /\
      Internal.msg_type u = Internal.user_type /\
      Internal.msg_type b = Internal.bot_type /\
      Internal.msg_id u <> Internal.msg_id b.
Proof.
  intros props clock evs0 ui1 ui2 res r Hmono w0 Hl Hs Hu1 Hu2 Hk w.
  assert (Hi : Internal.inflight w0 = [])
    by exact (InternalFacts.idle_inflight props clock evs0 Hl).
  clearbody w0.
  assert (El : SendClick :: ui1 ++ FetchSettles 0 (Fulfilled res)
                 :: ui2 ++ [JsonSettles 0 r]
               = (SendClick :: ui1 ++ FetchSettles 0 (Fulfilled res) :: ui2)
                   ++ [JsonSettles 0 r]).
  { cbn. rewrite <- app_assoc. reflexivity. }
  subst w. rewrite El, InternalFacts.run_app.
  destruct (InternalFacts.awaiting_body_exchange props clock w0 ui1 ui2 res
              Hi Hl Hs Hu1 Hu2 Hk) as (A & B & C & E & F & G).
  remember (Internal.run props clock w0
              (SendClick :: ui1 ++ FetchSettles 0 (Fulfilled res) :: ui2))
    as w3 eqn:Ew3. clear Ew3.
  cbn [Internal.run fold_left].
  assert (L3 : Internal.locked w3) by (right; split; [exact B|eauto]).
  destruct (InternalFacts.json_settle_ends props clock w3
              (Internal.inputMessage w0) r C) as (Hl' & _ & _).
  destruct (InternalFacts.step_transition props clock w3 (JsonSettles 0 r) L3)
    as [? ? El3| Hl3| s Hi3|s st text rest ? ? ? ? Em].
  - congruence.
  - congruence.
  - rewrite C in Hi3. discriminate Hi3.
  - exists (Internal.userMessage_at props clock (Internal.inputMessage w0)
              (Internal.clockReads w0)),
           (Internal.botMessage_at props clock text (Internal.clockReads w3)),
           rest.
    rewrite Em, A, <- app_assoc.
    split; [reflexivity|]. split; [reflexivity|]. split; [reflexivity|].
    cbn. intros Eid. apply toString_inj in Eid. rewrite G in Eid.
    specialize (Hmono (Internal.clockReads w0)
                  (S (S (S (Internal.clockReads w0))))).
    lia.
Qed.

(** The clock of the examples; the body is [{"answer": "X"}]. *)
Lemma exchange_ids_differ_witness :
  exists u b rest,
    Internal.messages
      (Internal.run (Demo.props None) Demo.clock
         (Internal.run (Demo.props None) Demo.clock
            (Internal.mount (Demo.props None)) [InputChange (lit "hello")])
         (SendClick
            :: [] ++ FetchSettles 0 (Fulfilled Demo.ok_response)
            :: [] ++ [JsonSettles 0
                        (Fulfilled
                           (VObject [(lit "answer", VString (lit "X"))]))]))
    = Internal.messages
        (Internal.run (Demo.props None) Demo.clock
           (Internal.mount (Demo.props None)) [InputChange (lit "hello")])
        ++ u :: b :: rest /\
    Internal.msg_type u = Internal.user_type /\
    Internal.msg_type b = Internal.bot_type /\
    Internal.msg_id u <> Internal.msg_id b.
Proof.
  apply (exchange_ids_differ (Demo.props None) Demo.clock
           [InputChange (lit "hello")] [] [] Demo.ok_response
           (Fulfilled (VObject [(lit "answer", VString (lit "X"))]))).
  - intros a b H. unfold Demo.clock. lia.
  - reflexivity.
  - discriminate.
  - reflexivity.
  - reflexivity.
  - reflexivity.
Defined.

(** X16.  A failure does not end the session.  After a failed exchange
    the instance is idle again with whatever the user typed meanwhile
    still in the input box, and the next submit of non-empty text issues
    a second request: the call log holds the two requests, in order. *)
Theorem retry_after_failure :
  (forall props clock evs0 ui r s2,
     let w0 := Internal.run props clock (Internal.mount props) evs0 in
     Internal.isLoading w0 = false ->
     trim (Internal.inputMessage w0) <> [] ->
     forallb ui_event ui = true -> fetch_failed r = true ->
     trim s2 <> [] ->
     let pending := Internal.run props clock w0 (SendClick :: ui) in
     let failed := Internal.step props clock pending (FetchSettles 0 r) in
     let w := Internal.run props clock failed [InputChange s2; SendClick] in
     Internal.inputMessage failed = Internal.inputMessage pending /\
     Internal.isLoading failed = false /\
     Internal.isLoading w = true /\
     map (fun q => body_message (body q)) (Internal.fetchLog w)
     = map (fun q => body_message (body q)) (Internal.fetchLog w0)
         ++ [trim (Internal.inputMessage w0); trim s2]) /\
  (forall props clock conversation0 evs0 ui r s2,
     let w0 := Paired.run props clock (Paired.mount conversation0) evs0 in
     Paired.isLoading w0 = false ->
     trim (Paired.inputMessage w0) <> [] ->
     forallb ui_event ui = true -> fetch_failed r = true ->
     trim s2 <> [] ->
     let pending := Paired.run props clock w0 (SendClick :: ui) in
     let failed := Paired.step props clock pending (FetchSettles 0 r) in
     let w := Paired.run props clock failed [InputChange s2; SendClick] in
     Paired.inputMessage failed = Paired.inputMessage pending /\
     Paired.isLoading failed = false /\
     Paired.isLoading w = true /\
     map (fun q => body_message (body q)) (Paired.fetchLog w)
     = map (fun q => body_message (body q)) (Paired.fetchLog w0)
         ++ [trim (Paired.inputMessage w0); trim s2]).
Proof.
  split.
  - intros props clock evs0 ui r s2 w0 Hl Hs Hu Hf Hs2 pending failed w.
    assert (Hi : Internal.inflight w0 = [])
      by exact (InternalFacts.idle_inflight props clock evs0 Hl).
    destruct (InternalFacts.pending_exchange props clock w0 ui Hi Hl Hs Hu)
      as (A & B & C & D & E & F & G).
    fold pending in A, B, C, D, E, F, G. clearbody pending. clearbody w0.
    assert (Ef : failed
                 = {| Internal.isOpen := Internal.isOpen pending;
                      Internal.messages :=
                        Internal.messages pending
                          ++ [Internal.botMessage_at props clock
                                (VString apology_text)
                                (Internal.clockReads pending)];
                      Internal.inputMessage := Internal.inputMessage pending;
                      Internal.isLoading := false;
                      Internal.inflight := [];
                      Internal.fetchLog := Internal.fetchLog pending;
                      Internal.hostLog := Internal.hostLog pending;
                      Internal.consoleLog :=
                        Internal.consoleLog pending ++ [failure_of r];
                      Internal.clockReads :=
                        S (S (Internal.clockReads pending)) |}).
    { subst failed.
      rewrite (InternalFacts.step_fetch_fails props clock pending 0
                 (Internal.inputMessage w0) r) by (try rewrite C; auto).
      rewrite C. reflexivity. }
    clearbody failed. subst failed w.
    cbn [Internal.run fold_left Internal.inputMessage Internal.isLoading].
    split; [reflexivity|]. split; [reflexivity|].
    rewrite InternalFacts.step_send_passes by (cbn; auto).
    cbn. rewrite D, map_app, map_app, <- app_assoc. split; reflexivity.
  - intros props clock conversation0 evs0 ui r s2 w0 Hl Hs Hu Hf Hs2
      pending failed w.
    assert (Hi : Paired.inflight w0 = [])
      by exact (PairedFacts.paired_idle_inflight props clock conversation0
                  evs0 Hl).
    destruct (PairedFacts.paired_pending_exchange props clock w0 ui
                Hi Hl Hs Hu) as (A & B & C & D & E & F & G).
    fold pending in A, B, C, D, E, F, G. clearbody pending. clearbody w0.
    assert (Ef : Paired.inputMessage failed = Paired.inputMessage pending /\
                 Paired.isLoading failed = false /\
                 Paired.fetchLog failed = Paired.fetchLog pending).
    { subst failed.
      rewrite (PairedFacts.paired_step_fetch_fails props clock pending 0
                 (trim (Paired.inputMessage w0)) r) by (try rewrite C; auto).
      repeat split; reflexivity. }
    clearbody failed. destruct Ef as (Ei & Elo & Efl). subst w.
    cbn [Paired.run fold_left].
    split; [exact Ei|]. split; [exact Elo|].
    remember (Paired.step props clock failed (InputChange s2)) as w1 eqn:E1.
    assert (H1 : Paired.inputMessage w1 = s2 /\
                 Paired.isLoading w1 = false /\
                 Paired.fetchLog w1 = Paired.fetchLog pending).
    { subst w1. destruct failed; cbn in *. auto. }
    clear E1. destruct H1 as (I1 & L1 & F1).
    rewrite PairedFacts.paired_step_send_passes
      by (rewrite ?I1; assumption).
    cbn [Paired.isLoading Paired.fetchLog].
    rewrite F1, I1, D, map_app, map_app, <- app_assoc.
    split; reflexivity.
Qed.

(** "hello" fails with status 500; "again" is then sent. *)
Lemma retry_after_failure_witness :
  map (fun q => body_message (body q))
    (Internal.fetchLog
       (Internal.run (Demo.props None) Demo.clock
          (Internal.step (Demo.props None) Demo.clock
             (Internal.run (Demo.props None) Demo.clock
                (Internal.run (Demo.props None) Demo.clock
                   (Internal.mount (Demo.props None))
                   [InputChange (lit "hello")])
                (SendClick :: []))
             (FetchSettles 0 (Fulfilled Demo.server_error)))
          [InputChange (lit "again"); SendClick]))
  = [] ++ [trim (lit "hello"); trim (lit "again")].
Proof.
  apply (proj1 retry_after_failure (Demo.props None) Demo.clock
           [InputChange (lit "hello")] [] (Fulfilled Demo.server_error)
           (lit "again") eq_refl ltac:(discriminate) eq_refl eq_refl
           ltac:(discriminate)).
Defined.

(** X17.  Message ids can collide.  When the host's callback throws
    after the reply was appended, the apology gets the id
    [Date.now() + 1] as the reply did; if both readings of the clock fall
    in the same millisecond, the two bot messages of that settlement
    carry the same id, which is also their React key. *)
Theorem reply_and_apology_share_an_id :
  forall props clock (w : Internal.World) i s data cb err,
    nth_error (Internal.inflight w) i
      = Some {| Internal.act_inputMessage := s;
                Internal.act_stage := AwaitJson |} ->
    data <> VNull -> data <> VUndefined ->
    Internal.onSaveMessage props = Some cb ->
    (forall d, cb d = Internal.Throws err) ->
    clock (2 + Internal.clockReads w)%nat = clock (Internal.clockReads w) ->
    exists reply apology,
      Internal.messages
        (Internal.step props clock w (JsonSettles i (Fulfilled data)))
      = Internal.messages w ++ [reply; apology] /\
      Internal.message apology = VString apology_text /\
      Internal.msg_id reply = Internal.msg_id apology.
Proof.
  intros props clock w i s data cb err Hn Hnull Hundef Hcb Hthrows Hclock.
  rewrite (InternalFacts.step_json_callback_throws props clock w i s data _
             cb err Hn (answer_of_json data Hnull Hundef) Hcb (Hthrows _)).
  cbn [Internal.messages]. rewrite <- app_assoc. cbn [app].
  eexists. eexists. split; [reflexivity|]. split; [reflexivity|].
  cbn. cbn in Hclock. rewrite Hclock. reflexivity.
Qed.

(** A clock that stands still during the settlement, and a callback
    that throws. *)
Lemma reply_and_apology_share_an_id_witness :
  exists reply apology,
    Internal.messages
      (Internal.step (Demo.props (Some Demo.fails)) (fun _ => 1700000000000%Z)
         (Internal.run (Demo.props (Some Demo.fails))
            (fun _ => 1700000000000%Z)
            (Internal.mount (Demo.props (Some Demo.fails)))
            [InputChange (lit "hello"); SendClick;
             FetchSettles 0 (Fulfilled Demo.ok_response)])
         (JsonSettles 0 (Fulfilled (VObject []))))
    = Internal.messages
        (Internal.run (Demo.props (Some Demo.fails))
           (fun _ => 1700000000000%Z)
           (Internal.mount (Demo.props (Some Demo.fails)))
           [InputChange (lit "hello"); SendClick;
            FetchSettles 0 (Fulfilled Demo.ok_response)])
        ++ [reply; apology] /\
    Internal.message apology = VString apology_text /\
    Internal.msg_id reply = Internal.msg_id apology.
Proof.
  apply (reply_and_apology_share_an_id (Demo.props (Some Demo.fails))
           (fun _ => 1700000000000%Z) _ 0%nat (lit "hello") (VObject [])
           Demo.fails (Reason (lit "save failed"))).
  - reflexivity.
  - discriminate.
  - discriminate.
  - reflexivity.
  - reflexivity.
  - reflexivity.
Defined.
